(** * GUI agent skill core: a shallow embedding and its verified properties

    The development follows [core/executor.py] and [core/session_manager.py]:
    coordinate resolution, device selection, next-action derivation, the
    session store, the subprocess registry, the timeout executor and the two
    task entry points ([execute_task], [continue_session]).

    Python values are modelled as the code has them: [int] as [Z], [float] as
    an IEEE-754 binary64 value ([spec_float] with [prec = 53], [emax = 1024]),
    [str] as the [string] of its UTF-8 bytes, a payload [dict] as
    [gmap string _], the dictionaries
    whose order shows (the session table, the result records) as
    insertion-ordered association lists, exceptions as values of [exn]
    carried by a three-way completion (returned, raised, never returns).
    Everything outside the repository (clock, uuid source, adb, adapter,
    operating system) is an oracle answering from the history of interactions
    so far. *)

From Stdlib Require Import ZArith List String Bool Lia.
From Stdlib Require Import Floats.SpecFloat DecimalString.
From Stdlib Require Strings.Byte.
From stdpp Require Import gmap strings.

Local Open Scope Z_scope.

(* ===================================================================== *)
(** ** Python exceptions and completions *)
(* ===================================================================== *)

(** The exception classes the core raises or inspects.  [OtherException]
    stands for any further subclass of [Exception] a collaborator raises,
    [OtherBaseException] for the ones outside [Exception] ([SystemExit],
    [KeyboardInterrupt], ...). *)
Inductive exn : Type :=
| ExecutorError (msg : string)
| OperationTimeoutError (msg : string) (terminated_subprocesses : Z)
| TimeoutError (msg : string)
| ValueError (msg : string)
| OverflowError (msg : string)
| TypeError (msg : string)
| AttributeError (msg : string)
| OtherException (name msg : string)
| OtherBaseException (name msg : string).

(** [str(e)] *)
Definition str_exn (e : exn) : string :=
  match e with
  | ExecutorError m | OperationTimeoutError m _ | TimeoutError m
  | ValueError m | OverflowError m | TypeError m | AttributeError m
  | OtherException _ m | OtherBaseException _ m => m
  end.

(** [isinstance(e, Exception)] *)
Definition is_Exception (e : exn) : bool :=
  match e with OtherBaseException _ _ => false | _ => true end.

(** [isinstance(e, TimeoutError)]; [OperationTimeoutError] subclasses it. *)
Definition is_TimeoutError (e : exn) : bool :=
  match e with OperationTimeoutError _ _ | TimeoutError _ => true | _ => false end.

(** [isinstance(e, OperationTimeoutError)] *)
Definition is_OperationTimeoutError (e : exn) : bool :=
  match e with OperationTimeoutError _ _ => true | _ => false end.

(** [isinstance(e, ExecutorError)] *)
Definition is_ExecutorError (e : exn) : bool :=
  match e with ExecutorError _ => true | _ => false end.

(** How a Python call ends. *)
Inductive completion (A : Type) : Type :=
| Return (a : A)
| Raise (e : exn)
| Diverge.
Arguments Return {A} a.
Arguments Raise {A} e.
Arguments Diverge {A}.

Definition cbind {A B} (c : completion A) (k : A -> completion B) : completion B :=
  match c with
  | Return a => k a
  | Raise e => Raise e
  | Diverge => Diverge
  end.

(** [str(n)] for an [int]. *)
Definition str_int (n : Z) : string := NilZero.string_of_int (Z.to_int n).

(** Python truthiness of a [str]. *)
Definition truthy_str (s : string) : bool := negb (String.eqb s "").

(** Python truthiness of a [str | None]. *)
Definition truthy_opt_str (o : option string) : bool :=
  match o with Some s => truthy_str s | None => false end.

(* ===================================================================== *)
(** ** Python floats: IEEE-754 binary64 *)
(* ===================================================================== *)

Module PyFloat.

Definition prec : Z := 53.
Definition emax : Z := 1024.

Abbreviation float := spec_float.

Definition zero : float := S754_zero false.                       (* 0.0 *)
Definition one : float := S754_finite false 4503599627370496 (-52). (* 1.0 *)
Definition half : float := S754_finite false 4503599627370496 (-53). (* 0.5 *)
Definition one_and_half : float :=
  S754_finite false 6755399441055744 (-52).                       (* 1.5 *)

Definition mul : float -> float -> float := SFmul prec emax.
Definition add : float -> float -> float := SFadd prec emax.
Definition sub : float -> float -> float := SFsub prec emax.
Definition leb : float -> float -> bool := SFleb.
Definition ltb : float -> float -> bool := SFltb.

(** Correctly rounded conversion of an [int] (as [float(n)] and the
    implicit conversion in [x * n] do); too large an [int] raises. *)
Definition of_int (n : Z) : completion float :=
  match binary_normalize prec emax n 0 false with
  | S754_infinity _ => Raise (OverflowError "int too large to convert to float")
  | f => Return f
  end.

(** [x * n] for a float [x] and an int [n]. *)
Definition mul_int (x : float) (n : Z) : completion float :=
  cbind (of_int n) (fun fn => Return (mul x fn)).

(** Nearest integer to [m * 2^e], ties to the even one. *)
Definition round_half_even_pos (m : positive) (e : Z) : Z :=
  match e with
  | Zneg k =>
      let d := Z.pow_pos 2 k in
      let q := Z.pos m / d in
      let r := Z.pos m mod d in
      match 2 * r ?= d with
      | Lt => q
      | Gt => q + 1
      | Eq => if Z.even q then q else q + 1
      end
  | _ => Z.pos m * 2 ^ e
  end.

(** [round(x)] with one argument: an [int], or an exception for a value
    that is not finite. *)
Definition round (x : float) : completion Z :=
  match x with
  | S754_zero _ => Return 0
  | S754_finite s m e => Return (cond_Zopp s (round_half_even_pos m e))
  | S754_infinity _ => Raise (OverflowError "cannot convert float infinity to integer")
  | S754_nan => Raise (ValueError "cannot convert float NaN to integer")
  end.

(** Python compares a float with an int exactly (no conversion of the int
    to a float): [x > n]. *)
Definition gt_int (x : float) (n : Z) : bool :=
  match x with
  | S754_nan => false
  | S754_infinity s => negb s
  | S754_zero _ => n <? 0
  | S754_finite s m e =>
      match e with
      | Zneg k => n * Z.pow_pos 2 k <? cond_Zopp s (Z.pos m)
      | _ => n <? cond_Zopp s (Z.pos m) * 2 ^ e
      end
  end.

(** [x <= n] for a float [x] and an int [n], exactly. *)
Definition le_int (x : float) (n : Z) : bool :=
  match x with
  | S754_nan => false
  | _ => negb (gt_int x n)
  end.

End PyFloat.

Abbreviation float := spec_float.

(* ===================================================================== *)
(** ** Coordinate resolver ([_resolve_tap_coordinate]) *)
(* ===================================================================== *)

Record coord_input := {
  input_x : float;
  input_y : float;
  input_coord_space : string
}.

Record point := { pt_x : Z; pt_y : Z }.

Record screen := { width : Z; height : Z }.

(** The dictionary [_resolve_tap_coordinate] returns. *)
Record coord_detail := {
  input : coord_input;
  effective_coord_space : string;
  screen_size : screen;
  computed : point;
  tap : point;
  clamped : bool
}.

Definition _resolve_tap_coordinate
    (x y : float) (coord_space : string) (screen_width screen_height : Z)
  : completion coord_detail :=
  if (screen_width <=? 0) || (screen_height <=? 0) then
    Raise (ExecutorError "Invalid screen size. Width/height must be > 0.")
  else
    let effective_space :=
      if String.eqb coord_space "auto" then
        if (PyFloat.leb PyFloat.zero x && PyFloat.leb x PyFloat.one)
           && (PyFloat.leb PyFloat.zero y && PyFloat.leb y PyFloat.one)
        then "ratio"%string else "pixel"%string
      else coord_space in
    cbind
      (if String.eqb effective_space "ratio" then
         cbind (PyFloat.mul_int x (screen_width - 1)) (fun raw_x =>
         cbind (PyFloat.mul_int y (screen_height - 1)) (fun raw_y =>
         Return (raw_x, raw_y)))
       else if String.eqb effective_space "pixel" then
         Return (x, y)
       else
         Raise (ExecutorError ("Unsupported coord_space: " +:+ coord_space)))
      (fun raw =>
    cbind (PyFloat.round (fst raw)) (fun rounded_x =>
    cbind (PyFloat.round (snd raw)) (fun rounded_y =>
    let tap_x := Z.max 0 (Z.min (screen_width - 1) rounded_x) in
    let tap_y := Z.max 0 (Z.min (screen_height - 1) rounded_y) in
    Return {|
      input := {| input_x := x; input_y := y; input_coord_space := coord_space |};
      effective_coord_space := effective_space;
      screen_size := {| width := screen_width; height := screen_height |};
      computed := {| pt_x := rounded_x; pt_y := rounded_y |};
      tap := {| pt_x := tap_x; pt_y := tap_y |};
      clamped := negb (tap_x =? rounded_x) || negb (tap_y =? rounded_y)
    |}))).

(* ===================================================================== *)
(** ** Adapter payloads: JSON-compatible Python values *)
(* ===================================================================== *)

#[warnings="-register-all"]
Inductive pyval : Type :=
| PNone
| PBool (b : bool)
| PInt (n : Z)
| PFloat (f : float)
| PStr (s : string)
| PList (l : list pyval)
| PDict (d : gmap string pyval).

(** [bool(v)] *)
Definition truthy (v : pyval) : bool :=
  match v with
  | PNone => false
  | PBool b => b
  | PInt n => negb (n =? 0)
  | PFloat (S754_zero _) => false
  | PFloat _ => true
  | PStr s => truthy_str s
  | PList l => match l with [] => false | _ => true end
  | PDict d => match map_to_list d with [] => false | _ => true end
  end.

(** [a or b] *)
Definition py_or (a b : pyval) : pyval := if truthy a then a else b.

(** [type(v).__name__] *)
Definition type_name (v : pyval) : string :=
  match v with
  | PNone => "NoneType"
  | PBool _ => "bool"
  | PInt _ => "int"
  | PFloat _ => "float"
  | PStr _ => "str"
  | PList _ => "list"
  | PDict _ => "dict"
  end.

(** [d.get(k)] on a [dict] *)
Definition dict_get (d : gmap string pyval) (k : string) : pyval :=
  default PNone (d !! k).

(** [v == s] for a string literal [s] *)
Definition eq_str (v : pyval) (s : string) : bool :=
  match v with PStr t => String.eqb t s | _ => false end.

(** [_determine_next_action] *)
Definition _determine_next_action (result : pyval) : string :=
  match result with
  | PDict d =>
      let action_type := py_or (dict_get d "action_type") (dict_get d "type") in
      if eq_str action_type "INFO_ACTION_NEEDS_REPLY" then "needs_reply"
      else
        let status := py_or (dict_get d "status") (dict_get d "state") in
        if eq_str status "completed" || eq_str status "done" || eq_str status "success"
        then "complete"
        else "continue"
  | _ => "continue"
  end.

(* ===================================================================== *)
(** ** Sessions and the insertion-ordered dictionary that holds them *)
(* ===================================================================== *)

Record history_entry := {
  step : Z;
  timestamp : float;
  result : pyval
}.

Record Session := {
  session_id : string;
  device_id : string;
  provider : string;
  task : string;
  created_at : float;
  updated_at : float;
  status : string;
  step_count : Z;
  last_result : pyval;
  history : list history_entry
}.

Definition set_status (st : string) (s : Session) : Session :=
  {| session_id := session_id s; device_id := device_id s; provider := provider s;
     task := task s; created_at := created_at s; updated_at := updated_at s;
     status := st; step_count := step_count s; last_result := last_result s;
     history := history s |}.

(** A Python [dict] keyed by strings, in insertion order. *)
Definition odict (V : Type) : Type := list (string * V).

Fixpoint od_get {V} (d : odict V) (k : string) : option V :=
  match d with
  | [] => None
  | (k', v) :: r => if String.eqb k k' then Some v else od_get r k
  end.

(** [d[k] = v]: an existing key keeps its position, a new one goes last. *)
Fixpoint od_set {V} (d : odict V) (k : string) (v : V) : odict V :=
  match d with
  | [] => [(k, v)]
  | (k', v') :: r =>
      if String.eqb k k' then (k, v) :: r else (k', v') :: od_set r k v
  end.

(** [del d[k]] *)
Fixpoint od_del {V} (d : odict V) (k : string) : odict V :=
  match d with
  | [] => []
  | (k', v') :: r => if String.eqb k k' then r else (k', v') :: od_del r k
  end.

(* ===================================================================== *)
(** ** The outside world and the program state *)
(* ===================================================================== *)

(** A tracked [subprocess.Popen] handle. *)
Definition proc : Type := Z.

(** Arguments of [adapter.start_task]. *)
Record start_call := {
  sc_device_id : string;
  sc_task : string;
  sc_max_steps : Z;
  sc_extra_info : option (gmap string pyval)
}.

(** Arguments of [adapter._run_loop] (its [session_id] and
    [reply_from_client] are always [None]). *)
Record run_loop_call := {
  rl_start : start_call;
  rl_reset_environment : bool
}.

(** Arguments of [adapter.continue_task]. *)
Record continue_call := {
  cc_device_id : string;
  cc_session_id : pyval;
  cc_reply : option string;
  cc_task : string;
  cc_max_steps : Z
}.

(** Every interaction with something outside the repository. *)
Inductive event : Type :=
| EvTime
| EvUuid4
| EvListDevices
| EvPoll (p : proc)
| EvTerminate (p : proc) (force : bool)
| EvWait (p : proc) (timeout : float)
| EvSave (sid : string)
| EvUnlink (sid : string)
| EvGetAdapter (provider_name : string)
| EvStartTask (c : start_call)
| EvRunLoop (c : run_loop_call)
| EvContinueTask (c : continue_call)
| EvPostState (sid device task : string).

(** How a call run on its own (in a worker thread or inline) ends: with a
    value or an exception after [elapsed] seconds, or never. *)
Inductive ending : Type :=
| Ends (o : pyval + exn) (elapsed : float)
| Never.

(** What an adapter call does: the [Popen] handles it registered by the
    time its caller looks again, and how it ends. *)
Record behaviour := {
  spawned : list proc;
  how : ending
}.

(** What [_process_result] gathers after the adapter call (collector,
    screenshot file, captioner). *)
Record post_info := {
  post_caption : string;
  post_screenshot_path : option string;
  post_current_app : pyval
}.

(** The collaborators, each answering from the history so far, and
    [threading.TIMEOUT_MAX], the largest timeout of the platform (an
    integral float, here as its integer). *)
Record world := {
  time_time : list event -> float;
  uuid4 : list event -> string;
  adb_devices : list event -> completion (list string);
  poll_running : list event -> proc -> bool;
  get_adapter : list event -> string -> completion bool;
  start_task : list event -> start_call -> behaviour;
  run_loop : list event -> run_loop_call -> behaviour;
  continue_task : list event -> continue_call -> behaviour;
  collect_post : list event -> string -> string -> string -> completion post_info;
  validate_provider : string -> bool * string;
  TIMEOUT_MAX : Z
}.

(** [SkillConfig], the fields the core reads. *)
Record SkillConfig := {
  default_provider : option string;
  tap_only_mode : bool;
  default_device_id : option string;
  default_max_steps : Z;
  default_operation_timeout_sec : option Z;
  expire_seconds : Z
}.

Record state := {
  log : list event;
  tracked : list proc;
  sessions : odict Session;
  files : gmap string Session
}.

Definition with_log (l : list event) (s : state) : state :=
  {| log := l; tracked := tracked s; sessions := sessions s; files := files s |}.
Definition with_tracked (t : list proc) (s : state) : state :=
  {| log := log s; tracked := t; sessions := sessions s; files := files s |}.
Definition with_sessions (d : odict Session) (s : state) : state :=
  {| log := log s; tracked := tracked s; sessions := d; files := files s |}.
Definition with_files (f : gmap string Session) (s : state) : state :=
  {| log := log s; tracked := tracked s; sessions := sessions s; files := f |}.

(** Stateful computations that may raise or never return. *)
Definition M (A : Type) : Type := state -> completion A * state.

Definition ret {A} (a : A) : M A := fun s => (Return a, s).
Definition raise {A} (e : exn) : M A := fun s => (Raise e, s).
Definition bind {A B} (m : M A) (k : A -> M B) : M B :=
  fun s =>
    match m s with
    | (Return a, s') => k a s'
    | (Raise e, s') => (Raise e, s')
    | (Diverge, s') => (Diverge, s')
    end.
Definition lift {A} (c : completion A) : M A := fun s => (c, s).
Definition get_state : M state := fun s => (Return s, s).
Definition modify (f : state -> state) : M unit := fun s => (Return tt, f s).
Definition emit (e : event) : M unit := modify (fun s => with_log (log s ++ [e]) s).

(** [try: m  except <class> as e: h e], the handler taking the exceptions
    that [catches] accepts. *)
Definition try_except {A} (m : M A) (catches : exn -> bool) (h : exn -> M A) : M A :=
  fun s =>
    match m s with
    | (Raise e, s') => if catches e then h e s' else (Raise e, s')
    | r => r
    end.

Notation "'let!' x ':=' m 'in' k" := (bind m (fun x => k))
  (at level 10, x pattern, m at level 100, k at level 200).
Notation "m ';;;' k" := (bind m (fun _ => k))
  (at level 100, k at level 200, right associativity).

Section Core.

Context (w : world) (skill_config : SkillConfig).

(** Ask a collaborator and record the interaction. *)
Definition ask {A} (oracle : list event -> A) (e : event) : M A :=
  fun s => (Return (oracle (log s)), with_log (log s ++ [e]) s).

(** [time.time()] *)
Definition time_now : M float := ask (time_time w) EvTime.

(* --------------------------------------------------------------------- *)
(** *** Subprocess registry *)
(* --------------------------------------------------------------------- *)

(** [_register_subprocess]: [_TRACKED_SUBPROCESSES.add(proc)] *)
Definition _register_subprocess (p : proc) : M unit :=
  modify (fun s =>
    with_tracked (if bool_decide (p ∈ tracked s) then tracked s else tracked s ++ [p]) s).

(** [proc.poll() is None] *)
Definition poll_is_None (p : proc) : M bool :=
  ask (fun l => poll_running w l p) (EvPoll p).

(** The loop of [_collect_live_subprocesses]: [(live, stale)]. *)
Fixpoint partition_live (ps : list proc) : M (list proc * list proc) :=
  match ps with
  | [] => ret ([], [])
  | p :: r =>
      let! running := poll_is_None p in
      let! ls := partition_live r in
      ret (if running : bool then (p :: fst ls, snd ls) else (fst ls, p :: snd ls))
  end.

Definition _collect_live_subprocesses : M (list proc) :=
  let! s := get_state in
  let! ls := partition_live (tracked s) in
  modify (fun s =>
    with_tracked (filter (fun p => negb (bool_decide (p ∈ snd ls))) (tracked s)) s) ;;;
  ret (fst ls).

(** [_terminate_process]: every failure inside is swallowed. *)
Definition _terminate_process (p : proc) (force : bool) : M unit :=
  emit (EvTerminate p force).

Fixpoint terminate_all (ps : list proc) : M unit :=
  match ps with
  | [] => ret tt
  | p :: r => _terminate_process p false ;;; terminate_all r
  end.

(** The waiting loop of the cleanup; it stops at the first handle for which
    no time remains. *)
Fixpoint wait_all (deadline : float) (ps : list proc) : M unit :=
  match ps with
  | [] => ret tt
  | p :: r =>
      let! now := time_now in
      let remaining := PyFloat.sub deadline now in
      if PyFloat.le_int remaining 0 then ret tt
      else emit (EvWait p remaining) ;;; wait_all deadline r
  end.

Fixpoint kill_survivors (ps : list proc) : M unit :=
  match ps with
  | [] => ret tt
  | p :: r =>
      let! running := poll_is_None p in
      (if running : bool then _terminate_process p true else ret tt) ;;;
      kill_survivors r
  end.

(** [max(0.0, grace_sec)] *)
Definition max_zero (grace_sec : float) : float :=
  if PyFloat.ltb PyFloat.zero grace_sec then grace_sec else PyFloat.zero.

Definition cleanup_tracked_subprocesses (grace_sec : float) : M Z :=
  let! live := _collect_live_subprocesses in
  match live with
  | [] => ret 0
  | _ =>
      terminate_all live ;;;
      let! t := time_now in
      let deadline := PyFloat.add t (max_zero grace_sec) in
      wait_all deadline live ;;;
      kill_survivors live ;;;
      _collect_live_subprocesses ;;;
      ret (Z.of_nat (length live))
  end.

(* --------------------------------------------------------------------- *)
(** *** Session manager *)
(* --------------------------------------------------------------------- *)

(** [_save_session]: the file [<session_id>.json] now holds the session. *)
Definition _save_session (session : Session) : M unit :=
  modify (fun s => with_files (<[session_id session := session]> (files s)) s) ;;;
  emit (EvSave (session_id session)).

(** The session object found under [key] takes a new content. *)
Definition store_session (key : string) (session : Session) : M unit :=
  modify (fun s => with_sessions (od_set (sessions s) key session) s).

(** [now - session.updated_at > self.expire_seconds] *)
Definition is_expired (now : float) (session : Session) : bool :=
  PyFloat.gt_int (PyFloat.sub now (updated_at session)) (expire_seconds skill_config).

Definition create_session (dev prov tsk : string) : M Session :=
  let! u := ask (uuid4 w) EvUuid4 in
  let sid := substring 0 8 u in
  let! now := time_now in
  let session :=
    {| session_id := sid; device_id := dev; provider := prov;
       task := tsk; created_at := now; updated_at := now;
       status := "active"; step_count := 0; last_result := PDict ∅;
       history := [] |} in
  store_session sid session ;;;
  _save_session session ;;;
  ret session.

Definition get_session (sid : string) : M (option Session) :=
  let! s := get_state in
  match od_get (sessions s) sid with
  | None => ret None
  | Some session =>
      let! now := time_now in
      if is_expired now session then
        let session' := set_status "expired" session in
        store_session sid session' ;;;
        _save_session session' ;;;
        ret (Some session')
      else ret (Some session)
  end.

(** The assignments of [update_session] to the session object. *)
Definition advance (session : Session) (now : float) (res : pyval)
    (new_status : option string) : Session :=
  let n := step_count session + 1 in
  {| session_id := session_id session;
     device_id := device_id session; provider := provider session;
     task := task session; created_at := created_at session;
     updated_at := now;
     status := if truthy_opt_str new_status
               then default ""%string new_status else status session;
     step_count := n;
     last_result := res;
     history := history session ++ [{| step := n; timestamp := now; result := res |}] |}.

Definition update_session (sid : string) (res : pyval)
    (new_status : option string) : M (option Session) :=
  let! s := get_state in
  match od_get (sessions s) sid with
  | None => ret None
  | Some session =>
      let! now := time_now in
      let session' := advance session now res new_status in
      store_session sid session' ;;;
      _save_session session' ;;;
      ret (Some session')
  end.


(** The loop of [list_active_sessions] over the sessions in order. *)
Fixpoint list_active_from (now : float) (entries : odict Session) : M (list Session) :=
  match entries with
  | [] => ret []
  | (key, session) :: r =>
      if String.eqb (status session) "active" then
        if is_expired now session then
          let session' := set_status "expired" session in
          store_session key session' ;;;
          _save_session session' ;;;
          list_active_from now r
        else
          let! rest := list_active_from now r in
          ret (session :: rest)
      else list_active_from now r
  end.

Definition list_active_sessions : M (list Session) :=
  let! now := time_now in
  let! s := get_state in
  list_active_from now (sessions s).

(** [max(active, key=lambda s: s.updated_at)] with [best] the maximum so far:
    a later element replaces it only when its key is greater. *)
Fixpoint max_by_updated_at (best : Session) (l : list Session) : Session :=
  match l with
  | [] => best
  | x :: r =>
      max_by_updated_at
        (if PyFloat.ltb (updated_at best) (updated_at x) then x else best) r
  end.

Definition get_latest_session (dev : option string) : M (option Session) :=
  let! active := list_active_sessions in
  let active :=
    if truthy_opt_str dev
    then filter (fun s => String.eqb (device_id s) (default ""%string dev)) active
    else active in
  match active with
  | [] => ret None
  | x :: r => ret (Some (max_by_updated_at x r))
  end.

(** [session_file.unlink()] when the file exists *)
Definition unlink_session_file (sid : string) : M unit :=
  let! s := get_state in
  match files s !! sid with
  | Some _ =>
      modify (fun s => with_files (delete sid (files s)) s) ;;;
      emit (EvUnlink sid)
  | None => ret tt
  end.

Fixpoint remove_sessions (ids : list string) : M unit :=
  match ids with
  | [] => ret tt
  | sid :: r =>
      unlink_session_file sid ;;;
      modify (fun s => with_sessions (od_del (sessions s) sid) s) ;;;
      remove_sessions r
  end.

Definition cleanup_expired : M Z :=
  let! now := time_now in
  let! s := get_state in
  let expired_ids :=
    map fst (filter (fun kv => is_expired now (snd kv)) (sessions s)) in
  remove_sessions expired_ids ;;;
  ret (Z.of_nat (length expired_ids)).

Definition delete_session (sid : string) : M bool :=
  let! s := get_state in
  match od_get (sessions s) sid with
  | None => ret false
  | Some _ =>
      unlink_session_file sid ;;;
      modify (fun s => with_sessions (od_del (sessions s) sid) s) ;;;
      ret true
  end.

(* --------------------------------------------------------------------- *)
(** *** Device selector *)
(* --------------------------------------------------------------------- *)

Definition _NO_DEVICE_HINT : string :=
  "No ADB devices found. Connect a phone/emulator, enable USB debugging, "
  +:+ "and approve the device authorization prompt. You can run `adb devices` to verify.".

(** [list_devices]: the adb check and the collector are outside the
    repository; either may raise. *)
Definition list_devices : M (list string) :=
  fun s => (adb_devices w (log s), with_log (log s ++ [EvListDevices]) s).

Definition not_connected_message (device_id : string) (devices : list string) : string :=
  "Device `" +:+ device_id
  +:+ "` is not connected or not authorized. Available devices: "
  +:+ String.concat ", " devices +:+ ". "
  +:+ "Ensure USB debugging is enabled and debugging authorization is approved on the device.".

Definition multiple_devices_message (devices : list string) : string :=
  "Multiple devices found: " +:+ String.concat ", " devices
  +:+ ". Use --device-id to choose one.".

Definition _ensure_device_connected (dev : string) : M unit :=
  let! devices := list_devices in
  match devices with
  | [] => raise (ExecutorError _NO_DEVICE_HINT)
  | _ =>
      if bool_decide (dev ∈ devices) then ret tt
      else raise (ExecutorError (not_connected_message dev devices))
  end.

(** [_select_device]; an empty id is falsy and counts as no id. *)
Definition _select_device (dev : option string) : M string :=
  if truthy_opt_str dev then
    let d := default ""%string dev in
    _ensure_device_connected d ;;; ret d
  else if truthy_opt_str (default_device_id skill_config) then
    let default_device := default ""%string (default_device_id skill_config) in
    _ensure_device_connected default_device ;;; ret default_device
  else
    let! devices := list_devices in
    match devices with
    | [] => raise (ExecutorError _NO_DEVICE_HINT)
    | [d0] => ret d0
    | _ => raise (ExecutorError (multiple_devices_message devices))
    end.

(* --------------------------------------------------------------------- *)
(** *** Task prompts *)
(* --------------------------------------------------------------------- *)

Definition newline : string := String (Ascii.ascii_of_nat 10) EmptyString.

(** Texts are the UTF-8 encoding of the Python [str]; a text of the bytes
    with the given codes. *)
Fixpoint string_of_codes (codes : list nat) : string :=
  match codes with
  | [] => EmptyString
  | n :: r => String (Ascii.ascii_of_nat n) (string_of_codes r)
  end.

(** The white space [str.strip] removes, each character in UTF-8:
    U+0009..U+000D, U+001C..U+0020, U+0085, U+00A0, U+1680, U+2000..U+200A,
    U+2028, U+2029, U+202F, U+205F and U+3000. *)
Definition whitespace : list string :=
  map string_of_codes
    [ [9]; [10]; [11]; [12]; [13]; [28]; [29]; [30]; [31]; [32];
      [194; 133]; [194; 160];
      [225; 154; 128];
      [226; 128; 128]; [226; 128; 129]; [226; 128; 130]; [226; 128; 131];
      [226; 128; 132]; [226; 128; 133]; [226; 128; 134]; [226; 128; 135];
      [226; 128; 136]; [226; 128; 137]; [226; 128; 138];
      [226; 128; 168]; [226; 128; 169]; [226; 128; 175];
      [226; 129; 159];
      [227; 128; 128] ]%nat.

(** [s] is one white-space character. *)
Definition is_space (s : string) : bool := existsb (String.eqb s) whitespace.

(** [s.lstrip()]: a white-space character takes one, two or three bytes. *)
Fixpoint lstrip (s : string) : string :=
  match s with
  | String c1 r1 =>
      if is_space (String c1 EmptyString) then lstrip r1
      else
        match r1 with
        | String c2 r2 =>
            if is_space (String c1 (String c2 EmptyString)) then lstrip r2
            else
              match r2 with
              | String c3 r3 =>
                  if is_space (String c1 (String c2 (String c3 EmptyString)))
                  then lstrip r3 else s
              | EmptyString => s
              end
        | EmptyString => s
        end
  | EmptyString => EmptyString
  end.

(** [s.rstrip()]: what is left of [s] begins a white-space character only
    when nothing else is left. *)
Fixpoint rstrip (s : string) : string :=
  match s with
  | String c r =>
      let r' := rstrip r in
      if is_space (String c r') then EmptyString else String c r'
  | EmptyString => EmptyString
  end.

(** [s.strip()] *)
Definition strip (s : string) : string := rstrip (lstrip s).

(** [needle in hay] *)
Definition contains (needle hay : string) : bool :=
  match String.index 0 needle hay with Some _ => true | None => false end.

Definition _COMPLETE_AND_STOP_GUARD : string :=
  "Strict rule: after completing the goal, output COMPLETE immediately and stop."
  +:+ newline
  +:+ "After completing the goal, output COMPLETE immediately and stop; do not continue exploring.".

Definition _TAP_ONLY_HINT : string :=
  "Tap-only mode is enabled. `execute`/`continue` are disabled because no model provider is configured. "
  +:+ "Use `tap`/`click` for coordinate control, or run `python install.py --provider <name>` to enable planner mode.".

Definition _ensure_complete_and_stop_guard (tsk : string) : string :=
  let normalized := strip tsk in
  if negb (truthy_str normalized) then _COMPLETE_AND_STOP_GUARD
  else if contains "output COMPLETE immediately and stop" normalized then normalized
  else normalized +:+ newline +:+ newline +:+ _COMPLETE_AND_STOP_GUARD.

Definition _build_stateless_task (tsk : string) : string :=
  let prefix :=
    "Execution mode: stateless minimal task." +:+ newline
    +:+ "Requirement: continue from the current screen; do not press Home; do not reset app/environment."
    +:+ newline
    +:+ "Only perform the minimum actions needed for this request." in
  let guarded_task := _ensure_complete_and_stop_guard tsk in
  prefix +:+ newline +:+ "User task: " +:+ guarded_task.

(** [d.setdefault(k, v)] *)
Definition setdefault (k : string) (v : pyval) (d : gmap string pyval)
  : gmap string pyval :=
  match d !! k with Some _ => d | None => <[k := v]> d end.

(** [dict(extra_info or {})] *)
Definition dict_or_empty (extra_info : option (gmap string pyval)) : gmap string pyval :=
  default ∅ extra_info.

Definition _build_stateless_extra_info (extra_info : option (gmap string pyval))
  : gmap string pyval :=
  setdefault "reflush_app" (PBool false)
    (setdefault "reset_environment" (PBool false)
      (setdefault "minimal_actions" (PBool true)
        (setdefault "preserve_current_app_state" (PBool true)
          (setdefault "new_conversation" (PBool true)
            (setdefault "execution_mode" (PStr "stateless")
              (dict_or_empty extra_info)))))).

(* --------------------------------------------------------------------- *)
(** *** Adapter calls and the timeout executor *)
(* --------------------------------------------------------------------- *)

(** A Python callable handed to [_run_with_timeout]: running it changes the
    state (interactions, registered handles) and ends somehow. *)
Definition job : Type := state -> ending * state.

Fixpoint register_all (ps : list proc) (s : state) : state :=
  match ps with
  | [] => s
  | p :: r => register_all r (snd (_register_subprocess p s))
  end.

(** One call of an adapter method. *)
Definition call_adapter {C} (oracle : list event -> C -> behaviour)
    (ev : C -> event) (c : C) : job :=
  fun s =>
    let b := oracle (log s) c in
    (how b, register_all (spawned b) (with_log (log s ++ [ev c]) s)).

(** [try: return first  except TypeError: pass] followed by [second]. *)
Definition or_on_TypeError (first second : job) : job :=
  fun s =>
    match first s with
    | (Ends (inr (TypeError _)) t1, s') =>
        match second s' with
        | (Ends o t2, s'') => (Ends o (PyFloat.add t1 t2), s'')
        | (Never, s'') => (Never, s'')
        end
    | r => r
    end.

(** [_start_adapter_task]; [has_run_loop] tells whether the adapter has a
    callable [_run_loop]. *)
Definition _start_adapter_task (has_run_loop : bool) (dev tsk : string)
    (max_steps : Z) (extra_info : option (gmap string pyval))
    (reset_environment : option bool) : job :=
  match reset_environment with
  | None =>
      call_adapter (start_task w) EvStartTask
        {| sc_device_id := dev; sc_task := tsk; sc_max_steps := max_steps;
           sc_extra_info := extra_info |}
  | Some re =>
      let merged_extra_info :=
        setdefault "reflush_app" (PBool re)
          (setdefault "reset_environment" (PBool re) (dict_or_empty extra_info)) in
      let fallback :=
        call_adapter (start_task w) EvStartTask
          {| sc_device_id := dev; sc_task := tsk; sc_max_steps := max_steps;
             sc_extra_info := Some merged_extra_info |} in
      if has_run_loop then
        or_on_TypeError
          (call_adapter (run_loop w) EvRunLoop
             {| rl_start := {| sc_device_id := dev; sc_task := tsk;
                               sc_max_steps := max_steps;
                               sc_extra_info := extra_info |};
                rl_reset_environment := re |})
          fallback
      else fallback
  end.

(** What the caller finds after [worker.start(); worker.join(timeout_sec)]. *)
Record worker := {
  is_alive : bool;
  result_holder : option pyval;
  error_holder : option exn
}.

(** [worker.join(timeout_sec)] for a timeout the platform admits: [_target]
    has run to its end only when the call ended within the deadline; an
    outcome that comes later reaches no holder the caller still reads. *)
Definition joined (e : ending) (timeout_sec : Z) : worker :=
  match e with
  | Ends o elapsed =>
      if PyFloat.le_int elapsed timeout_sec then
        match o with
        | inl v => {| is_alive := false; result_holder := Some v; error_holder := None |}
        | inr x => {| is_alive := false; result_holder := None; error_holder := Some x |}
        end
      else {| is_alive := true; result_holder := None; error_holder := None |}
  | Never => {| is_alive := true; result_holder := None; error_holder := None |}
  end.

Definition grace_default : float := PyFloat.one_and_half.

(** The worker is started before the join; [worker.join] refuses a timeout
    beyond [threading.TIMEOUT_MAX] with OverflowError (in the words of
    CPython 3.11) and leaves the worker running. *)
Definition _run_with_timeout (func : job) (timeout_sec : option Z)
    (operation_name : string) : M pyval :=
  match timeout_sec with
  | None =>
      fun s =>
        match func s with
        | (Ends (inl v) _, s') => (Return v, s')
        | (Ends (inr x) _, s') => (Raise x, s')
        | (Never, s') => (Diverge, s')
        end
  | Some t =>
      if t <=? 0 then raise (ExecutorError "timeout_sec must be greater than 0.")
      else
        let! e := (fun s => (Return (fst (func s)), snd (func s))) in
        if TIMEOUT_MAX w <? t then
          raise (OverflowError "timestamp too large to convert to C _PyTime_t")
        else
          let worker := joined e t in
          if is_alive worker then
            let! cleaned := cleanup_tracked_subprocesses grace_default in
            raise (OperationTimeoutError
                     (operation_name +:+ " timed out after " +:+ str_int t +:+ " seconds.")
                     cleaned)
          else
            match error_holder worker with
            | Some x => raise x
            | None =>
                match result_holder worker with
                | None =>
                    raise (ExecutorError
                             (operation_name +:+ " failed without returning a result."))
                | Some v => ret v
                end
            end
  end.

(* --------------------------------------------------------------------- *)
(** *** Result normalizer and the task entry points *)
(* --------------------------------------------------------------------- *)

Definition opt_str (o : option string) : pyval :=
  match o with Some x => PStr x | None => PNone end.

Definition opt_int (o : option Z) : pyval :=
  match o with Some n => PInt n | None => PNone end.

(** [max_steps or fallback] *)
Definition int_or (o : option Z) (fallback : Z) : Z :=
  match o with
  | Some n => if n =? 0 then fallback else n
  | None => fallback
  end.

(** [a or b] on [str | None] *)
Definition str_or (a b : option string) : option string :=
  if truthy_opt_str a then a else b.

Definition _tap_only_error_result (command : string) : odict pyval :=
  [ ("success", PBool false);
    ("error", PStr "tap_only_mode_enabled");
    ("message", PStr ("`" +:+ command +:+ "` is unavailable in tap-only mode. "
                      +:+ _TAP_ONLY_HINT));
    ("session_mode", PStr "direct_coordinate_only");
    ("session_persisted", PBool false);
    ("continuation_supported", PBool false);
    ("allowed_commands", PList [PStr "tap"; PStr "click"; PStr "status"; PStr "devices"]) ]%string.

Definition _generate_message (next_action caption : string)
    (continuation_supported : bool) : string :=
  let message :=
    if String.eqb next_action "complete" then "Task completed. " +:+ caption
    else if String.eqb next_action "needs_reply"
    then "User reply required. Current state: " +:+ caption
    else "Task in progress. Current state: " +:+ caption in
  if negb continuation_supported && negb (String.eqb next_action "complete")
  then message
       +:+ " Stateless mode is active; run execute --stateless for the next independent call."
  else message.

(** The state collection, screenshot file and caption of [_process_result]. *)
Definition observe_post (sid dev tsk : string) : M post_info :=
  fun s => (collect_post w (log s) sid dev tsk,
            with_log (log s ++ [EvPostState sid dev tsk]) s).

Definition _process_result (sid prov dev : string) (res : pyval) (tsk : string)
    (persist_session : bool) : M (odict pyval) :=
  let! post := observe_post sid dev tsk in
  let next_action := _determine_next_action res in
  let! steps :=
    (if persist_session then
       let new_status :=
         if String.eqb next_action "complete" then "completed"%string
         else "active"%string in
       let! updated_session := update_session sid res (Some new_status) in
       ret (match updated_session with Some u => step_count u | None => 1 end)
     else ret 1) in
  ret [ ("success", PBool true);
        ("session_id", PStr sid);
        ("task", PStr tsk);
        ("provider", PStr prov);
        ("device_id", PStr dev);
        ("step_count", PInt steps);
        ("caption", PStr (post_caption post));
        ("screenshot_path", opt_str (post_screenshot_path post));
        ("next_action", PStr next_action);
        ("current_app", post_current_app post);
        ("message", PStr (_generate_message next_action (post_caption post) persist_session));
        ("session_mode", PStr (if persist_session then "stateful" else "stateless"));
        ("session_persisted", PBool persist_session);
        ("continuation_supported", PBool persist_session);
        ("timed_out", PBool false);
        ("raw_result", res) ]%string.

(** [self._get_registry(provider)] and [registry.get(provider)]: the answer
    tells whether the adapter has a callable [_run_loop]. *)
Definition lookup_adapter (prov : string) : M bool :=
  fun s => (get_adapter w (log s) prov, with_log (log s ++ [EvGetAdapter prov]) s).

(** The dictionary both entry points build in [except Exception as e]. *)
Definition error_result (sid : pyval) (prefix : string) (e : exn)
    (timeout_sec : option Z) : odict pyval :=
  let r :=
    [ ("success", PBool false);
      ("session_id", sid);
      ("error", PStr (str_exn e));
      ("message", PStr (prefix +:+ str_exn e));
      ("timed_out", PBool (is_TimeoutError e)) ]%string in
  let r :=
    match e with
    | OperationTimeoutError _ n => od_set r "terminated_subprocesses" (PInt n)
    | _ => r
    end in
  match timeout_sec with
  | Some t => od_set r "timeout_sec" (PInt t)
  | None => r
  end.

(** The body of the [try] of [execute_task]: get the adapter, start the
    task under the timeout. *)
Definition start_under_timeout (prov dev task_to_run : string) (max_steps : Z)
    (adapter_extra_info : option (gmap string pyval)) (stateless : bool)
    (timeout_sec : option Z) : M pyval :=
  let! has_run_loop := lookup_adapter prov in
  _run_with_timeout
    (_start_adapter_task has_run_loop dev task_to_run max_steps
       adapter_extra_info (if stateless then Some false else None))
    timeout_sec "execute".

(** The body of the [try] of [continue_session]. *)
Definition continue_under_timeout (session : Session) (reply : option string)
    (task_or_session_task : string) (max_steps : Z) (timeout_sec : option Z)
  : M pyval :=
  _ensure_device_connected (device_id session) ;;;
  let! has_run_loop := lookup_adapter (provider session) in
  let continue_task_text := _ensure_complete_and_stop_guard task_or_session_task in
  let! adapter_session_id :=
    match last_result session with
    | PDict d => ret (dict_get d "session_id")
    | v => raise (AttributeError ("'" +:+ type_name v
                                  +:+ "' object has no attribute 'get'"))
    end in
  _run_with_timeout
    (call_adapter (continue_task w) EvContinueTask
       {| cc_device_id := device_id session;
          cc_session_id := py_or adapter_session_id (PStr (session_id session));
          cc_reply := reply;
          cc_task := continue_task_text;
          cc_max_steps := max_steps |})
    timeout_sec "continue".

(** [provider or default_provider], then [str(provider or "").strip()] *)
Definition effective_provider (prov : option string) : string :=
  strip (default ""%string
           (str_or (str_or prov (default_provider skill_config)) (Some ""%string))).

(** [timeout_sec if timeout_sec is not None else default_operation_timeout_sec] *)
Definition effective_timeout (timeout_sec : option Z) : option Z :=
  match timeout_sec with
  | Some t => Some t
  | None => default_operation_timeout_sec skill_config
  end.

Definition effective_max_steps (stateless : bool) (max_steps : option Z) : Z :=
  if stateless then int_or max_steps (Z.min (default_max_steps skill_config) 4)
  else int_or max_steps (default_max_steps skill_config).

(** The handler of [except Exception as e] in [execute_task]. *)
Definition execute_failure (sid : string) (stateless : bool)
    (timeout_sec : option Z) (e : exn) : odict pyval :=
  let r := error_result (PStr sid) "Task execution failed: " e timeout_sec in
  if stateless then
    od_set (od_set (od_set r "session_mode" (PStr "stateless"))
              "session_persisted" (PBool false))
      "continuation_supported" (PBool false)
  else r.

(** The last stage of [execute_task]: the adapter step in its [try], then
    the normalisation of its result. *)
Definition run_prepared (sid prov dev tsk task_to_run : string) (max_steps : Z)
    (adapter_extra_info : option (gmap string pyval)) (stateless : bool)
    (timeout_sec : option Z) : M (odict pyval) :=
  let! ran :=
    try_except
      (let! res :=
         start_under_timeout prov dev task_to_run max_steps
           adapter_extra_info stateless timeout_sec in
       ret (inl res))
      is_Exception
      (fun e => ret (inr (execute_failure sid stateless timeout_sec e))) in
  match ran with
  | inr failure => ret failure
  | inl res => _process_result sid prov dev res tsk (negb stateless)
  end.

Definition execute_task (tsk : string) (prov dev : option string)
    (max_steps timeout_sec : option Z) (extra_info : option (gmap string pyval))
    (stateless : bool) : M (odict pyval) :=
  if tap_only_mode skill_config then ret (_tap_only_error_result "execute")
  else
    let prov := effective_provider prov in
    let timeout_sec := effective_timeout timeout_sec in
    if negb (truthy_str prov) then
      ret [ ("success", PBool false);
            ("error", PStr "No provider configured");
            ("message", PStr ("No provider configured for execute. Set --provider or configure default_provider. "
                              +:+ "If you only need coordinate control, use `tap`/`click`.")) ]%string
    else
      let max_steps := effective_max_steps stateless max_steps in
      if max_steps <=? 0 then
        ret [ ("success", PBool false);
              ("error", PStr "Invalid max_steps: must be > 0");
              ("message", PStr "Invalid max_steps: must be > 0") ]%string
      else
        let (valid, msg) := validate_provider w prov in
        if negb valid then
          ret [ ("success", PBool false);
                ("error", PStr msg);
                ("message", PStr ("Provider validation failed: " +:+ msg)) ]%string
        else
          let! selected :=
            try_except (let! d := _select_device dev in ret (inl d))
              is_ExecutorError
              (fun e => ret (inr [ ("success", PBool false);
                                   ("error", PStr (str_exn e));
                                   ("message", PStr (str_exn e)) ]%string)) in
          match selected with
          | inr failure => ret failure
          | inl dev =>
              let! prepared :=
                (if stateless then
                   let! u := ask (uuid4 w) EvUuid4 in
                   ret (substring 0 8 u, _build_stateless_task tsk,
                        Some (_build_stateless_extra_info extra_info))
                 else
                   let! session := create_session dev prov tsk in
                   ret (session_id session, _ensure_complete_and_stop_guard tsk,
                        extra_info)) in
              let '(sid, task_to_run, adapter_extra_info) := prepared in
              run_prepared sid prov dev tsk task_to_run max_steps
                adapter_extra_info stateless timeout_sec
          end.

(** The structured rejection of [continue_session] for a session whose
    status is [st]. *)
Definition not_active_rejection (st : string) : odict pyval :=
  [ ("success", PBool false);
    ("error", PStr ("Session is " +:+ st));
    ("message", PStr ("Cannot continue session: status is " +:+ st +:+ ".")) ]%string.

(** First stage of [continue_session]: the latest active session when no id
    is given, the named session otherwise; or the failure to return. *)
Definition find_session (sid dev : option string) : M (Session + odict pyval) :=
  match sid with
  | None =>
      let! latest := get_latest_session dev in
      match latest with
      | None =>
          ret (inr [ ("success", PBool false);
                     ("error", PStr "No active session found");
                     ("message", PStr "No active session to continue. Start a new task first.") ]%string)
      | Some session => ret (inl session)
      end
  | Some id =>
      let! got := get_session id in
      match got with
      | None =>
          ret (inr [ ("success", PBool false);
                     ("error", PStr ("Session not found: " +:+ id));
                     ("message", PStr ("Session " +:+ id +:+ " not found or expired.")) ]%string)
      | Some session => ret (inl session)
      end
  end.

(** Last stage of [continue_session], for a session that passed the
    status check. *)
Definition continue_active (session : Session) (reply tsk : option string)
    (max_steps timeout_sec : option Z) : M (odict pyval) :=
  let max_steps := int_or max_steps (default_max_steps skill_config) in
  if max_steps <=? 0 then
    ret [ ("success", PBool false);
          ("session_id", PStr (session_id session));
          ("error", PStr "Invalid max_steps: must be > 0");
          ("message", PStr "Invalid max_steps: must be > 0") ]%string
  else
    let timeout_sec := effective_timeout timeout_sec in
    let task_or_session_task :=
      default ""%string (str_or tsk (Some (task session))) in
    let! ran :=
      try_except
        (let! res :=
           continue_under_timeout session reply task_or_session_task
             max_steps timeout_sec in
         ret (inl res))
        is_Exception
        (fun e =>
           ret (inr (error_result (PStr (session_id session))
                       "Continue task failed: " e timeout_sec))) in
    match ran with
    | inr failure => ret failure
    | inl res =>
        _process_result (session_id session) (provider session)
          (device_id session) res task_or_session_task true
    end.

Definition continue_session (sid reply tsk dev : option string)
    (max_steps timeout_sec : option Z) : M (odict pyval) :=
  if tap_only_mode skill_config then ret (_tap_only_error_result "continue")
  else
    let! found := find_session sid dev in
    match found with
    | inr failure => ret failure
    | inl session =>
        if negb (String.eqb (status session) "active") then
          ret (not_active_rejection (status session))
        else continue_active session reply tsk max_steps timeout_sec
    end.

(** [list_sessions] *)
Definition list_sessions : M (list (odict pyval)) :=
  let! active := list_active_sessions in
  ret (map (fun s =>
              [ ("session_id", PStr (session_id s));
                ("device_id", PStr (device_id s));
                ("provider", PStr (provider s));
                ("task", PStr (task s));
                ("status", PStr (status s));
                ("step_count", PInt (step_count s));
                ("created_at", PFloat (created_at s));
                ("updated_at", PFloat (updated_at s)) ]%string) active).

End Core.

(* ===================================================================== *)
(** ** Specification-side notions used by the statements *)
(* ===================================================================== *)

(** The three ways device selection fails, told apart by their message. *)
Inductive device_error : Type :=
| NoDevices
| NotConnected (id : string) (available : list string)
| Ambiguous (candidates : list string).

Definition device_error_exn (e : device_error) : exn :=
  ExecutorError
    match e with
    | NoDevices => _NO_DEVICE_HINT
    | NotConnected id available => not_connected_message id available
    | Ambiguous candidates => multiple_devices_message candidates
    end.

Definition render_selection (r : string + device_error) : completion string :=
  match r with
  | inl d => Return d
  | inr e => Raise (device_error_exn e)
  end.

(** An id that is [None] or empty is not given. *)
Definition given (o : option string) : option string :=
  if truthy_opt_str o then o else None.

(** Selection in the words of the specification: a given id is returned
    when connected and is a "not connected" failure otherwise. *)
Definition select_as_specified (explicit configured : option string)
    (connected : list string) : string + device_error :=
  let check id :=
    if bool_decide (id ∈ connected) then inl id
    else inr (NotConnected id connected) in
  match explicit, configured with
  | Some id, _ => check id
  | None, Some id => check id
  | None, None =>
      match connected with
      | [] => inr NoDevices
      | [d] => inl d
      | _ => inr (Ambiguous connected)
      end
  end.

(** The same with the connectivity check the code performs: an empty
    device list is a "no devices" failure also for a given id. *)
Definition select_by_precedence (explicit configured : option string)
    (connected : list string) : string + device_error :=
  let check id :=
    match connected with
    | [] => inr NoDevices
    | _ => if bool_decide (id ∈ connected) then inl id
           else inr (NotConnected id connected)
    end in
  match explicit, configured with
  | Some id, _ => check id
  | None, Some id => check id
  | None, None =>
      match connected with
      | [] => inr NoDevices
      | [d] => inl d
      | _ => inr (Ambiguous connected)
      end
  end.

(** The payload's action-type field: [action_type], or [type] when that is
    missing or falsy; nothing for a payload that is not a mapping. *)
Definition action_type_field (payload : pyval) : pyval :=
  match payload with
  | PDict d => py_or (dict_get d "action_type") (dict_get d "type")
  | _ => PNone
  end.

(** The payload's status field: [status], or [state] when that is missing
    or falsy. *)
Definition status_field (payload : pyval) : pyval :=
  match payload with
  | PDict d => py_or (dict_get d "status") (dict_get d "state")
  | _ => PNone
  end.

Definition needs_reply_signal : pyval := PStr "INFO_ACTION_NEEDS_REPLY".

Definition completed_statuses : list pyval :=
  [PStr "completed"; PStr "done"; PStr "success"].

(* ===================================================================== *)
(** ** Concrete worlds and states for the examples *)
(* ===================================================================== *)

(** An adapter call that returns [v] at once and spawns nothing. *)
Definition prompt_return (v : pyval) : behaviour :=
  {| spawned := []; how := Ends (inl v) PyFloat.zero |}.

(** A world with a given clock, device list and adapter behaviour. *)
Definition demo_world (clock : list event -> float) (devices : list string)
    (adapter : behaviour) : world :=
  {| time_time := clock;
     uuid4 := fun _ => "0f8fad5b-d9cb-469f-a165-70867728950e"%string;
     adb_devices := fun _ => Return devices;
     poll_running := fun _ _ => true;
     get_adapter := fun _ _ => Return false;
     start_task := fun _ _ => adapter;
     run_loop := fun _ _ => adapter;
     continue_task := fun _ _ => adapter;
     collect_post := fun _ _ _ _ =>
       Return {| post_caption := "current_app=unknown";
                 post_screenshot_path := None;
                 post_current_app := PNone |};
     validate_provider := fun _ => (true, "OK"%string);
     TIMEOUT_MAX := 9223372036 |}.

Definition demo_config : SkillConfig :=
  {| default_provider := Some "local"%string;
     tap_only_mode := false;
     default_device_id := None;
     default_max_steps := 20;
     default_operation_timeout_sec := None;
     expire_seconds := 3600 |}.

Definition empty_state : state :=
  {| log := []; tracked := []; sessions := []; files := ∅ |}.

(** 1000.0, 5000.0 *)
Definition t1000 : float := S754_finite false 8796093022208000 (-43).
Definition t5000 : float := S754_finite false 5497558138880000 (-40).

Definition clock_1000 : list event -> float := fun _ => t1000.
Definition clock_5000 : list event -> float := fun _ => t5000.

(** The result of the tap at (1.5, 0.5) in ratio space on a 1080x2400 screen. *)
Definition demo_detail : coord_detail :=
  {| input := {| input_x := PyFloat.one_and_half; input_y := PyFloat.half;
                 input_coord_space := "ratio" |};
     effective_coord_space := "ratio";
     screen_size := {| width := 1080; height := 2400 |};
     computed := {| pt_x := 1618; pt_y := 1200 |};
     tap := {| pt_x := 1079; pt_y := 1200 |};
     clamped := true |}.


(** The state [update_session] leaves after writing [new] under [sid]. *)
Definition updated_state (sid : string) (new : Session) (s : state) : state :=
  let s1 := with_log (log s ++ [EvTime]) s in
  let s2 := with_sessions (od_set (sessions s1) sid new) s1 in
  let s3 := with_files (<[session_id new := new]> (files s2)) s2 in
  with_log (log s3 ++ [EvSave (session_id new)]) s3.

(** What [get_session] hands back for the session [x] found at time [now]:
    [x] itself, or [x] flipped to expired when its age exceeds the limit. *)
Definition as_read (cfg : SkillConfig) (now : float) (x : Session) : Session :=
  if is_expired cfg now x then set_status "expired" x else x.

(** The state [get_session] leaves after finding [x] under [sid]. *)
Definition read_state (cfg : SkillConfig) (now : float) (sid : string)
    (x : Session) (s : state) : state :=
  if is_expired cfg now x then updated_state sid (set_status "expired" x) s
  else with_log (log s ++ [EvTime]) s.




(** The text of the timeout error. *)
Definition timed_out_message (operation_name : string) (timeout_sec : Z) : string :=
  operation_name +:+ " timed out after " +:+ str_int timeout_sec +:+ " seconds.".

(** A job that spawns the handles [ps] and ends as [e] says. *)
Definition spawning_job (ps : list proc) (e : ending) : job :=
  fun s => (e, register_all ps s).


(** A computation that returns (does not raise, does not run forever). *)
Definition returns {A} (m : M A) (s : state) : Prop :=
  exists a s', m s = (Return a, s').

(** [s'] differs from [s] at most by further interactions and registered
    handles: the session store and its files are the same. *)
Definition store_kept (s s' : state) : Prop :=
  sessions s' = sessions s /\ files s' = files s
  /\ exists rest, log s' = log s ++ rest.

Definition keeps_store {A} (m : M A) : Prop :=
  forall s c s', m s = (c, s') -> store_kept s s'.

Definition job_keeps_store (j : job) : Prop :=
  forall s, store_kept s (snd (j s)).

(** A store as Python keeps it: one entry per key, each session under its
    own id. *)
Definition store_wf (s : state) : Prop :=
  NoDup (map fst (sessions s))
  /\ Forall (fun kv => session_id (snd kv) = fst kv) (sessions s).


(** An adapter call that spawns [ps] and never ends. *)
Definition hanging (ps : list proc) : behaviour :=
  {| spawned := ps; how := Never |}.


(** The session the demo world creates for the task "open settings" on
    device "emulator-5554". *)
Definition demo_session : Session :=
  {| session_id := "0f8fad5b"; device_id := "emulator-5554"; provider := "local";
     task := "open settings"; created_at := t1000; updated_at := t1000;
     status := "active"; step_count := 0; last_result := PDict ∅; history := [] |}.

(** 0.9, 900.0, 1900.0 *)
Definition point_nine : float := S754_finite false 8106479329266893 (-53).
Definition f900 : float := S754_finite false 7916483719987200 (-43).
Definition f1900 : float := S754_finite false 8356288371097600 (-42).

(** A world whose adapter spawns two processes and hangs. *)
Definition hanging_world : world :=
  demo_world clock_1000 ["emulator-5554"%string] (hanging [4101; 4102]).




(** How one operation of the executor may change the status of a stored
    session: not at all, from active to completed, or to expired (the lazy
    expiry looks at the age only, not at the status). *)
Definition status_step (old new : string) : Prop :=
  new = old
  \/ (old = "active"%string /\ new = "completed"%string)
  \/ new = "expired"%string.

(** The transitions the specification lists for a stored session. *)
Definition status_step_as_specified (old new : string) : Prop :=
  new = old
  \/ (old = "active"%string /\ new = "completed"%string)
  \/ (old = "active"%string /\ new = "expired"%string).

(** What [list_active_sessions] leaves of a session at time [now]. *)
Definition swept (cfg : SkillConfig) (now : float) (x : Session) : Session :=
  if String.eqb (status x) "active" && is_expired cfg now x
  then set_status "expired" x else x.

(** The id the uuid source yields for the session an [execute_task] call
    started in state [s] creates. *)
Definition created_id (w : world) (s : state) : string :=
  substring 0 8 (uuid4 w (log s ++ [EvListDevices])).

(** [demo_session] after its task completed at time 1000. *)
Definition demo_completed_session : Session := set_status "completed" demo_session.

Definition demo_completed_state : state :=
  {| log := [];
     tracked := [];
     sessions := [("0f8fad5b"%string, demo_completed_session)];
     files := {[ "0f8fad5b"%string := demo_completed_session ]} |}.

(** The status stored under [k], or the empty string. *)
Definition status_of (s : state) (k : string) : string :=
  match od_get (sessions s) k with Some x => status x | None => ""%string end.

(* ===================================================================== *)
(** ** Reference notions for coordinate resolution *)
(* ===================================================================== *)

(** Whether a float is a number (neither an infinity nor NaN). *)
Definition is_finite (x : float) : bool :=
  match x with
  | S754_zero _ | S754_finite _ _ _ => true
  | _ => false
  end.

(** The value of a finite float as a fraction [(n, d)] with [d > 0]. *)
Definition fraction (x : float) : Z * Z :=
  match x with
  | S754_finite s m (Zneg k) => (cond_Zopp s (Z.pos m), Z.pow_pos 2 k)
  | S754_finite s m e => (cond_Zopp s (Z.pos m) * 2 ^ e, 1)
  | _ => (0, 1)
  end.

(** [x] lies in the interval [0, 1]. *)
Definition in_unit_interval (x : float) : Prop :=
  is_finite x = true /\ 0 <= fst (fraction x) <= snd (fraction x).

(** [r] is an integer nearest to [x]: [|x - r| <= 1/2]. *)
Definition nearest_integer (x : float) (r : Z) : Prop :=
  is_finite x = true
  /\ Z.abs (2 * fst (fraction x) - 2 * r * snd (fraction x)) <= snd (fraction x).

(** [v] clamped into [[lo, hi]]. *)
Definition clamp (lo hi v : Z) : Z :=
  if v <? lo then lo else if hi <? v then hi else v.

(** [x * n] in floating-point arithmetic, an [n] beyond the floats
    converting to an infinity. *)
Definition product (x : float) (n : Z) : float :=
  PyFloat.mul x (binary_normalize PyFloat.prec PyFloat.emax n 0 false).

(** The space [auto] stands for: ratio exactly when both coordinates lie in
    [0, 1], pixel otherwise; any other space stands for itself. *)
Definition effective_space_spec (x y : float) (space eff : string) : Prop :=
  if String.eqb space "auto" then
    (in_unit_interval x /\ in_unit_interval y -> eff = "ratio"%string)
    /\ (~ (in_unit_interval x /\ in_unit_interval y) -> eff = "pixel"%string)
  else eff = space.

(** The raw point of a supported space; nothing for an unsupported one. *)
Definition raw_point_spec (eff : string) (x y : float) (w h : Z)
  : option (float * float) :=
  if String.eqb eff "ratio" then Some (product x (w - 1), product y (h - 1))
  else if String.eqb eff "pixel" then Some (x, y)
  else None.

(** The record of a successful resolution: the raw point rounded to
    nearest integers, then clamped, with the flag telling whether clamping
    altered it. *)
Definition resolved (x y : float) (space eff : string) (w h : Z)
    (raw : float * float) (d : coord_detail) : Prop :=
  input d = {| input_x := x; input_y := y; input_coord_space := space |}
  /\ effective_coord_space d = eff
  /\ screen_size d = {| width := w; height := h |}
  /\ nearest_integer (fst raw) (pt_x (computed d))
  /\ nearest_integer (snd raw) (pt_y (computed d))
  /\ pt_x (tap d) = clamp 0 (w - 1) (pt_x (computed d))
  /\ pt_y (tap d) = clamp 0 (h - 1) (pt_y (computed d))
  /\ (clamped d = true <-> tap d <> computed d).

(** The reference definition in the words of the specification: the only
    failures are a screen size that is not positive and an unsupported
    space, both invalid-argument errors. *)
Definition resolves_as_specified (x y : float) (space : string) (w h : Z)
    (out : completion coord_detail) : Prop :=
  if (w <=? 0) || (h <=? 0) then exists msg, out = Raise (ExecutorError msg)
  else
    exists eff,
      effective_space_spec x y space eff
      /\ match raw_point_spec eff x y w h with
         | None => exists msg, out = Raise (ExecutorError msg)
         | Some raw => exists d, out = Return d /\ resolved x y space eff w h raw d
         end.

(** The same with the failure the code adds: a raw point that is not a pair
    of numbers cannot be rounded, and the resolution fails with an
    arithmetic error (not an invalid-argument one). *)
Definition resolves_as_amended (x y : float) (space : string) (w h : Z)
    (out : completion coord_detail) : Prop :=
  if (w <=? 0) || (h <=? 0) then exists msg, out = Raise (ExecutorError msg)
  else
    exists eff,
      effective_space_spec x y space eff
      /\ match raw_point_spec eff x y w h with
         | None => exists msg, out = Raise (ExecutorError msg)
         | Some raw =>
             if is_finite (fst raw) && is_finite (snd raw) then
               exists d, out = Return d /\ resolved x y space eff w h raw d
             else
               exists e, out = Raise e /\ is_ExecutorError e = false
         end.

(** A float as Python has them: a canonical binary64 value. *)
Definition valid_float (x : float) : Prop :=
  valid_binary PyFloat.prec PyFloat.emax x = true.

(** 1e308 *)
Definition x1e308 : float := S754_finite false 5010420900022432 971.

(** The clamping example of the specification on a [w] x [h] screen: the
    tap at [x = 1.5], [y = 0.5] in ratio space is clamped onto the last
    column. *)
Definition overshoot_clamped (w h : Z) : Prop :=
  exists d,
    _resolve_tap_coordinate PyFloat.one_and_half PyFloat.half "ratio" w h = Return d
    /\ clamped d = true
    /\ pt_x (tap d) = w - 1.

(** A mantissa of exactly 53 bits. *)
Definition full_mantissa (a : positive) : Prop := 2 ^ 52 <= Z.pos a < 2 ^ 53.

(* ===================================================================== *)
(** ** Screen size from a PNG screenshot ([_extract_png_size]) *)
(* ===================================================================== *)

(** [bytes] values. *)
Definition bytes : Type := list Byte.byte.

(** [a == b] on [bytes] *)
Fixpoint bytes_eqb (a b : bytes) : bool :=
  match a, b with
  | [], [] => true
  | x :: a', y :: b' => Byte.eqb x y && bytes_eqb a' b'
  | _, _ => false
  end.

(** [l[i:j]] for [0 <= i <= j] *)
Definition slice {A} (i j : nat) (l : list A) : list A := firstn (j - i) (skipn i l).

(** [int.from_bytes(bs, "big")] *)
Definition int_from_bytes_big (bs : bytes) : Z :=
  fold_left (fun acc b => acc * 256 + Z.of_N (Byte.to_N b)) bs 0.

(** [b"\x89PNG\r\n\x1a\n"] and [b"IHDR"] *)
Definition png_signature : bytes :=
  [Byte.x89; Byte.x50; Byte.x4e; Byte.x47; Byte.x0d; Byte.x0a; Byte.x1a; Byte.x0a].
Definition ihdr_tag : bytes := [Byte.x49; Byte.x48; Byte.x44; Byte.x52].

Section PngSize.

(** [base64.b64decode], [None] when it raises. *)
Context (b64decode : string -> option bytes).

Definition _extract_png_size (screenshot_b64 : option string) : option (Z * Z) :=
  if negb (truthy_opt_str screenshot_b64) then None
  else
    match b64decode (default ""%string screenshot_b64) with
    | None => None
    | Some image_bytes =>
        if (length image_bytes <? 24)%nat then None
        else if negb (bytes_eqb (slice 0 8 image_bytes) png_signature) then None
        else if negb (bytes_eqb (slice 12 16 image_bytes) ihdr_tag) then None
        else
          let width := int_from_bytes_big (slice 16 20 image_bytes) in
          let height := int_from_bytes_big (slice 20 24 image_bytes) in
          if (width <=? 0) || (height <=? 0) then None
          else Some (width, height)
    end.

End PngSize.

(** [n.to_bytes(4, "big")] for [0 <= n < 2^32]. *)
Definition be32 (n : Z) : bytes :=
  map (fun i => default Byte.x00 (Byte.of_N (Z.to_N (n / 256 ^ i mod 256)))) [3; 2; 1; 0].

(** The first 24 bytes of a PNG file whose image is [w] by [h]: signature,
    length of the header chunk, its tag, width, height. *)
Definition png_head (chunk_length : bytes) (w h : Z) : bytes :=
  png_signature ++ chunk_length ++ ihdr_tag ++ be32 w ++ be32 h.

(* ===================================================================== *)
(** ** Provider table and its validation ([core/model_providers.py]) *)
(* ===================================================================== *)

Module ModelProviders.

(** One entry of [PROVIDERS]; a key the entry does not have is [None]. *)
Record provider_entry := {
  adapter : string;
  model_provider : option string;
  model_name : string;
  description : string;
  requires_api_key : bool;
  api_key_env : option string;
  api_base : string
}.

Definition PROVIDERS : odict provider_entry :=
  [ ("local",
     {| adapter := "gelab_local";
        model_provider := Some "local";
        model_name := "gelab-zero-4b-preview";
        description := "Local GELab-Zero model served by Ollama";
        requires_api_key := false;
        api_key_env := None;
        api_base := "http://localhost:11434/v1" |});
    ("stepfun",
     {| adapter := "gelab_local";
        model_provider := Some "stepfun";
        model_name := "step-1v-8k";
        description := "StepFun Step-1V vision model";
        requires_api_key := true;
        api_key_env := Some "STEPFUN_API_KEY";
        api_base := "https://api.stepfun.com/v1" |});
    ("zhipu",
     {| adapter := "open_autoglm";
        model_provider := None;
        model_name := "glm-4.5v";
        description := "Zhipu AI GLM-4.5V vision model";
        requires_api_key := true;
        api_key_env := Some "ZHIPUAI_API_KEY";
        api_base := "https://open.bigmodel.cn/api/paas/v4/" |});
    ("qwen",
     {| adapter := "http";
        model_provider := None;
        model_name := "qwen-vl-max";
        description := "Alibaba Tongyi Qwen-VL vision model";
        requires_api_key := true;
        api_key_env := Some "DASHSCOPE_API_KEY";
        api_base := "https://dashscope.aliyuncs.com/compatible-mode/v1" |}) ]%string.

(** [skill_config]: [None] for no configuration object, else the value of
    its [providers] attribute, which [load_skill_config] takes from the YAML
    file as it stands: a mapping, or any other value ([None] for a key left
    empty), here a [pyval].  Of a mapping only the [str] keys matter here.
    [os.environ]. *)
Definition providers_config : Type := option pyval.
Definition environment : Type := gmap string string.

(** [v.get(k, default)]: only a [dict] has the method. *)
Definition py_get (v : pyval) (k : string) (dflt : pyval) : completion pyval :=
  match v with
  | PDict d => Return (default dflt (d !! k))
  | _ => Raise (AttributeError ("'" +:+ type_name v +:+ "' object has no attribute 'get'"))
  end.

(** [x in v] for a [str] [x]: a key of a [dict], an element of a [list], a
    substring of a [str]; nothing else is a container. *)
Definition py_in (x : string) (v : pyval) : completion bool :=
  match v with
  | PDict d => Return (bool_decide (is_Some (d !! x)))
  | PList l => Return (existsb (fun e => eq_str e x) l)
  | PStr s => Return (contains x s)
  | _ => Raise (TypeError ("argument of type '" +:+ type_name v +:+ "' is not iterable"))
  end.

(** The NUL character. *)
Definition nul : string := String Ascii.zero EmptyString.

(** [os.environ[k] = v] for a key of [PROVIDERS]: a value with a NUL
    character is refused, and nothing is set. *)
Definition setenv (k v : string) (environ : environment) : completion unit * environment :=
  if contains nul v then (Raise (ValueError "embedded null byte"), environ)
  else (Return tt, <[k := v]> environ).

Section Str.

(** [str(v)] of a float, a list or a dict is the interpreter's. *)
Context (repr : pyval -> string).

(** [str(v)] *)
Definition py_str (v : pyval) : string :=
  match v with
  | PStr s => s
  | PInt n => str_int n
  | PBool true => "True"
  | PBool false => "False"
  | PNone => "None"
  | _ => repr v
  end.

Definition _get_configured_api_key (provider_name : string)
    (skill_config : providers_config) : completion string :=
  match skill_config with
  | None => Return ""%string
  | Some v =>
      let providers := py_or v (PDict ∅) in
      cbind (py_get providers provider_name (PDict ∅)) (fun got =>
      let provider_cfg := py_or got (PDict ∅) in
      cbind (py_get provider_cfg "api_key" (PStr "")) (fun api_key =>
      Return (if truthy api_key then strip (py_str api_key) else ""%string)))
  end.

(** [config.get("api_key_env", "")] for the entry of [name], the empty
    string for a name the table does not have. *)
Definition api_key_env_of (name : string) : string :=
  match od_get PROVIDERS name with
  | Some provider_cfg => default ""%string (api_key_env provider_cfg)
  | None => ""
  end.

(** One round of the loop of [seed_provider_env_from_config]. *)
Definition seed_one (skill_config : providers_config) (name : string)
    (environ : environment) : completion unit * environment :=
  let api_key_env := api_key_env_of name in
  if negb (truthy_str api_key_env) then (Return tt, environ)
  else if truthy_opt_str (environ !! api_key_env) then (Return tt, environ)
  else
    match _get_configured_api_key name skill_config with
    | Return api_key =>
        if truthy_str api_key then setenv api_key_env api_key environ
        else (Return tt, environ)
    | Raise e => (Raise e, environ)
    | Diverge => (Diverge, environ)
    end.

(** The loop over [targets]: an exception ends it, with the variables set
    so far. *)
Fixpoint seed_targets (skill_config : providers_config) (targets : list string)
    (environ : environment) : completion unit * environment :=
  match targets with
  | [] => (Return tt, environ)
  | name :: rest =>
      match seed_one skill_config name environ with
      | (Return _, environ') => seed_targets skill_config rest environ'
      | stopped => stopped
      end
  end.

Definition seed_provider_env_from_config (skill_config : providers_config)
    (provider_name : option string) (environ : environment)
    : completion unit * environment :=
  match skill_config with
  | None => (Return tt, environ)
  | Some _ =>
      let targets :=
        if truthy_opt_str provider_name then [default ""%string provider_name]
        else map fst PROVIDERS in
      seed_targets skill_config targets environ
  end.

Definition validate_provider (provider_name : string) (skill_config : providers_config)
    (environ : environment) : completion (bool * string) :=
  match od_get PROVIDERS provider_name with
  | None =>
      let providers := default (PDict ∅) skill_config in
      cbind (py_in provider_name providers) (fun found =>
      Return (if found then (true, "OK"%string)
              else (false, "Unknown provider: " +:+ provider_name)))
  | Some config =>
      if requires_api_key config then
        let api_key_env := default ""%string (api_key_env config) in
        let env_api_key :=
          if truthy_str api_key_env
          then strip (default ""%string (environ !! api_key_env)) else ""%string in
        cbind (_get_configured_api_key provider_name skill_config) (fun cfg_api_key =>
        Return (if truthy_str api_key_env && negb (truthy_str env_api_key)
                   && negb (truthy_str cfg_api_key)
                then (false,
                      "Missing API key: set " +:+ api_key_env +:+ " env var "
                      +:+ "or configure providers." +:+ provider_name
                      +:+ ".api_key in config")
                else (true, "OK"%string)))
      else Return (true, "OK"%string)
  end.

End Str.

(** [get_adapter_type] *)
Definition get_adapter_type (provider_name : string) : option string :=
  match od_get PROVIDERS provider_name with
  | Some config => Some (adapter config)
  | None => None
  end.

End ModelProviders.

(* ===================================================================== *)
(** ** Notions used by the further properties *)
(* ===================================================================== *)

(** Memory and disk agree: the file of an id holds exactly the session the
    table holds under that id, and there is no file without an entry. *)
Definition coherent (s : state) : Prop :=
  forall k, files s !! k = od_get (sessions s) k.

(** The session store as a run of the manager leaves it. *)
Definition consistent (s : state) : Prop := store_wf s /\ coherent s.

(** The state [delete_session] leaves for a stored id. *)
Definition deleted_state (sid : string) (s : state) : state :=
  let s1 :=
    match files s !! sid with
    | Some _ => with_log (log s ++ [EvUnlink sid]) (with_files (delete sid (files s)) s)
    | None => s
    end in
  with_sessions (od_del (sessions s1) sid) s1.

(** A session that [list_active_sessions] returns at time [now]: active and
    not older than the expiry. *)
Definition is_live (cfg : SkillConfig) (now : float) (x : Session) : bool :=
  String.eqb (status x) "active" && negb (is_expired cfg now x).

(** The device filter of [get_latest_session]; an id that is [None] or
    empty filters nothing. *)
Definition on_device (dev : option string) (x : Session) : bool :=
  if truthy_opt_str dev then String.eqb (device_id x) (default ""%string dev) else true.

(** The sessions [get_latest_session] chooses from, in store order. *)
Definition candidates (cfg : SkillConfig) (now : float) (dev : option string)
    (entries : odict Session) : list Session :=
  List.filter (on_device dev) (List.filter (is_live cfg now) (map snd entries)).

(** A computation that leaves a consistent store consistent, however it ends. *)
Definition keeps_consistent {A} (m : M A) : Prop :=
  forall s c s', m s = (c, s') -> consistent s -> consistent s'.

(** The signals among some events: [(p, force)] for each terminate request,
    in order. *)
Definition signals (l : list event) : list (proc * bool) :=
  flat_map (fun e => match e with EvTerminate p force => [(p, force)] | _ => [] end) l.

(** [s'] comes from [s] by the interactions [rest], with the same registry. *)
Definition extends_log (s s' : state) (rest : list event) : Prop :=
  log s' = log s ++ rest /\ tracked s' = tracked s
  /\ sessions s' = sessions s /\ files s' = files s.

(** [s] begins with a white-space character. *)
Definition space_led (s : string) : bool :=
  match s with
  | String c1 r1 =>
      is_space (String c1 EmptyString)
      || match r1 with
         | String c2 r2 =>
             is_space (String c1 (String c2 EmptyString))
             || match r2 with
                | String c3 _ => is_space (String c1 (String c2 (String c3 EmptyString)))
                | EmptyString => false
                end
         | EmptyString => false
         end
  | EmptyString => false
  end.

(** The last character of the guard text. *)
Definition full_stop : string := String (Ascii.ascii_of_nat 46) EmptyString.

(** Closes a goal whose hypothesis [H] finds among [whitespace] a text that
    is none of its entries. *)
Ltac no_space H :=
  cbv [whitespace map string_of_codes] in H;
  simpl In in H;
  repeat (destruct H as [H|H]; [try discriminate H|]); try contradiction.

(** What the seeding of the environment may do to it: a variable is left as
    it was, or it held nothing and now holds the key configured for the
    provider it belongs to, which is not empty. *)
Definition seeded_from (repr : pyval -> string)
    (skill_config : ModelProviders.providers_config)
    (environ seeded : ModelProviders.environment) : Prop :=
  forall k,
    seeded !! k = environ !! k
    \/ (truthy_opt_str (environ !! k) = false
        /\ exists name key,
             ModelProviders.api_key_env_of name = k
             /\ ModelProviders._get_configured_api_key repr name skill_config = Return key
             /\ key <> ""%string
             /\ seeded !! k = Some key).

(** The values [in] accepts on its right. *)
Definition is_container (v : pyval) : bool :=
  match v with PDict _ | PList _ | PStr _ => true | _ => false end.

(** The phrase [_ensure_complete_and_stop_guard] looks for. *)
Definition stop_phrase : string := "output COMPLETE immediately and stop".

(** The hints [_build_stateless_extra_info] supplies for keys the caller
    left out. *)
Definition stateless_defaults : gmap string pyval :=
  {[ "execution_mode"%string := PStr "stateless";
     "new_conversation"%string := PBool true;
     "preserve_current_app_state"%string := PBool true;
     "minimal_actions"%string := PBool true;
     "reset_environment"%string := PBool false;
     "reflush_app"%string := PBool false ]}.

(** What [_run_with_timeout] hands on of a job that ended in time. *)
Definition outcome (o : pyval + exn) : completion pyval :=
  match o with inl v => Return v | inr x => Raise x end.

(** A store holding the active session of the demo world. *)
Definition demo_active_state : state :=
  {| log := [];
     tracked := [];
     sessions := [("0f8fad5b"%string, demo_session)];
     files := {[ "0f8fad5b"%string := demo_session ]} |}.

(** A registry with two tracked processes. *)
Definition demo_tracked_state : state := with_tracked [4101; 4102] empty_state.

(** The world of the examples: a clock at 1000, one device, an adapter that
    returns at once. *)
Definition quiet_world : world :=
  demo_world clock_1000 ["emulator-5554"%string] (prompt_return PNone).

(** U+00A0, the no-break space. *)
Definition no_break_space : string := string_of_codes [194; 160]%nat.

(** The first 24 bytes of a 1080 x 2400 PNG file, in base64, and a decoder
    that knows this one text. *)
Definition demo_png_b64 : string := "iVBORw0KGgoAAAANSUhEUgAABDgAAAlg".

Definition demo_b64decode (s : string) : option bytes :=
  if String.eqb s demo_png_b64
  then Some (png_head [Byte.x00; Byte.x00; Byte.x00; Byte.x0d] 1080 2400)
  else None.

(* ===================================================================== *)
(** * Verified properties *)
(* ===================================================================== *)

(* ===================================================================== *)
(** ** Coordinate resolution: bounds of the tap point *)
(* ===================================================================== *)

Lemma cbind_Return {A B} (c : completion A) (k : A -> completion B) (b : B) :
  cbind c k = Return b -> exists a, c = Return a /\ k a = Return b.
Proof. destruct c; simpl; intros H; try discriminate. eauto. Qed.

(** Whatever the floating-point part did, a returned record holds the two
    rounded integers and their clamped versions. *)
Lemma resolve_Return_inv x y space w h d :
  _resolve_tap_coordinate x y space w h = Return d ->
  0 < w /\ 0 < h /\
  exists rx ry,
    computed d = {| pt_x := rx; pt_y := ry |} /\
    tap d = {| pt_x := Z.max 0 (Z.min (w - 1) rx); pt_y := Z.max 0 (Z.min (h - 1) ry) |} /\
    clamped d = negb (Z.max 0 (Z.min (w - 1) rx) =? rx)
                || negb (Z.max 0 (Z.min (h - 1) ry) =? ry).
Proof.
  unfold _resolve_tap_coordinate.
  destruct ((w <=? 0) || (h <=? 0)) eqn:Hdim; [discriminate|].
  apply orb_false_elim in Hdim as [Hw Hh].
  apply Z.leb_gt in Hw, Hh.
  intros H.
  apply cbind_Return in H as (raw & _ & H).
  apply cbind_Return in H as (rx & _ & H).
  apply cbind_Return in H as (ry & _ & H).
  injection H as <-. simpl. eauto 10.
Qed.

(** C2. For a screen of positive width and height, a resolution that
    succeeds returns a tap point inside [0, width-1] x [0, height-1], and
    its [clamped] flag is true exactly when the rounded point computed
    before clamping differs from the tap point. *)
Theorem resolve_tap_in_bounds (x y : float) (space : string) (w h : Z) (d : coord_detail) :
  0 < w -> 0 < h ->
  _resolve_tap_coordinate x y space w h = Return d ->
  (0 <= pt_x (tap d) <= w - 1 /\ 0 <= pt_y (tap d) <= h - 1)
  /\ (clamped d = true <-> computed d <> tap d).
Proof.
  intros Hw Hh H.
  apply resolve_Return_inv in H as (_ & _ & rx & ry & Hc & Ht & Hb).
  rewrite Hc, Ht, Hb. simpl. split; [lia|].
  rewrite orb_true_iff, !negb_true_iff, !Z.eqb_neq.
  split.
  - intros Hne Heq. injection Heq as E1 E2. lia.
  - intros Hne.
    destruct (Z.eq_dec (Z.max 0 (Z.min (w - 1) rx)) rx) as [E1|N1]; [|now left].
    destruct (Z.eq_dec (Z.max 0 (Z.min (h - 1) ry)) ry) as [E2|N2]; [|now right].
    exfalso. apply Hne. now rewrite E1, E2.
Qed.

Lemma resolve_tap_in_bounds_witness :
  (0 <= pt_x (tap demo_detail) <= 1080 - 1 /\ 0 <= pt_y (tap demo_detail) <= 2400 - 1)
  /\ (clamped demo_detail = true <-> computed demo_detail <> tap demo_detail).
Proof.
  apply (resolve_tap_in_bounds PyFloat.one_and_half PyFloat.half "ratio" 1080 2400 demo_detail);
    [lia | lia | reflexivity].
Defined.

(* ===================================================================== *)
(** ** Device selection *)
(* ===================================================================== *)

Lemma truthy_str_nonempty s : truthy_str s = true <-> s <> ""%string.
Proof.
  unfold truthy_str. rewrite negb_true_iff. split.
  - intros H ->. discriminate.
  - intros H. destruct s; [congruence | reflexivity].
Qed.

Lemma given_Some o id : given o = Some id -> o = Some id /\ truthy_str id = true.
Proof.
  unfold given. destruct o as [s|]; simpl; [|discriminate].
  destruct (truthy_str s) eqn:E; [|discriminate]. intros [= ->]. auto.
Qed.

Lemma given_None o : given o = None -> truthy_opt_str o = false.
Proof.
  unfold given. destruct (truthy_opt_str o) eqn:E; [|reflexivity].
  destruct o; [discriminate | discriminate].
Qed.

Section DeviceSelection.

Context (w : world) (cfg : SkillConfig).

Lemma list_devices_answer s devices :
  adb_devices w (log s) = Return devices ->
  list_devices w s = (Return devices, with_log (log s ++ [EvListDevices]) s).
Proof. intros H. unfold list_devices. now rewrite H. Qed.

(** The connectivity check, by cases on the connected devices. *)
Lemma ensure_device_connected_cases dev s devices :
  adb_devices w (log s) = Return devices ->
  fst (_ensure_device_connected w dev s) =
    match devices with
    | [] => Raise (ExecutorError _NO_DEVICE_HINT)
    | _ => if bool_decide (dev ∈ devices) then Return tt
           else Raise (ExecutorError (not_connected_message dev devices))
    end.
Proof.
  intros H. unfold _ensure_device_connected, bind.
  rewrite (list_devices_answer _ _ H).
  destruct devices as [|d0 r]; [reflexivity|].
  destruct (bool_decide (dev ∈ d0 :: r)); reflexivity.
Qed.

Lemma checked_selection dev s devices :
  adb_devices w (log s) = Return devices ->
  fst ((_ensure_device_connected w dev ;;; ret dev) s) =
    render_selection
      match devices with
      | [] => inr NoDevices
      | _ => if bool_decide (dev ∈ devices) then inl dev
             else inr (NotConnected dev devices)
      end.
Proof.
  intros H. pose proof (ensure_device_connected_cases dev s devices H) as E.
  unfold bind. destruct (_ensure_device_connected w dev s) as [[[]|e|] s']; simpl in *.
  - destruct devices as [|d0 r]; [discriminate|].
    destruct (bool_decide (dev ∈ d0 :: r)); [reflexivity | discriminate].
  - destruct devices as [|d0 r]; [now injection E as ->|].
    destruct (bool_decide (dev ∈ d0 :: r)); [discriminate | now injection E as ->].
  - destruct devices as [|d0 r]; [discriminate|].
    destruct (bool_decide (dev ∈ d0 :: r)); discriminate.
Qed.

(** C4 (amended). Selection follows the fixed precedence explicit id, then
    configured default, then the sole connected device.  A given id (explicit
    or default, an empty one counting as absent) is returned when it is
    connected; with no device connected the call fails with the "no devices"
    error, and otherwise with the "not connected" error that lists the
    connected devices.  With no id at all the call fails with "no devices" on
    an empty list, with the ambiguity error listing every candidate when more
    than one device is connected, and returns the sole device otherwise. *)
Theorem select_device_precedence (explicit : option string) (s : state)
    (devices : list string) :
  adb_devices w (log s) = Return devices ->
  fst (_select_device w cfg explicit s) =
    render_selection
      (select_by_precedence (given explicit) (given (default_device_id cfg)) devices).
Proof.
  intros H. unfold _select_device, select_by_precedence.
  destruct (given explicit) as [id|] eqn:Ge.
  - apply given_Some in Ge as [-> Hid]. simpl. rewrite Hid. simpl.
    now apply checked_selection.
  - rewrite (given_None _ Ge).
    destruct (given (default_device_id cfg)) as [id|] eqn:Gd.
    + apply given_Some in Gd as [-> Hid]. simpl. rewrite Hid. simpl.
      now apply checked_selection.
    + rewrite (given_None _ Gd). unfold bind.
      rewrite (list_devices_answer _ _ H).
      destruct devices as [|d0 [|d1 r]]; reflexivity.
Qed.

End DeviceSelection.

Lemma select_device_precedence_witness :
  fst (_select_device (demo_world clock_1000 ["emulator-5554"; "R58M"]%string (prompt_return PNone))
         demo_config (Some "R58M"%string) empty_state)
  = Return "R58M"%string.
Proof.
  apply (select_device_precedence
           (demo_world clock_1000 ["emulator-5554"; "R58M"]%string (prompt_return PNone))
           demo_config (Some "R58M"%string) empty_state
           ["emulator-5554"; "R58M"]%string).
  reflexivity.
Defined.

(** C4 as stated fails: with an explicit id and no device connected the
    code reports the "no devices" error, not the "not connected" one. *)
Lemma select_device_no_devices_not_as_specified :
  fst (_select_device (demo_world clock_1000 [] (prompt_return PNone))
         demo_config (Some "emulator-5554"%string) empty_state)
  <> render_selection (select_as_specified (Some "emulator-5554"%string) None []).
Proof. vm_compute. discriminate. Qed.

(* ===================================================================== *)
(** ** Next action derived from an adapter payload *)
(* ===================================================================== *)

Lemma eq_str_true v s : eq_str v s = true <-> v = PStr s.
Proof.
  destruct v; simpl; split; try discriminate; try congruence.
  - intros H. apply String.eqb_eq in H. now subst.
  - intros [= ->]. apply String.eqb_refl.
Qed.

Lemma eq_str_false v s : eq_str v s = false <-> v <> PStr s.
Proof.
  rewrite <- eq_str_true. destruct (eq_str v s); split; congruence.
Qed.

Lemma in_completed_statuses v :
  In v completed_statuses <->
  eq_str v "completed" || eq_str v "done" || eq_str v "success" = true.
Proof.
  unfold completed_statuses. simpl.
  rewrite !orb_true_iff, !eq_str_true. intuition congruence.
Qed.

(** C7. The next action derived from an adapter payload is [needs_reply]
    when the payload's action-type field signals that a reply is needed,
    [complete] when (it does not and) its status field is exactly one of
    completed, done, success, and [continue] in every other case, a payload
    that is not a mapping included. *)
Theorem determine_next_action_rules (payload : pyval) :
  (action_type_field payload = needs_reply_signal ->
     _determine_next_action payload = "needs_reply"%string)
  /\ (action_type_field payload <> needs_reply_signal ->
      In (status_field payload) completed_statuses ->
        _determine_next_action payload = "complete"%string)
  /\ (action_type_field payload <> needs_reply_signal ->
      ~ In (status_field payload) completed_statuses ->
        _determine_next_action payload = "continue"%string)
  /\ ((forall d, payload <> PDict d) ->
        _determine_next_action payload = "continue"%string).
Proof.
  unfold needs_reply_signal.
  assert (Hother : forall v, action_type_field v = PNone -> status_field v = PNone ->
            _determine_next_action v = "continue"%string ->
            (action_type_field v = PStr "INFO_ACTION_NEEDS_REPLY" ->
               _determine_next_action v = "needs_reply"%string)
            /\ (action_type_field v <> PStr "INFO_ACTION_NEEDS_REPLY" ->
                In (status_field v) completed_statuses ->
                _determine_next_action v = "complete"%string)
            /\ (action_type_field v <> PStr "INFO_ACTION_NEEDS_REPLY" ->
                ~ In (status_field v) completed_statuses ->
                _determine_next_action v = "continue"%string)
            /\ ((forall d, v <> PDict d) ->
                _determine_next_action v = "continue"%string)).
  { intros v Ha Hs Hc. rewrite Ha, Hs. repeat split; auto.
    - discriminate.
    - intros _ Hin. apply in_completed_statuses in Hin. discriminate Hin. }
  destruct payload as [ | b | n | f | t | l | d ]; try (apply Hother; reflexivity).
  clear Hother. unfold action_type_field, status_field, _determine_next_action.
  set (a := py_or (dict_get d "action_type") (dict_get d "type")).
  set (st := py_or (dict_get d "status") (dict_get d "state")).
  repeat split.
  - intros H. apply eq_str_true in H. now rewrite H.
  - intros Ha Hs. apply eq_str_false in Ha. rewrite Ha.
    apply in_completed_statuses in Hs. now rewrite Hs.
  - intros Ha Hs. apply eq_str_false in Ha. rewrite Ha.
    rewrite in_completed_statuses in Hs.
    now destruct (eq_str st "completed" || eq_str st "done" || eq_str st "success").
  - intros H. now destruct (H d).
Qed.

(* ===================================================================== *)
(** ** The insertion-ordered dictionary *)
(* ===================================================================== *)

Lemma od_get_set_eq {V} (d : odict V) k v : od_get (od_set d k v) k = Some v.
Proof.
  induction d as [|[k' v'] r IH]; simpl.
  - now rewrite String.eqb_refl.
  - destruct (String.eqb k k') eqn:E; simpl.
    + now rewrite String.eqb_refl.
    + now rewrite E.
Qed.

Lemma od_get_set_ne {V} (d : odict V) k j v :
  k <> j -> od_get (od_set d k v) j = od_get d j.
Proof.
  intros Hne. induction d as [|[k' v'] r IH]; simpl.
  - destruct (String.eqb j k) eqn:E; [|reflexivity].
    apply String.eqb_eq in E. congruence.
  - destruct (String.eqb k k') eqn:E; simpl.
    + apply String.eqb_eq in E. subst k'.
      destruct (String.eqb j k) eqn:E'; [|reflexivity].
      apply String.eqb_eq in E'. congruence.
    + now rewrite IH.
Qed.

Lemma od_get_set {V} (d : odict V) k j v :
  od_get (od_set d k v) j = if String.eqb j k then Some v else od_get d j.
Proof.
  destruct (String.eqb j k) eqn:E.
  - apply String.eqb_eq in E. subst. apply od_get_set_eq.
  - apply String.eqb_neq in E. apply od_get_set_ne. congruence.
Qed.

(* ===================================================================== *)
(** ** Session store: create and update *)
(* ===================================================================== *)

Section SessionStore.

Context (w : world) (cfg : SkillConfig).


Lemma update_session_found sid res st s old :
  od_get (sessions s) sid = Some old ->
  update_session w sid res st s =
    (Return (Some (advance old (time_time w (log s)) res st)),
     updated_state sid (advance old (time_time w (log s)) res st) s).
Proof.
  intros H. unfold update_session, bind, get_state. rewrite H. reflexivity.
Qed.

Lemma updated_state_sessions sid new s :
  od_get (sessions (updated_state sid new s)) sid = Some new.
Proof. unfold updated_state. simpl. apply od_get_set_eq. Qed.


Lemma create_session_result dev prov tsk s :
  exists session s',
    create_session w dev prov tsk s = (Return session, s')
    /\ session =
         {| session_id := substring 0 8 (uuid4 w (log s));
            device_id := dev; provider := prov; task := tsk;
            created_at := time_time w (log s ++ [EvUuid4]);
            updated_at := time_time w (log s ++ [EvUuid4]);
            status := "active"; step_count := 0; last_result := PDict ∅;
            history := [] |}
    /\ od_get (sessions s') (session_id session) = Some session
    /\ files s' !! session_id session = Some session
    /\ (forall j, j <> session_id session -> od_get (sessions s') j = od_get (sessions s) j)
    /\ tracked s' = tracked s
    /\ log s' = log s ++ [EvUuid4; EvTime; EvSave (session_id session)].
Proof.
  eexists _, _. split.
  { unfold create_session, bind, ask, time_now, store_session, _save_session,
      modify, emit, ret. simpl. reflexivity. }
  simpl.
  split; [reflexivity|]. split; [apply od_get_set_eq|].
  split; [apply lookup_insert_eq|]. split.
  - intros j Hj. apply od_get_set_ne. congruence.
  - split; [reflexivity|]. now rewrite <- !app_assoc.
Qed.


End SessionStore.

(* ===================================================================== *)
(** ** Reading a session and the active-only check of the continue path *)
(* ===================================================================== *)

Section ContinuePath.

Context (w : world) (cfg : SkillConfig).

Lemma get_session_unknown sid s :
  od_get (sessions s) sid = None ->
  get_session w cfg sid s = (Return None, s).
Proof.
  intros H. unfold get_session, bind, get_state. now rewrite H.
Qed.

Lemma get_session_found sid s x :
  od_get (sessions s) sid = Some x ->
  get_session w cfg sid s =
    (Return (Some (as_read cfg (time_time w (log s)) x)),
     read_state cfg (time_time w (log s)) sid x s).
Proof.
  intros H. unfold get_session, bind, get_state, as_read, read_state.
  rewrite H. unfold time_now, ask.
  destruct (is_expired cfg (time_time w (log s)) x); reflexivity.
Qed.

Lemma as_read_status now x :
  status (as_read cfg now x) = status x \/ status (as_read cfg now x) = "expired"%string.
Proof. unfold as_read. destruct (is_expired cfg now x); auto. Qed.

Lemma as_read_fields now x :
  session_id (as_read cfg now x) = session_id x
  /\ step_count (as_read cfg now x) = step_count x
  /\ history (as_read cfg now x) = history x
  /\ last_result (as_read cfg now x) = last_result x
  /\ updated_at (as_read cfg now x) = updated_at x.
Proof. unfold as_read. destruct (is_expired cfg now x); auto. Qed.

Lemma as_read_inactive now x :
  status x <> "active"%string -> status (as_read cfg now x) <> "active"%string.
Proof.
  intros H. unfold as_read. destruct (is_expired cfg now x); [|exact H].
  simpl. discriminate.
Qed.

Lemma read_state_sessions now sid x s :
  od_get (sessions s) sid = Some x ->
  od_get (sessions (read_state cfg now sid x s)) sid = Some (as_read cfg now x)
  /\ forall j, j <> sid ->
       od_get (sessions (read_state cfg now sid x s)) j = od_get (sessions s) j.
Proof.
  intros H. unfold read_state, as_read.
  destruct (is_expired cfg now x); simpl.
  - split; [apply od_get_set_eq|]. intros j Hj. apply od_get_set_ne. congruence.
  - auto.
Qed.

(** An explicit continue request for a session that is not active when
    read is answered with the rejection; no adapter is looked up or called
    and the session is not advanced. *)
Lemma continue_session_rejects sid reply tsk dev max_steps timeout_sec s x :
  tap_only_mode cfg = false ->
  od_get (sessions s) sid = Some x ->
  status (as_read cfg (time_time w (log s)) x) <> "active"%string ->
  continue_session w cfg (Some sid) reply tsk dev max_steps timeout_sec s =
    (Return (not_active_rejection (status (as_read cfg (time_time w (log s)) x))),
     read_state cfg (time_time w (log s)) sid x s).
Proof.
  intros Htap Hx Hst. unfold continue_session. rewrite Htap.
  unfold bind at 1. unfold find_session, bind at 1.
  rewrite (get_session_found sid s x Hx). unfold ret at 1.
  apply String.eqb_neq in Hst. rewrite Hst. reflexivity.
Qed.

End ContinuePath.


(* ===================================================================== *)
(** ** Subprocess cleanup and the timeout executor *)
(* ===================================================================== *)

Section TimeoutExecutor.

Context (w : world).

Lemma returns_bind {A B} (m : M A) (k : A -> M B) s :
  returns m s ->
  (forall a s', m s = (Return a, s') -> returns (k a) s') ->
  returns (bind m k) s.
Proof.
  intros (a & s' & Hm) Hk. unfold returns, bind. rewrite Hm.
  exact (Hk a s' Hm).
Qed.

Lemma returns_ret {A} (a : A) s : returns (ret a) s.
Proof. now exists a, s. Qed.

Lemma returns_ask {A} (o : list event -> A) e s : returns (ask o e) s.
Proof. unfold returns, ask. eauto. Qed.

Lemma returns_modify f s : returns (modify f) s.
Proof. unfold returns, modify. eauto. Qed.

Lemma returns_get_state s : returns get_state s.
Proof. unfold returns, get_state. eauto. Qed.

Lemma partition_live_returns ps s : returns (partition_live w ps) s.
Proof.
  revert s. induction ps as [|p r IH]; intros s; simpl.
  - apply returns_ret.
  - apply returns_bind; [apply returns_ask|]. intros running s1 _.
    apply returns_bind; [apply IH|]. intros ls s2 _. apply returns_ret.
Qed.

Lemma collect_live_returns s : returns (_collect_live_subprocesses w) s.
Proof.
  unfold _collect_live_subprocesses.
  apply returns_bind; [apply returns_get_state|]. intros s0 s1 _.
  apply returns_bind; [apply partition_live_returns|]. intros ls s2 _.
  apply returns_bind; [apply returns_modify|]. intros [] s3 _. apply returns_ret.
Qed.

Lemma terminate_all_returns ps s : returns (terminate_all ps) s.
Proof.
  revert s. induction ps as [|p r IH]; intros s; simpl; [apply returns_ret|].
  apply returns_bind; [apply returns_modify|]. intros [] s1 _. apply IH.
Qed.

Lemma wait_all_returns deadline ps s : returns (wait_all w deadline ps) s.
Proof.
  revert s. induction ps as [|p r IH]; intros s; simpl; [apply returns_ret|].
  apply returns_bind; [apply returns_ask|]. intros now s1 _.
  destruct (PyFloat.le_int (PyFloat.sub deadline now) 0); [apply returns_ret|].
  apply returns_bind; [apply returns_modify|]. intros [] s2 _. apply IH.
Qed.

Lemma kill_survivors_returns ps s : returns (kill_survivors w ps) s.
Proof.
  revert s. induction ps as [|p r IH]; intros s; simpl; [apply returns_ret|].
  apply returns_bind; [apply returns_ask|]. intros running s1 _.
  apply returns_bind.
  - destruct running; [apply returns_modify | apply returns_ret].
  - intros [] s2 _. apply IH.
Qed.

(** The cleanup always returns, and what it returns is the number of
    handles found running when it started. *)
Lemma cleanup_returns_live_count grace s :
  exists live s1 s',
    _collect_live_subprocesses w s = (Return live, s1)
    /\ cleanup_tracked_subprocesses w grace s = (Return (Z.of_nat (length live)), s').
Proof.
  destruct (collect_live_returns s) as (live & s1 & Hlive).
  exists live, s1. unfold cleanup_tracked_subprocesses, bind at 1. rewrite Hlive.
  destruct live as [|p r]; [exists s1; split; [reflexivity|reflexivity]|].
  set (live := p :: r).
  assert (Hrest : returns
            (terminate_all live ;;;
             let! t := time_now w in
             wait_all w (PyFloat.add t (max_zero grace)) live ;;;
             kill_survivors w live ;;;
             _collect_live_subprocesses w ;;;
             ret (Z.of_nat (length live))) s1).
  { apply returns_bind; [apply terminate_all_returns|]. intros [] s2 _.
    apply returns_bind; [apply returns_ask|]. intros t s3 _.
    apply returns_bind; [apply wait_all_returns|]. intros [] s4 _.
    apply returns_bind; [apply kill_survivors_returns|]. intros [] s5 _.
    apply returns_bind; [apply collect_live_returns|]. intros l6 s6 _.
    apply returns_ret. }
  destruct Hrest as (n & s' & Hrest).
  assert (n = Z.of_nat (length live)) as ->.
  { revert Hrest. unfold bind.
    destruct (terminate_all live s1) as [[[]|?|] s2]; try discriminate.
    destruct (time_now w s2) as [[t|?|] s3]; try discriminate.
    destruct (wait_all w _ live s3) as [[[]|?|] s4]; try discriminate.
    destruct (kill_survivors w live s4) as [[[]|?|] s5]; try discriminate.
    destruct (_collect_live_subprocesses w s5) as [[l6|?|] s6]; try discriminate.
    unfold ret. now intros [= <- _]. }
  exists s'. split; [reflexivity | exact Hrest].
Qed.

(** With a positive timeout the platform accepts and the worker alive after
    the join, the call raises the timeout error with the count the cleanup
    returned. *)
Lemma run_with_timeout_times_out (func : job) (t : Z) (name : string) (s : state) :
  0 < t -> t <= TIMEOUT_MAX w ->
  is_alive (joined (fst (func s)) t) = true ->
  exists n s',
    cleanup_tracked_subprocesses w grace_default (snd (func s)) = (Return n, s')
    /\ _run_with_timeout w func (Some t) name s
       = (Raise (OperationTimeoutError (timed_out_message name t) n), s').
Proof.
  intros Ht Hmax Halive.
  destruct (cleanup_returns_live_count grace_default (snd (func s)))
    as (live & s1 & s' & _ & Hclean).
  exists (Z.of_nat (length live)), s'. split; [exact Hclean|].
  unfold _run_with_timeout.
  destruct (t <=? 0) eqn:E; [apply Z.leb_le in E; lia|].
  destruct (TIMEOUT_MAX w <? t) eqn:E'; [apply Z.ltb_lt in E'; lia|].
  unfold bind at 1. rewrite Halive. unfold bind at 1.
  rewrite Hclean. reflexivity.
Qed.

(** A timeout beyond [threading.TIMEOUT_MAX] makes the join itself fail:
    the worker has been started, nothing is cleaned up and no timeout error
    is raised. *)
Lemma run_with_timeout_beyond_TIMEOUT_MAX (func : job) (t : Z) (name : string)
    (s : state) :
  0 < t -> TIMEOUT_MAX w < t ->
  _run_with_timeout w func (Some t) name s
  = (Raise (OverflowError "timestamp too large to convert to C _PyTime_t"),
     snd (func s)).
Proof.
  intros Ht Hmax. unfold _run_with_timeout.
  destruct (t <=? 0) eqn:E; [apply Z.leb_le in E; lia|].
  apply Z.ltb_lt in Hmax. unfold bind. cbn [fst snd]. rewrite Hmax. reflexivity.
Qed.


End TimeoutExecutor.



(* ===================================================================== *)
(** ** What leaves the session store alone *)
(* ===================================================================== *)

Lemma store_kept_refl s : store_kept s s.
Proof. repeat split. exists []. now rewrite app_nil_r. Qed.

Lemma store_kept_trans s1 s2 s3 :
  store_kept s1 s2 -> store_kept s2 s3 -> store_kept s1 s3.
Proof.
  intros (Hs & Hf & r1 & Hl) (Hs' & Hf' & r2 & Hl').
  repeat split; [congruence | congruence |].
  exists (r1 ++ r2). now rewrite Hl', Hl, app_assoc.
Qed.

Lemma store_kept_log s l : store_kept s (with_log (log s ++ l) s).
Proof. repeat split. now exists l. Qed.

Lemma store_kept_tracked s t : store_kept s (with_tracked t s).
Proof. repeat split. exists []. simpl. now rewrite app_nil_r. Qed.

Lemma keeps_store_ret {A} (a : A) : keeps_store (ret a).
Proof. intros s c s' [= _ <-]. apply store_kept_refl. Qed.

Lemma keeps_store_raise {A} e : keeps_store (@raise A e).
Proof. intros s c s' [= _ <-]. apply store_kept_refl. Qed.

Lemma keeps_store_get_state : keeps_store get_state.
Proof. intros s c s' [= _ <-]. apply store_kept_refl. Qed.

Lemma keeps_store_ask {A} (o : list event -> A) e : keeps_store (ask o e).
Proof. intros s c s' [= _ <-]. apply store_kept_log. Qed.

Lemma keeps_store_emit e : keeps_store (emit e).
Proof. intros s c s' [= _ <-]. apply store_kept_log. Qed.

Lemma keeps_store_bind {A B} (m : M A) (k : A -> M B) :
  keeps_store m -> (forall a, keeps_store (k a)) -> keeps_store (bind m k).
Proof.
  intros Hm Hk s c s'. unfold bind.
  destruct (m s) as [[a|e|] s1] eqn:E; intros H.
  - eapply store_kept_trans; [exact (Hm _ _ _ E) | exact (Hk a _ _ _ H)].
  - injection H as _ <-. exact (Hm _ _ _ E).
  - injection H as _ <-. exact (Hm _ _ _ E).
Qed.

Lemma keeps_store_try_except {A} (m : M A) catches (h : exn -> M A) :
  keeps_store m -> (forall e, keeps_store (h e)) -> keeps_store (try_except m catches h).
Proof.
  intros Hm Hh s c s'. unfold try_except.
  destruct (m s) as [[a|e|] s1] eqn:E; intros H.
  - injection H as _ <-. exact (Hm _ _ _ E).
  - destruct (catches e).
    + eapply store_kept_trans; [exact (Hm _ _ _ E) | exact (Hh e _ _ _ H)].
    + injection H as _ <-. exact (Hm _ _ _ E).
  - injection H as _ <-. exact (Hm _ _ _ E).
Qed.

Section Frames.

Context (w : world) (cfg : SkillConfig).

Lemma keeps_store_register p : keeps_store (_register_subprocess p).
Proof. intros s c s' [= _ <-]. apply store_kept_tracked. Qed.

Lemma register_all_kept ps s : store_kept s (register_all ps s).
Proof.
  revert s. induction ps as [|p r IH]; intros s; simpl; [apply store_kept_refl|].
  eapply store_kept_trans; [|apply IH]. apply store_kept_tracked.
Qed.

Lemma keeps_store_list_devices : keeps_store (list_devices w).
Proof. intros s c s' [= _ <-]. apply store_kept_log. Qed.

Lemma keeps_store_ensure_connected dev : keeps_store (_ensure_device_connected w dev).
Proof.
  apply keeps_store_bind; [apply keeps_store_list_devices|].
  intros [|d0 r]; [apply keeps_store_raise|].
  destruct (bool_decide _); [apply keeps_store_ret | apply keeps_store_raise].
Qed.

Lemma keeps_store_select_device dev : keeps_store (_select_device w cfg dev).
Proof.
  unfold _select_device.
  destruct (truthy_opt_str dev).
  { apply keeps_store_bind; [apply keeps_store_ensure_connected|].
    intros _. apply keeps_store_ret. }
  destruct (truthy_opt_str (default_device_id cfg)).
  { apply keeps_store_bind; [apply keeps_store_ensure_connected|].
    intros _. apply keeps_store_ret. }
  apply keeps_store_bind; [apply keeps_store_list_devices|].
  intros [|d0 [|d1 r]];
    [apply keeps_store_raise | apply keeps_store_ret | apply keeps_store_raise].
Qed.

Lemma keeps_store_lookup_adapter prov : keeps_store (lookup_adapter w prov).
Proof. intros s c s' [= _ <-]. apply store_kept_log. Qed.

Lemma keeps_store_observe_post sid dev tsk : keeps_store (observe_post w sid dev tsk).
Proof. intros s c s' [= _ <-]. apply store_kept_log. Qed.

Lemma keeps_store_partition_live ps : keeps_store (partition_live w ps).
Proof.
  induction ps as [|p r IH]; simpl; [apply keeps_store_ret|].
  apply keeps_store_bind; [apply keeps_store_ask|]. intros running.
  apply keeps_store_bind; [apply IH|]. intros ls. apply keeps_store_ret.
Qed.

Lemma keeps_store_collect_live : keeps_store (_collect_live_subprocesses w).
Proof.
  unfold _collect_live_subprocesses.
  apply keeps_store_bind; [apply keeps_store_get_state|]. intros s0.
  apply keeps_store_bind; [apply keeps_store_partition_live|]. intros ls.
  apply keeps_store_bind; [|intros _; apply keeps_store_ret].
  intros s c s' [= _ <-]. apply store_kept_tracked.
Qed.

Lemma keeps_store_terminate_all ps : keeps_store (terminate_all ps).
Proof.
  induction ps as [|p r IH]; simpl; [apply keeps_store_ret|].
  apply keeps_store_bind; [apply keeps_store_emit | intros _; apply IH].
Qed.

Lemma keeps_store_wait_all deadline ps : keeps_store (wait_all w deadline ps).
Proof.
  induction ps as [|p r IH]; simpl; [apply keeps_store_ret|].
  apply keeps_store_bind; [apply keeps_store_ask|]. intros now.
  destruct (PyFloat.le_int _ 0); [apply keeps_store_ret|].
  apply keeps_store_bind; [apply keeps_store_emit | intros _; apply IH].
Qed.

Lemma keeps_store_kill_survivors ps : keeps_store (kill_survivors w ps).
Proof.
  induction ps as [|p r IH]; simpl; [apply keeps_store_ret|].
  apply keeps_store_bind; [apply keeps_store_ask|]. intros running.
  apply keeps_store_bind; [|intros _; apply IH].
  destruct running; [apply keeps_store_emit | apply keeps_store_ret].
Qed.

Lemma keeps_store_cleanup grace : keeps_store (cleanup_tracked_subprocesses w grace).
Proof.
  unfold cleanup_tracked_subprocesses.
  apply keeps_store_bind; [apply keeps_store_collect_live|].
  intros [|p r]; [apply keeps_store_ret|].
  apply keeps_store_bind; [apply keeps_store_terminate_all|]. intros _.
  apply keeps_store_bind; [apply keeps_store_ask|]. intros t.
  apply keeps_store_bind; [apply keeps_store_wait_all|]. intros _.
  apply keeps_store_bind; [apply keeps_store_kill_survivors|]. intros _.
  apply keeps_store_bind; [apply keeps_store_collect_live|]. intros _.
  apply keeps_store_ret.
Qed.

Lemma call_adapter_keeps {C} (oracle : list event -> C -> behaviour) ev c :
  job_keeps_store (call_adapter oracle ev c).
Proof.
  intros s. unfold call_adapter. simpl.
  eapply store_kept_trans; [|apply register_all_kept].
  apply store_kept_log.
Qed.

Lemma or_on_TypeError_keeps first second :
  job_keeps_store first -> job_keeps_store second ->
  job_keeps_store (or_on_TypeError first second).
Proof.
  intros H1 H2 s. unfold or_on_TypeError.
  pose proof (H1 s) as K1. destruct (first s) as [e1 s1]. simpl in K1.
  destruct e1 as [[v|x] t1|]; try exact K1.
  destruct x; try exact K1.
  pose proof (H2 s1) as K2. destruct (second s1) as [[o t2|] s2]; simpl in *;
    eapply store_kept_trans; eauto.
Qed.

Lemma start_adapter_task_keeps has_run_loop dev tsk max_steps extra reset :
  job_keeps_store (_start_adapter_task w has_run_loop dev tsk max_steps extra reset).
Proof.
  unfold _start_adapter_task. destruct reset as [re|]; [|apply call_adapter_keeps].
  destruct has_run_loop; [|apply call_adapter_keeps].
  apply or_on_TypeError_keeps; apply call_adapter_keeps.
Qed.

Lemma keeps_store_run_with_timeout func timeout_sec name :
  job_keeps_store func -> keeps_store (_run_with_timeout w func timeout_sec name).
Proof.
  intros Hf. unfold _run_with_timeout. destruct timeout_sec as [t|].
  - destruct (t <=? 0); [apply keeps_store_raise|].
    apply keeps_store_bind.
    { intros s c s' [= _ <-]. apply Hf. }
    intros e. destruct (TIMEOUT_MAX w <? t); [apply keeps_store_raise|].
    destruct (is_alive (joined e t)).
    + apply keeps_store_bind; [apply keeps_store_cleanup|].
      intros n. apply keeps_store_raise.
    + destruct (error_holder (joined e t)); [apply keeps_store_raise|].
      destruct (result_holder (joined e t));
        [apply keeps_store_ret | apply keeps_store_raise].
  - intros s c s'. pose proof (Hf s) as K.
    destruct (func s) as [[[v|x] el|] s1]; intros [= _ <-]; exact K.
Qed.

Lemma keeps_store_start_under_timeout prov dev tsk max_steps extra stateless timeout_sec :
  keeps_store (start_under_timeout w prov dev tsk max_steps extra stateless timeout_sec).
Proof.
  unfold start_under_timeout.
  apply keeps_store_bind; [apply keeps_store_lookup_adapter|]. intros b.
  apply keeps_store_run_with_timeout, start_adapter_task_keeps.
Qed.

Lemma keeps_store_continue_under_timeout session reply tsk max_steps timeout_sec :
  keeps_store (continue_under_timeout w session reply tsk max_steps timeout_sec).
Proof.
  unfold continue_under_timeout.
  apply keeps_store_bind; [apply keeps_store_ensure_connected|]. intros _.
  apply keeps_store_bind; [apply keeps_store_lookup_adapter|]. intros b.
  apply keeps_store_bind.
  { destruct (last_result session); try apply keeps_store_raise. apply keeps_store_ret. }
  intros a. apply keeps_store_run_with_timeout, call_adapter_keeps.
Qed.

End Frames.

(* ===================================================================== *)
(** ** [execute_task]: the session created before a failing adapter call *)
(* ===================================================================== *)

Lemma bind_Return {A B} (m : M A) (k : A -> M B) s a s' :
  m s = (Return a, s') -> bind m k s = k a s'.
Proof. intros H. unfold bind. now rewrite H. Qed.

Lemma bind_Raise {A B} (m : M A) (k : A -> M B) s e s' :
  m s = (Raise e, s') -> bind m k s = (Raise e, s').
Proof. intros H. unfold bind. now rewrite H. Qed.

Lemma bind_Diverge {A B} (m : M A) (k : A -> M B) s s' :
  m s = (Diverge, s') -> bind m k s = (Diverge, s').
Proof. intros H. unfold bind. now rewrite H. Qed.


Lemma try_except_caught {A} (m : M A) catches h s e s' :
  m s = (Raise e, s') -> catches e = true -> try_except m catches h s = h e s'.
Proof. intros H C. unfold try_except. now rewrite H, C. Qed.


Lemma try_except_Diverge {A} (m : M A) catches h s s' :
  m s = (Diverge, s') -> try_except m catches h s = (Diverge, s').
Proof. intros H. unfold try_except. now rewrite H. Qed.

Section ExecuteTask.

Context (w : world) (cfg : SkillConfig).

Lemma select_device_log dev s d s0 :
  _select_device w cfg dev s = (Return d, s0) ->
  s0 = with_log (log s ++ [EvListDevices]) s.
Proof.
  assert (Hens : forall (id : string) (s : state) (d : string) (s0 : state),
            (_ensure_device_connected w id ;;; ret d) s = (Return d, s0) ->
            s0 = with_log (log s ++ [EvListDevices]) s).
  { intros id s1 d1 s2. unfold _ensure_device_connected, list_devices, bind.
    destruct (adb_devices w (log s1)) as [[|d0 r]|e|]; simpl; try discriminate.
    destruct (bool_decide (id ∈ d0 :: r)); simpl; [|discriminate].
    now intros [= <-]. }
  unfold _select_device.
  destruct (truthy_opt_str dev).
  { intros H. assert (d = default ""%string dev) as ->.
    { revert H. unfold bind. destruct (_ensure_device_connected w _ s) as [[[]|?|] ?];
        [now intros [= <- _] | discriminate | discriminate]. }
    exact (Hens _ _ _ _ H). }
  destruct (truthy_opt_str (default_device_id cfg)).
  { intros H. assert (d = default ""%string (default_device_id cfg)) as ->.
    { revert H. unfold bind. destruct (_ensure_device_connected w _ s) as [[[]|?|] ?];
        [now intros [= <- _] | discriminate | discriminate]. }
    exact (Hens _ _ _ _ H). }
  unfold list_devices, bind.
  destruct (adb_devices w (log s)) as [[|d0 [|d1 r]]|e|]; simpl; try discriminate.
  now intros [= _ <-].
Qed.


End ExecuteTask.


Section ExecuteTaskFailure.

Context (w : world) (cfg : SkillConfig).



End ExecuteTaskFailure.



(* ===================================================================== *)
(** ** Status transitions of stored sessions *)
(* ===================================================================== *)

Lemma od_get_Some_In {V} (d : odict V) k v : od_get d k = Some v -> In (k, v) d.
Proof.
  induction d as [|[k' v'] r IH]; simpl; [discriminate|].
  destruct (String.eqb k k') eqn:E.
  - apply String.eqb_eq in E. subst. intros [= ->]. now left.
  - intros H. right. now apply IH.
Qed.

Lemma od_get_None_keys {V} (d : odict V) k : od_get d k = None -> ~ In k (map fst d).
Proof.
  induction d as [|[k' v'] r IH]; simpl; [tauto|].
  destruct (String.eqb k k') eqn:E; [discriminate|].
  apply String.eqb_neq in E. intros H [Hk|Hk]; [congruence|]. now apply IH.
Qed.

Lemma od_get_In {V} (d : odict V) k v :
  NoDup (map fst d) -> In (k, v) d -> od_get d k = Some v.
Proof.
  induction d as [|[k' v'] r IH]; simpl; [tauto|].
  intros Hnd [Hin|Hin].
  - injection Hin as -> ->. now rewrite String.eqb_refl.
  - inversion Hnd as [|? ? Hnotin Hnd']; subst.
    rewrite list_elem_of_In in Hnotin.
    destruct (String.eqb k k') eqn:E.
    + apply String.eqb_eq in E. subst. exfalso. apply Hnotin.
      apply in_map_iff. now exists (k', v).
    + now apply IH.
Qed.

Lemma store_wf_session_id s k x :
  store_wf s -> od_get (sessions s) k = Some x -> session_id x = k.
Proof.
  intros [_ Hid] Hget. apply od_get_Some_In, list_elem_of_In in Hget.
  rewrite Forall_forall in Hid. exact (Hid (k, x) Hget).
Qed.

Lemma status_step_refl st : status_step st st.
Proof. now left. Qed.

Lemma advance_status x now res st :
  st <> ""%string -> status (advance x now res (Some st)) = st.
Proof. intros H. simpl. apply truthy_str_nonempty in H. now rewrite H. Qed.

Section Transitions.

Context (w : world) (cfg : SkillConfig).

Lemma swept_status now x :
  swept cfg now x = x
  \/ (status x = "active"%string /\ swept cfg now x = set_status "expired" x).
Proof.
  unfold swept. destruct (String.eqb (status x) "active") eqn:E; [|now left].
  apply String.eqb_eq in E. destruct (is_expired cfg now x); simpl; auto.
Qed.

Lemma swept_inactive now x : status x <> "active"%string -> swept cfg now x = x.
Proof.
  intros H. unfold swept. apply String.eqb_neq in H. now rewrite H.
Qed.

Lemma swept_status_step now x : status_step (status x) (status (swept cfg now x)).
Proof.
  destruct (swept_status now x) as [-> | [_ ->]]; [now left|]. right. now right.
Qed.

(** The loop of [list_active_sessions] over entries that are the store's
    own: every entry ends swept, nothing else changes, and the sessions
    handed back are the active ones that have not expired. *)
Lemma list_active_from_run now entries s :
  NoDup (map fst entries) ->
  (forall k x, In (k, x) entries -> od_get (sessions s) k = Some x) ->
  exists act s',
    list_active_from cfg now entries s = (Return act, s')
    /\ (forall j, ~ In j (map fst entries) ->
          od_get (sessions s') j = od_get (sessions s) j)
    /\ (forall k x, In (k, x) entries ->
          od_get (sessions s') k = Some (swept cfg now x))
    /\ (forall a, In a act ->
          exists k, In (k, a) entries /\ status a = "active"%string
                    /\ swept cfg now a = a).
Proof.
  revert s. induction entries as [|[k x] r IH]; intros s Hnd Hown.
  - exists [], s. simpl. repeat split; auto; intros; tauto.
  - inversion Hnd as [|? ? Hnotin Hnd']; subst.
    rewrite list_elem_of_In in Hnotin.
    assert (Hne : forall k2 x2, In (k2, x2) r -> k2 <> k).
    { intros k2 x2 Hin ->. apply Hnotin. apply in_map_iff. now exists (k, x2). }
    simpl list_active_from. unfold swept at 1.
    destruct (String.eqb (status x) "active") eqn:Eact.
    + destruct (is_expired cfg now x) eqn:Eexp.
      * (* flipped to expired and saved *)
        set (x' := set_status "expired" x).
        set (s1 := with_log (log s ++ [EvSave (session_id x')])
                     (with_files (<[session_id x' := x']> (files s))
                        (with_sessions (od_set (sessions s) k x') s))).
        destruct (IH s1 Hnd') as (act & s' & Hrun & Hout & Hin & Hact).
        { intros k2 x2 Hin2. simpl.
          rewrite od_get_set_ne; [|intros ->; now apply (Hne k2 x2)].
          apply Hown. now right. }
        exists act, s'. split; [exact Hrun|]. split; [|split].
        -- intros j Hj. rewrite Hout; [|intros Hjr; apply Hj; now right].
           simpl. apply od_get_set_ne. intros ->. apply Hj. now left.
        -- intros k2 x2 [Heq|Hin2].
           ++ injection Heq as <- <-. rewrite Hout by exact Hnotin.
              simpl. rewrite od_get_set_eq. unfold swept.
              now rewrite Eact, Eexp.
           ++ now apply Hin.
        -- intros a Ha. destruct (Hact a Ha) as (k2 & Hk2 & Hst).
           exists k2. split; [now right | exact Hst].
      * (* kept as active *)
        destruct (IH s Hnd') as (act & s' & Hrun & Hout & Hin & Hact).
        { intros k2 x2 Hin2. apply Hown. now right. }
        exists (x :: act), s'. split.
        { eapply eq_trans; [eapply bind_Return; exact Hrun | reflexivity]. }
        split; [|split].
        -- intros j Hj. apply Hout. intros Hjr. apply Hj. now right.
        -- intros k2 x2 [Heq|Hin2].
           ++ injection Heq as <- <-. rewrite Hout by exact Hnotin.
              unfold swept. rewrite Eact, Eexp. simpl. apply Hown. now left.
           ++ now apply Hin.
        -- intros a [<-|Ha].
           ++ exists k. split; [now left|]. split; [now apply String.eqb_eq|].
              unfold swept. now rewrite Eact, Eexp.
           ++ destruct (Hact a Ha) as (k2 & Hk2 & Hst).
              exists k2. split; [now right | exact Hst].
    + destruct (IH s Hnd') as (act & s' & Hrun & Hout & Hin & Hact).
      { intros k2 x2 Hin2. apply Hown. now right. }
      exists act, s'. split; [exact Hrun|]. split; [|split].
      * intros j Hj. apply Hout. intros Hjr. apply Hj. now right.
      * intros k2 x2 [Heq|Hin2].
        -- injection Heq as <- <-. rewrite Hout by exact Hnotin.
           unfold swept. rewrite Eact. simpl. apply Hown. now left.
        -- now apply Hin.
      * intros a Ha. destruct (Hact a Ha) as (k2 & Hk2 & Hst).
        exists k2. split; [now right | exact Hst].
Qed.

(** [list_active_sessions] on a well-formed store. *)
Lemma list_active_sessions_run s :
  store_wf s ->
  exists act s',
    list_active_sessions w cfg s = (Return act, s')
    /\ (forall k, od_get (sessions s') k
                  = option_map (swept cfg (time_time w (log s))) (od_get (sessions s) k))
    /\ (forall a, In a act ->
          status a = "active"%string
          /\ od_get (sessions s') (session_id a) = Some a
          /\ od_get (sessions s) (session_id a) = Some a).
Proof.
  intros Hwf. pose proof Hwf as [Hnd Hid].
  set (now := time_time w (log s)).
  set (s1 := with_log (log s ++ [EvTime]) s).
  destruct (list_active_from_run now (sessions s) s1 Hnd) as (act & s' & Hrun & Hout & Hin & Hact).
  { intros k x Hkx. simpl. now apply od_get_In. }
  exists act, s'. split; [|split].
  - unfold list_active_sessions, bind, time_now, ask, get_state. exact Hrun.
  - intros k. destruct (od_get (sessions s) k) as [x|] eqn:E; simpl.
    + apply Hin. now apply od_get_Some_In.
    + rewrite Hout; [exact E|]. now apply od_get_None_keys.
  - intros a Ha. destruct (Hact a Ha) as (k & Hk & Hst & Hsw).
    assert (Hget : od_get (sessions s) k = Some a) by now apply od_get_In.
    rewrite (store_wf_session_id s k a Hwf Hget).
    split; [exact Hst|]. split; [|exact Hget].
    rewrite (Hin k a Hk). now rewrite Hsw.
Qed.

End Transitions.

Lemma bind_cases {A B} (m : M A) (k : A -> M B) s c s' :
  bind m k s = (c, s') ->
  (exists a s1, m s = (Return a, s1) /\ k a s1 = (c, s'))
  \/ (exists e, m s = (Raise e, s') /\ c = Raise e)
  \/ (m s = (Diverge, s') /\ c = Diverge).
Proof.
  unfold bind. destruct (m s) as [[a|e|] s1]; intros H.
  - left. eauto.
  - injection H as <- <-. right. left. eauto.
  - injection H as <- <-. right. now right.
Qed.

Lemma max_by_updated_at_In best l : In (max_by_updated_at best l) (best :: l).
Proof.
  revert best. induction l as [|x r IH]; intros best; simpl; [now left|].
  destruct (IH (if PyFloat.ltb (updated_at best) (updated_at x) then x else best))
    as [H|H]; [|now right; right].
  rewrite <- H. destruct (PyFloat.ltb (updated_at best) (updated_at x)); auto.
Qed.

Section TransitionsOfEntryPoints.

Context (w : world) (cfg : SkillConfig).

Lemma get_latest_session_run dev s :
  store_wf s ->
  exists latest s',
    get_latest_session w cfg dev s = (Return latest, s')
    /\ (forall k, od_get (sessions s') k
                  = option_map (swept cfg (time_time w (log s))) (od_get (sessions s) k))
    /\ (forall a, latest = Some a ->
          status a = "active"%string
          /\ od_get (sessions s') (session_id a) = Some a
          /\ od_get (sessions s) (session_id a) = Some a).
Proof.
  intros Hwf.
  destruct (list_active_sessions_run w cfg s Hwf) as (act & s' & Hrun & Hswept & Hact).
  unfold get_latest_session.
  set (chosen := if truthy_opt_str dev
                 then filter (fun x => String.eqb (device_id x) (default ""%string dev)) act
                 else act).
  assert (Hsub : forall a, In a chosen -> In a act).
  { intros a. unfold chosen. destruct (truthy_opt_str dev); [|auto].
    rewrite <- !list_elem_of_In. intros H. now apply list_elem_of_filter in H as [_ H]. }
  destruct chosen as [|x r] eqn:E.
  - exists None, s'. split.
    { eapply eq_trans; [eapply bind_Return; exact Hrun|].
      fold chosen. now rewrite E. }
    split; [exact Hswept|]. discriminate.
  - exists (Some (max_by_updated_at x r)), s'. split.
    { eapply eq_trans; [eapply bind_Return; exact Hrun|].
      fold chosen. now rewrite E. }
    split; [exact Hswept|]. intros a [= <-].
    apply Hact, Hsub, max_by_updated_at_In.
Qed.

(** What a persisting [_process_result] does to the store: nothing outside
    [sid]; under [sid] the session stays or is advanced with a status of
    active or completed. *)
Lemma process_result_store sid prov dev res tsk s c s' x :
  od_get (sessions s) sid = Some x ->
  _process_result w sid prov dev res tsk true s = (c, s') ->
  (forall j, j <> sid -> od_get (sessions s') j = od_get (sessions s) j)
  /\ (od_get (sessions s') sid = Some x
      \/ exists now st,
           (st = "active"%string \/ st = "completed"%string)
           /\ od_get (sessions s') sid = Some (advance x now res (Some st))).
Proof.
  intros Hx H. unfold _process_result in H.
  apply bind_cases in H as [(post & s1 & Hpost & H) | [(e & Hpost & _) | (Hpost & _)]].
  - pose proof (keeps_store_observe_post w sid dev tsk s _ _ Hpost) as (Hs1 & _).
    apply bind_cases in H as [(n & s2 & Hupd & H) | [(e & Hupd & _) | (Hupd & _)]].
    + injection H as _ <-.
      apply bind_cases in Hupd as [(u & s3 & Hupd & H) | [(e & Hupd & _) | (Hupd & _)]].
      * injection H as _ <-.
        set (st := if String.eqb (_determine_next_action res) "complete"
                   then "completed"%string else "active"%string) in *.
        rewrite (update_session_found w sid res (Some st) s1 x) in Hupd
          by (now rewrite Hs1).
        injection Hupd as _ <-. split.
        -- intros j Hj. unfold updated_state. simpl.
           rewrite od_get_set_ne by congruence. now rewrite Hs1.
        -- right. exists (time_time w (log s1)), st. split.
           ++ unfold st. destruct (String.eqb _ "complete"); auto.
           ++ apply updated_state_sessions.
      * rewrite (update_session_found w sid res _ s1 x) in Hupd by (now rewrite Hs1).
        discriminate.
      * rewrite (update_session_found w sid res _ s1 x) in Hupd by (now rewrite Hs1).
        discriminate.
    + apply bind_cases in Hupd as [(u & s3 & Hupd & H) | [(e' & Hupd & _) | (Hupd & _)]];
        try discriminate;
        rewrite (update_session_found w sid res _ s1 x) in Hupd by (now rewrite Hs1);
        discriminate.
    + apply bind_cases in Hupd as [(u & s3 & Hupd & H) | [(e' & Hupd & _) | (Hupd & _)]];
        try discriminate;
        rewrite (update_session_found w sid res _ s1 x) in Hupd by (now rewrite Hs1);
        discriminate.
  - pose proof (keeps_store_observe_post w sid dev tsk s _ _ Hpost) as (Hs1 & _).
    rewrite Hs1. auto.
  - pose proof (keeps_store_observe_post w sid dev tsk s _ _ Hpost) as (Hs1 & _).
    rewrite Hs1. auto.
Qed.

(** An adapter step that leaves the store alone, run in a [try] and followed
    by the normalisation of its result. *)
Lemma step_then_process_store (step : M pyval) (failure : exn -> odict pyval)
    sid prov dev tsk s c s' x :
  keeps_store step ->
  od_get (sessions s) sid = Some x ->
  (let! ran := try_except (let! res := step in ret (inl res)) is_Exception
                 (fun e => ret (inr (failure e))) in
   match ran with
   | inr f => ret f
   | inl res => _process_result w sid prov dev res tsk true
   end) s = (c, s') ->
  (forall j, j <> sid -> od_get (sessions s') j = od_get (sessions s) j)
  /\ (od_get (sessions s') sid = Some x
      \/ exists now res st,
           (st = "active"%string \/ st = "completed"%string)
           /\ od_get (sessions s') sid = Some (advance x now res (Some st))).
Proof.
  intros Hstep Hx H.
  assert (Htry : keeps_store
            (try_except (let! res := step in ret (inl (B := odict pyval) res))
               is_Exception (fun e => ret (inr (failure e))))).
  { apply keeps_store_try_except.
    - apply keeps_store_bind; [exact Hstep | intros; apply keeps_store_ret].
    - intros; apply keeps_store_ret. }
  apply bind_cases in H as [(ran & s1 & Hran & H) | [(e & Hran & _) | (Hran & _)]];
    pose proof (Htry s _ _ Hran) as (Hs1 & _).
  - destruct ran as [res|f].
    + destruct (process_result_store sid prov dev res tsk s1 c s' x) as (Hout & Hin);
        [now rewrite Hs1 | exact H |].
      split.
      * intros j Hj. rewrite (Hout j Hj). now rewrite Hs1.
      * destruct Hin as [Hin | (now & st & Hst & Hin)]; [now left|].
        right. now exists now, res, st.
    + injection H as _ <-. rewrite Hs1. auto.
  - rewrite Hs1. auto.
  - rewrite Hs1. auto.
Qed.

Lemma continue_active_store session reply tsk max_steps timeout_sec s c s' :
  od_get (sessions s) (session_id session) = Some session ->
  continue_active w cfg session reply tsk max_steps timeout_sec s = (c, s') ->
  (forall j, j <> session_id session -> od_get (sessions s') j = od_get (sessions s) j)
  /\ (od_get (sessions s') (session_id session) = Some session
      \/ exists now res st,
           (st = "active"%string \/ st = "completed"%string)
           /\ od_get (sessions s') (session_id session)
              = Some (advance session now res (Some st))).
Proof.
  intros Hx H. unfold continue_active in H.
  destruct (int_or max_steps (default_max_steps cfg) <=? 0).
  - injection H as _ <-. auto.
  - eapply step_then_process_store; [|exact Hx|exact H].
    apply keeps_store_continue_under_timeout.
Qed.

Lemma run_prepared_stateful_store sid prov dev tsk task_to_run max_steps extra
    timeout_sec s c s' x :
  od_get (sessions s) sid = Some x ->
  run_prepared w sid prov dev tsk task_to_run max_steps extra false timeout_sec s
    = (c, s') ->
  (forall j, j <> sid -> od_get (sessions s') j = od_get (sessions s) j)
  /\ (od_get (sessions s') sid = Some x
      \/ exists now res st,
           (st = "active"%string \/ st = "completed"%string)
           /\ od_get (sessions s') sid = Some (advance x now res (Some st))).
Proof.
  intros Hx H. unfold run_prepared in H.
  eapply step_then_process_store; [|exact Hx|exact H].
  apply keeps_store_start_under_timeout.
Qed.

End TransitionsOfEntryPoints.

Section EntryPointStores.

Context (w : world) (cfg : SkillConfig).

(** The first stage of [continue_session] on a well-formed store: it
    returns; every stored session stays or is flipped to expired; a session
    handed on as active is stored, unchanged, under its own id; and with no
    id given, sessions that are not active are not touched. *)
Lemma find_session_run sid dev s :
  store_wf s ->
  exists found s1,
    find_session w cfg sid dev s = (Return found, s1)
    /\ (forall k x, od_get (sessions s) k = Some x ->
          exists x1, od_get (sessions s1) k = Some x1
                     /\ (x1 = x \/ x1 = set_status "expired" x))
    /\ (forall session, found = inl session -> status session = "active"%string ->
          od_get (sessions s1) (session_id session) = Some session
          /\ od_get (sessions s) (session_id session) = Some session)
    /\ (sid = None -> forall k x, od_get (sessions s) k = Some x ->
          status x <> "active"%string -> od_get (sessions s1) k = Some x).
Proof.
  intros Hwf. destruct sid as [id|]; unfold find_session.
  - destruct (od_get (sessions s) id) as [x0|] eqn:E.
    + set (now := time_time w (log s)).
      destruct (read_state_sessions cfg now id x0 s E) as (Hid & Hother).
      eexists _, _. split.
      { eapply eq_trans; [eapply bind_Return; exact (get_session_found w cfg id s x0 E)|].
        reflexivity. }
      fold now. split; [|split].
      * intros k x Hk. destruct (String.eqb k id) eqn:Ek.
        -- apply String.eqb_eq in Ek. subst k. rewrite E in Hk. injection Hk as <-.
           exists (as_read cfg now x0). split; [exact Hid|].
           unfold as_read. destruct (is_expired cfg now x0); auto.
        -- apply String.eqb_neq in Ek. exists x. split; [|now left].
           now rewrite Hother.
      * intros session [= <-] Hact.
        assert (Hsame : as_read cfg now x0 = x0).
        { revert Hact. unfold as_read. destruct (is_expired cfg now x0); [|reflexivity].
          simpl. discriminate. }
        rewrite Hsame. rewrite (store_wf_session_id s id x0 Hwf E).
        split; [now rewrite <- Hsame at 2 | exact E].
      * discriminate.
    + exists (inr [ ("success", PBool false);
                    ("error", PStr ("Session not found: " +:+ id));
                    ("message", PStr ("Session " +:+ id +:+ " not found or expired.")) ]%string), s.
      split.
      { eapply eq_trans; [eapply bind_Return; exact (get_session_unknown w cfg id s E)|].
        reflexivity. }
      split; [|split].
      * intros k x Hk. exists x. auto.
      * discriminate.
      * discriminate.
  - destruct (get_latest_session_run w cfg dev s Hwf) as (latest & s1 & Hrun & Hswept & Hlatest).
    assert (HA : forall k x, od_get (sessions s) k = Some x ->
               exists x1, od_get (sessions s1) k = Some x1
                          /\ (x1 = x \/ x1 = set_status "expired" x)).
    { intros k x Hk. rewrite Hswept, Hk. simpl. eexists. split; [reflexivity|].
      destruct (swept_status cfg (time_time w (log s)) x) as [-> | [_ ->]]; auto. }
    assert (HD : forall k x, od_get (sessions s) k = Some x ->
               status x <> "active"%string -> od_get (sessions s1) k = Some x).
    { intros k x Hk Hst. rewrite Hswept, Hk. simpl. now rewrite swept_inactive. }
    destruct latest as [a|].
    + exists (inl a), s1. split.
      { eapply eq_trans; [eapply bind_Return; exact Hrun | reflexivity]. }
      split; [exact HA|]. split; [|intros _; exact HD].
      intros session [= <-] _. now apply Hlatest.
    + eexists _, s1. split.
      { eapply eq_trans; [eapply bind_Return; exact Hrun | reflexivity]. }
      split; [exact HA|]. split; [discriminate | intros _; exact HD].
Qed.

(** [continue_session] moves the status of every stored session along an
    allowed step, and with no id given it leaves a session that is not
    active exactly as it was. *)
Lemma continue_session_store sid reply tsk dev max_steps timeout_sec s c s' :
  store_wf s ->
  continue_session w cfg sid reply tsk dev max_steps timeout_sec s = (c, s') ->
  (forall k x, od_get (sessions s) k = Some x ->
     exists x', od_get (sessions s') k = Some x'
                /\ status_step (status x) (status x'))
  /\ (sid = None -> forall k x, od_get (sessions s) k = Some x ->
        status x <> "active"%string -> od_get (sessions s') k = Some x).
Proof.
  intros Hwf H. unfold continue_session in H.
  destruct (tap_only_mode cfg).
  { injection H as _ <-. split.
    - intros k x Hk. exists x. split; [exact Hk | apply status_step_refl].
    - auto. }
  destruct (find_session_run sid dev s Hwf) as (found & s1 & Hfind & HA & HC & HD).
  rewrite (bind_Return _ _ _ _ _ Hfind) in H.
  assert (Hflip : forall k x, od_get (sessions s) k = Some x ->
            exists x', od_get (sessions s1) k = Some x'
                       /\ status_step (status x) (status x')).
  { intros k x Hk. destruct (HA k x Hk) as (x1 & Hx1 & Hx).
    exists x1. split; [exact Hx1|].
    destruct Hx as [-> | ->]; [apply status_step_refl | right; now right]. }
  destruct found as [session|failure].
  2:{ injection H as _ <-. split; [exact Hflip | exact HD]. }
  destruct (String.eqb (status session) "active") eqn:Eact; simpl in H.
  2:{ injection H as _ <-. split; [exact Hflip | exact HD]. }
  apply String.eqb_eq in Eact.
  destruct (HC session eq_refl Eact) as (Hs1 & Hs0).
  destruct (continue_active_store w cfg session reply tsk max_steps timeout_sec
              s1 c s' Hs1 H) as (Hout & Hin).
  split.
  - intros k x Hk. destruct (String.eqb k (session_id session)) eqn:Ek.
    + apply String.eqb_eq in Ek. subst k. rewrite Hs0 in Hk. injection Hk as <-.
      destruct Hin as [Hin | (now & res & st & Hst & Hin)].
      * exists session. split; [exact Hin | apply status_step_refl].
      * eexists. split; [exact Hin|].
        rewrite advance_status by (destruct Hst as [-> | ->]; discriminate).
        rewrite Eact. destruct Hst as [-> | ->]; [now left | right; left; auto].
    + apply String.eqb_neq in Ek. rewrite (Hout k Ek). now apply Hflip.
  - intros Hnone k x Hk Hst.
    assert (Hne : k <> session_id session).
    { intros ->. rewrite Hs0 in Hk. injection Hk as <-. now apply Hst. }
    rewrite (Hout k Hne). now apply HD.
Qed.

Lemma list_sessions_store s c s' :
  store_wf s ->
  list_sessions w cfg s = (c, s') ->
  forall k x, od_get (sessions s) k = Some x ->
    exists x', od_get (sessions s') k = Some x'
               /\ status_step (status x) (status x').
Proof.
  intros Hwf H k x Hk.
  destruct (list_active_sessions_run w cfg s Hwf) as (act & s1 & Hrun & Hswept & _).
  unfold list_sessions in H. rewrite (bind_Return _ _ _ _ _ Hrun) in H.
  injection H as _ <-. rewrite Hswept, Hk. simpl. eexists. split; [reflexivity|].
  apply swept_status_step.
Qed.

Lemma keeps_store_run_prepared_stateless sid prov dev tsk task_to_run max_steps extra
    timeout_sec :
  keeps_store (run_prepared w sid prov dev tsk task_to_run max_steps extra true timeout_sec).
Proof.
  unfold run_prepared. apply keeps_store_bind.
  - apply keeps_store_try_except.
    + apply keeps_store_bind; [apply keeps_store_start_under_timeout|].
      intros; apply keeps_store_ret.
    + intros; apply keeps_store_ret.
  - intros [res|f]; [|apply keeps_store_ret].
    unfold _process_result. simpl.
    apply keeps_store_bind; [apply keeps_store_observe_post|]. intros post.
    apply keeps_store_bind; [apply keeps_store_ret|]. intros n. apply keeps_store_ret.
Qed.

(** [execute_task] changes the store at most under the id of the session it
    creates, which it leaves active or completed. *)
Lemma execute_task_store tsk prov dev max_steps timeout_sec extra stateless s c s' :
  execute_task w cfg tsk prov dev max_steps timeout_sec extra stateless s = (c, s') ->
  forall k,
    od_get (sessions s') k = od_get (sessions s) k
    \/ (k = created_id w s
        /\ exists x', od_get (sessions s') k = Some x'
                      /\ (status x' = "active"%string \/ status x' = "completed"%string)).
Proof.
  intros H k. unfold execute_task in H.
  destruct (tap_only_mode cfg); [injection H as _ <-; now left|].
  destruct (negb (truthy_str (effective_provider cfg prov)));
    [injection H as _ <-; now left|].
  destruct (effective_max_steps cfg stateless max_steps <=? 0);
    [injection H as _ <-; now left|].
  destruct (validate_provider w (effective_provider cfg prov)) as [valid msg].
  destruct (negb valid); [injection H as _ <-; now left|].
  set (sel := try_except (let! d := _select_device w cfg dev in ret (inl d))
                is_ExecutorError
                (fun e => ret (inr [ ("success", PBool false);
                                     ("error", PStr (str_exn e));
                                     ("message", PStr (str_exn e)) ]%string))) in H.
  assert (Hsel : keeps_store sel).
  { apply keeps_store_try_except.
    - apply keeps_store_bind; [apply keeps_store_select_device|].
      intros; apply keeps_store_ret.
    - intros; apply keeps_store_ret. }
  apply bind_cases in H as [(selected & s0 & Hs0 & H) | [(e & Hs0 & _) | (Hs0 & _)]];
    pose proof (Hsel s _ _ Hs0) as (Hstore0 & _);
    [|left; now rewrite Hstore0 | left; now rewrite Hstore0].
  destruct selected as [d|failure];
    [|injection H as _ <-; left; now rewrite Hstore0].
  assert (Hlog0 : log s0 = log s ++ [EvListDevices]).
  { unfold sel, try_except in Hs0.
    destruct ((let! d := _select_device w cfg dev in ret (inl d)) s)
      as [[a|e|] s0'] eqn:E.
    - injection Hs0 as -> ->. unfold bind in E.
      destruct (_select_device w cfg dev s) as [[d'|e|] s0''] eqn:E'; try discriminate.
      injection E as E1 E2. subst.
      match goal with
      | E0 : _select_device _ _ _ _ = (Return _, ?z) |- log ?z = _ =>
          now rewrite (select_device_log _ _ _ _ _ _ E0)
      end.
    - destruct (is_ExecutorError e); discriminate.
    - discriminate. }
  destruct stateless.
  - (* stateless: nothing touches the store *)
    left. rewrite <- Hstore0.
    apply bind_cases in H as [(prepared & s1 & Hp & H) | [(e & Hp & _) | (Hp & _)]].
    + unfold bind, ask, ret in Hp. injection Hp as <- <-.
      pose proof (keeps_store_run_prepared_stateless _ _ _ _ _ _ _ _ _ _ _ H)
        as (Hs & _).
      now rewrite Hs.
    + unfold bind, ask, ret in Hp. discriminate.
    + unfold bind, ask, ret in Hp. discriminate.
  - (* stateful: the created session is the only entry that may differ *)
    destruct (create_session_result w d (effective_provider cfg prov) tsk s0)
      as (session & s1 & Hcreate & Hsession & Hmem & _ & Hother & _).
    rewrite (bind_Return _ _ _ _ _
               (eq_trans (bind_Return _ _ _ _ _ Hcreate) eq_refl)) in H.
    cbv beta iota in H.
    destruct (run_prepared_stateful_store w _ _ _ _ _ _ _ _ _ _ _ _ Hmem H)
      as (Hout & Hin).
    assert (Hid : session_id session = created_id w s).
    { rewrite Hsession. simpl. unfold created_id. now rewrite Hlog0. }
    destruct (String.eqb k (session_id session)) eqn:Ek.
    + apply String.eqb_eq in Ek. subst k. right. split; [exact Hid|].
      destruct Hin as [Hin | (now & res & st & Hst & Hin)].
      * exists session. split; [exact Hin|]. left. now rewrite Hsession.
      * eexists. split; [exact Hin|].
        rewrite advance_status by (destruct Hst as [-> | ->]; discriminate).
        exact Hst.
    + apply String.eqb_neq in Ek. left.
      rewrite (Hout k Ek), (Hother k Ek). now rewrite Hstore0.
Qed.

End EntryPointStores.

(** C6 (amended). On a well-formed store, every operation of the executor
    moves the status of a stored session only along these steps: it stays,
    it goes from active to completed, or it becomes expired (from any
    status: the lazy expiry on read looks at the age alone, so a completed
    session that is read after the limit becomes expired too).  A session
    created by [execute_task] is stored as active, or as completed when its
    first result completes it; no other entry changes in that call.  The
    continue path with no id never touches a session that is not active, and
    an explicit continue request for such a session gets the structured
    rejection, with the session's step count and history left alone and no
    adapter interaction. *)
Theorem session_status_transitions (w : world) (cfg : SkillConfig) (s : state) :
  store_wf s ->
  (forall sid reply tsk dev max_steps timeout_sec c s' k x,
     continue_session w cfg sid reply tsk dev max_steps timeout_sec s = (c, s') ->
     od_get (sessions s) k = Some x ->
     exists x', od_get (sessions s') k = Some x'
                /\ status_step (status x) (status x'))
  /\ (forall c s' k x,
        list_sessions w cfg s = (c, s') ->
        od_get (sessions s) k = Some x ->
        exists x', od_get (sessions s') k = Some x'
                   /\ status_step (status x) (status x'))
  /\ (forall tsk prov dev max_steps timeout_sec extra stateless c s' k,
        execute_task w cfg tsk prov dev max_steps timeout_sec extra stateless s = (c, s') ->
        od_get (sessions s') k = od_get (sessions s) k
        \/ (k = created_id w s
            /\ exists x', od_get (sessions s') k = Some x'
                          /\ (status x' = "active"%string
                              \/ status x' = "completed"%string)))
  /\ (forall reply tsk dev max_steps timeout_sec c s' k x,
        continue_session w cfg None reply tsk dev max_steps timeout_sec s = (c, s') ->
        od_get (sessions s) k = Some x ->
        status x <> "active"%string ->
        od_get (sessions s') k = Some x)
  /\ (forall id reply tsk dev max_steps timeout_sec x,
        tap_only_mode cfg = false ->
        od_get (sessions s) id = Some x ->
        status x <> "active"%string ->
        exists st s' kept,
          continue_session w cfg (Some id) reply tsk dev max_steps timeout_sec s
            = (Return (not_active_rejection st), s')
          /\ (st = status x \/ st = "expired"%string)
          /\ st <> "active"%string
          /\ od_get (sessions s') id = Some kept
          /\ status kept = st
          /\ step_count kept = step_count x
          /\ history kept = history x
          /\ (log s' = log s ++ [EvTime]
              \/ log s' = log s ++ [EvTime; EvSave (session_id x)])).
Proof.
  intros Hwf. split; [|split; [|split; [|split]]].
  - intros sid reply tsk dev max_steps timeout_sec c s' k x H Hk.
    exact (proj1 (continue_session_store w cfg sid reply tsk dev max_steps
                    timeout_sec s c s' Hwf H) k x Hk).
  - intros c s' k x H Hk. exact (list_sessions_store w cfg s c s' Hwf H k x Hk).
  - intros tsk prov dev max_steps timeout_sec extra stateless c s' k H.
    exact (execute_task_store w cfg tsk prov dev max_steps timeout_sec extra
             stateless s c s' H k).
  - intros reply tsk dev max_steps timeout_sec c s' k x H Hk Hst.
    exact (proj2 (continue_session_store w cfg None reply tsk dev max_steps
                    timeout_sec s c s' Hwf H) eq_refl k x Hk Hst).
  - intros id reply tsk dev max_steps timeout_sec x Htap Hx Hst.
    set (now := time_time w (log s)).
    pose proof (as_read_inactive cfg now x Hst) as Hst'.
    exists (status (as_read cfg now x)), (read_state cfg now id x s), (as_read cfg now x).
    split; [exact (continue_session_rejects w cfg id reply tsk dev max_steps
                     timeout_sec s x Htap Hx Hst')|].
    split; [apply as_read_status|]. split; [exact Hst'|].
    split; [apply (read_state_sessions cfg now id x s Hx)|].
    split; [reflexivity|].
    destruct (as_read_fields cfg now x) as (_ & Hc & Hh & _).
    split; [exact Hc|]. split; [exact Hh|].
    unfold read_state. destruct (is_expired cfg now x); [right | now left].
    unfold updated_state. simpl. now rewrite <- app_assoc.
Qed.

Lemma demo_completed_state_wf : store_wf demo_completed_state.
Proof.
  split.
  - apply NoDup_singleton.
  - repeat constructor.
Defined.

Lemma session_status_transitions_witness :
  exists st s',
    continue_session (demo_world clock_5000 [] (prompt_return PNone)) demo_config
      (Some "0f8fad5b"%string) None None None None None demo_completed_state
    = (Return (not_active_rejection st), s')
    /\ st <> "active"%string.
Proof.
  destruct (proj2 (proj2 (proj2 (proj2
              (session_status_transitions
                 (demo_world clock_5000 [] (prompt_return PNone)) demo_config
                 demo_completed_state demo_completed_state_wf))))
              "0f8fad5b"%string None None None None None demo_completed_session)
    as (st & s' & kept & Hrun & _ & Hst & _);
    [reflexivity | reflexivity | discriminate |].
  exists st, s'. split; [exact Hrun | exact Hst].
Defined.

(** C6 as stated fails: reading a completed session after the expiry limit
    (here through an explicit continue request at time 5000 for a session
    last updated at time 1000, with a limit of 3600 seconds) turns it into an
    expired one, a step from completed that the specification does not list. *)
Lemma completed_session_becomes_expired :
  status_of demo_completed_state "0f8fad5b" = "completed"%string
  /\ status_of
       (snd (continue_session (demo_world clock_5000 [] (prompt_return PNone))
               demo_config (Some "0f8fad5b"%string) None None None None None
               demo_completed_state))
       "0f8fad5b" = "expired"%string
  /\ ~ status_step_as_specified "completed" "expired".
Proof.
  split; [reflexivity|]. split; [vm_compute; reflexivity|].
  intros [H | [[H _] | [H _]]]; discriminate H.
Qed.

(* ===================================================================== *)
(** ** Binary64 arithmetic: the exact cases *)
(* ===================================================================== *)

Lemma digits2_pos_bounds (p : positive) :
  2 ^ (Z.pos (digits2_pos p) - 1) <= Z.pos p < 2 ^ Z.pos (digits2_pos p).
Proof.
  induction p as [p IH|p IH|]; cbn [digits2_pos].
  - rewrite Pos2Z.inj_succ.
    replace (Z.succ (Z.pos (digits2_pos p)) - 1) with (Z.succ (Z.pos (digits2_pos p) - 1)) by lia.
    rewrite !Z.pow_succ_r by lia. lia.
  - rewrite Pos2Z.inj_succ.
    replace (Z.succ (Z.pos (digits2_pos p)) - 1) with (Z.succ (Z.pos (digits2_pos p) - 1)) by lia.
    rewrite !Z.pow_succ_r by lia. lia.
  - simpl. lia.
Qed.

Lemma digits2_pos_unique (p : positive) (d : Z) :
  2 ^ (d - 1) <= Z.pos p < 2 ^ d -> Z.pos (digits2_pos p) = d.
Proof.
  intros [Hlo Hhi]. pose proof (digits2_pos_bounds p) as [Hlo' Hhi'].
  assert (0 < d).
  { destruct (Z_lt_le_dec 0 d) as [|Hd]; [assumption|].
    assert (2 ^ d <= 2 ^ 0) by (apply Z.pow_le_mono_r; lia). simpl in *. lia. }
  destruct (Z.lt_trichotomy (Z.pos (digits2_pos p)) d) as [Hlt|[Heq|Hgt]]; [|assumption|].
  - assert (2 ^ Z.pos (digits2_pos p) <= 2 ^ (d - 1)) by (apply Z.pow_le_mono_r; lia). lia.
  - assert (2 ^ d <= 2 ^ (Z.pos (digits2_pos p) - 1)) by (apply Z.pow_le_mono_r; lia). lia.
Qed.

Lemma iter_xO_value (m k : positive) : Z.pos (Pos.iter xO m k) = Z.pos m * 2 ^ Z.pos k.
Proof.
  induction k as [|k IH] using Pos.peano_ind.
  - simpl. lia.
  - rewrite Pos.iter_succ, Pos2Z.inj_succ, Z.pow_succ_r by lia.
    rewrite Pos2Z.inj_xO, IH. lia.
Qed.

(** Shifting out [k] zero bits leaves an exact record. *)
Lemma shr_zero_bits (k a : positive) :
  SpecFloat.iter_pos shr_1 k {| shr_m := Z.pos (Pos.iter xO a k); shr_r := false; shr_s := false |}
  = {| shr_m := Z.pos a; shr_r := false; shr_s := false |}.
Proof.
  revert a. induction k as [k IH|k IH|]; intros a; cbn [SpecFloat.iter_pos Pos.iter].
  - cbn [shr_1 orb]. now rewrite !IH.
  - now rewrite !IH.
  - reflexivity.
Qed.


Lemma full_mantissa_digits (a : positive) :
  full_mantissa a -> Z.pos (digits2_pos a) = 53.
Proof. intros H. apply digits2_pos_unique. exact H. Qed.

Lemma shifted_mantissa_digits (M a : positive) (k : Z) :
  Z.pos M = Z.pos a * 2 ^ k -> 0 <= k -> full_mantissa a ->
  Z.pos (digits2_pos M) = 53 + k.
Proof.
  intros HM Hk [Hlo Hhi]. apply digits2_pos_unique. rewrite HM.
  replace (53 + k - 1) with (52 + k) by lia.
  rewrite !Z.pow_add_r by lia.
  assert (0 < 2 ^ k) by (apply Z.pow_pos_nonneg; lia).
  split; [apply Z.mul_le_mono_nonneg_r; lia | apply Z.mul_lt_mono_pos_r; lia].
Qed.

(** Rounding a mantissa that is a 53-bit one followed by [k] zero bits is
    exact. *)
Lemma binary_round_aux_exact (sx : bool) (M a : positive) (k E : Z) :
  Z.pos M = Z.pos a * 2 ^ k -> 0 <= k -> full_mantissa a ->
  -1074 <= E + k <= 971 ->
  binary_round_aux PyFloat.prec PyFloat.emax sx (Z.pos M) E loc_Exact
  = S754_finite sx a (E + k).
Proof.
  intros HM Hk Ha HE.
  pose proof (shifted_mantissa_digits M a k HM Hk Ha) as HdM.
  pose proof (full_mantissa_digits a Ha) as Hda.
  unfold binary_round_aux.
  assert (Hfirst : shr_fexp PyFloat.prec PyFloat.emax (Z.pos M) E loc_Exact
                   = ({| shr_m := Z.pos a; shr_r := false; shr_s := false |}, E + k)).
  { unfold shr_fexp, fexp, emin, PyFloat.prec, PyFloat.emax. cbn [Zdigits2].
    rewrite HdM.
    replace (Z.max (53 + k + E - 53) (3 - 1024 - 53) - E) with k by lia.
    unfold shr, shr_record_of_loc.
    destruct k as [|p|p]; [| |lia].
    - rewrite Z.pow_0_r, Z.mul_1_r in HM. injection HM as ->.
      now rewrite Z.add_0_r.
    - rewrite <- iter_xO_value in HM. injection HM as ->.
      now rewrite shr_zero_bits. }
  rewrite Hfirst. cbn [shr_m loc_of_shr_record round_nearest_even].
  assert (Hsecond : shr_fexp PyFloat.prec PyFloat.emax (Z.pos a) (E + k) loc_Exact
                    = ({| shr_m := Z.pos a; shr_r := false; shr_s := false |}, E + k)).
  { unfold shr_fexp, fexp, emin, PyFloat.prec, PyFloat.emax. cbn [Zdigits2].
    rewrite Hda.
    replace (Z.max (53 + (E + k) - 53) (3 - 1024 - 53) - (E + k)) with 0 by lia.
    reflexivity. }
  rewrite Hsecond. cbn [shr_m].
  unfold PyFloat.emax, PyFloat.prec.
  destruct (E + k <=? 1024 - 53) eqn:Hle; [reflexivity|].
  apply Z.leb_gt in Hle. lia.
Qed.

(** The product of two finite floats whose mantissa product is a 53-bit
    number followed by zero bits. *)
Lemma mul_exact (sx sy : bool) (mx my a : positive) (ex ey k : Z) :
  Z.pos mx * Z.pos my = Z.pos a * 2 ^ k -> 0 <= k -> full_mantissa a ->
  -1074 <= ex + ey + k <= 971 ->
  PyFloat.mul (S754_finite sx mx ex) (S754_finite sy my ey)
  = S754_finite (xorb sx sy) a (ex + ey + k).
Proof.
  intros HM Hk Ha HE. unfold PyFloat.mul, SFmul.
  apply binary_round_aux_exact; auto.
Qed.

(** An integer below [2^53] converts exactly. *)
Lemma of_int_exact (n : Z) :
  0 < n < 2 ^ 53 ->
  exists (m : positive) (j : Z),
    PyFloat.of_int n = Return (S754_finite false m (- j))
    /\ binary_normalize PyFloat.prec PyFloat.emax n 0 false = S754_finite false m (- j)
    /\ 0 <= j <= 52
    /\ Z.pos m = n * 2 ^ j
    /\ full_mantissa m.
Proof.
  intros [Hpos Hlt]. destruct n as [|p|p]; try lia.
  pose proof (digits2_pos_bounds p) as [Hlo Hhi].
  set (d := Z.pos (digits2_pos p)) in *.
  assert (Hd : 1 <= d <= 53).
  { split; [unfold d; lia|].
    destruct (Z_le_gt_dec d 53) as [|Hgt]; [assumption|].
    assert (2 ^ 53 <= 2 ^ (d - 1)) by (apply Z.pow_le_mono_r; lia). lia. }
  assert (Hnorm : exists m, binary_normalize PyFloat.prec PyFloat.emax (Z.pos p) 0 false
                            = S754_finite false m (- (53 - d))
                            /\ Z.pos m = Z.pos p * 2 ^ (53 - d) /\ full_mantissa m).
  { unfold binary_normalize, binary_round, shl_align, fexp, emin,
      PyFloat.prec, PyFloat.emax.
    fold d. rewrite Z.add_0_r.
    replace (Z.max (d - 53) (3 - 1024 - 53) - 0) with (d - 53) by lia.
    replace (Z.max (d - 53) (3 - 1024 - 53)) with (d - 53) by lia.
    assert (Hfull : forall m, Z.pos m = Z.pos p * 2 ^ (53 - d) -> full_mantissa m).
    { intros m Hm. unfold full_mantissa. rewrite Hm.
      replace (2 ^ 52) with (2 ^ (d - 1) * 2 ^ (53 - d))
        by (rewrite <- Z.pow_add_r by lia; f_equal; lia).
      replace (2 ^ 53) with (2 ^ d * 2 ^ (53 - d))
        by (rewrite <- Z.pow_add_r by lia; f_equal; lia).
      assert (0 < 2 ^ (53 - d)) by (apply Z.pow_pos_nonneg; lia).
      split; [apply Z.mul_le_mono_nonneg_r; lia | apply Z.mul_lt_mono_pos_r; lia]. }
    destruct (d - 53) as [|q|q] eqn:Edq; [| lia |].
    - assert (Hm : Z.pos p = Z.pos p * 2 ^ (53 - d)).
      { replace (53 - d) with 0 by lia. lia. }
      exists p. replace (- (53 - d)) with 0 by lia.
      split; [|split; [exact Hm | exact (Hfull p Hm)]].
      pose proof (binary_round_aux_exact false p p 0 0) as Hr.
      rewrite Z.add_0_r in Hr. apply Hr; [lia | lia | exact (Hfull p Hm) | lia].
    - assert (Hm : Z.pos (Pos.iter xO p q) = Z.pos p * 2 ^ (53 - d)).
      { rewrite iter_xO_value. f_equal. f_equal. lia. }
      exists (Pos.iter xO p q).
      replace (- (53 - d)) with (Z.neg q) by lia.
      split; [|split; [exact Hm | exact (Hfull _ Hm)]].
      pose proof (binary_round_aux_exact false (Pos.iter xO p q) (Pos.iter xO p q)
                    0 (Z.neg q)) as Hr.
      rewrite Z.add_0_r in Hr. apply Hr; [lia | lia | exact (Hfull _ Hm) | lia]. }
  destruct Hnorm as (m & Hnorm & Hm & Hfull).
  exists m, (53 - d). unfold PyFloat.of_int. rewrite Hnorm.
  repeat split; try lia; try assumption; apply Hfull.
Qed.

(* ===================================================================== *)
(** ** The clamping example: x = 1.5, y = 0.5 in ratio space *)
(* ===================================================================== *)

Lemma round_half_even_pos_floor (a k : positive) :
  Z.pos a / 2 ^ Z.pos k <= PyFloat.round_half_even_pos a (Z.neg k).
Proof.
  unfold PyFloat.round_half_even_pos. change (Z.pow_pos 2 k) with (2 ^ Z.pos k).
  destruct (2 * (Z.pos a mod 2 ^ Z.pos k) ?= 2 ^ Z.pos k); [|lia|lia].
  destruct (Z.even (Z.pos a / 2 ^ Z.pos k)); lia.
Qed.

(** The x axis: [1.5 * n] rounds to an integer beyond [n]. *)
Lemma one_and_half_times_overshoots (n : Z) :
  1 <= n < 2 ^ 51 ->
  exists raw rx,
    PyFloat.mul_int PyFloat.one_and_half n = Return raw
    /\ PyFloat.round raw = Return rx
    /\ n < rx.
Proof.
  intros Hn.
  destruct (Z.eq_dec n 1) as [->|Hn1].
  { eexists _, _. split; [vm_compute; reflexivity|].
    split; [vm_compute; reflexivity | lia]. }
  destruct (of_int_exact n) as (m & j & Hconv & _ & Hj & Hm & Hmfull); [lia|].
  destruct (of_int_exact (3 * n)) as (a & i & _ & _ & Hi & Ha & Hafull); [lia|].
  assert (Hj2 : 2 <= j).
  { destruct (Z_le_gt_dec 2 j) as [|Hgt]; [assumption|].
    destruct Hmfull as [Hlo _]. rewrite Hm in Hlo.
    assert (2 ^ j <= 2 ^ 1) by (apply Z.pow_le_mono_r; lia).
    change (2 ^ 1) with 2 in *. nia. }
  assert (Hprod : PyFloat.mul PyFloat.one_and_half (S754_finite false m (- j))
                  = S754_finite false a (- (1 + i))).
  { unfold PyFloat.one_and_half.
    pose proof (mul_exact false false 6755399441055744 m a (-52) (- j) (51 + j - i)) as Hx.
    replace (-52 + - j + (51 + j - i)) with (- (1 + i)) in Hx by lia.
    apply Hx; [|lia|exact Hafull|lia].
    assert (Hij : i <= j).
    { destruct (Z_le_gt_dec i j); [assumption|].
      exfalso. destruct Hmfull as [Hlo _]. destruct Hafull as [_ Hhi].
      rewrite Hm in Hlo. rewrite Ha in Hhi.
      assert (Hp : 2 ^ (j + 1) <= 2 ^ i) by (apply Z.pow_le_mono_r; lia).
      rewrite Z.pow_add_r in Hp by lia. change (2 ^ 1) with 2 in Hp.
      change (2 ^ 52) with 4503599627370496 in Hlo.
      change (2 ^ 53) with 9007199254740992 in Hhi.
      assert (0 < 2 ^ j) by (apply Z.pow_pos_nonneg; lia). nia. }
    rewrite Hm, Ha.
    replace (2 ^ j) with (2 ^ i * 2 ^ (j - i))
      by (rewrite <- Z.pow_add_r by lia; f_equal; lia).
    replace (51 + j - i) with (51 + (j - i)) by lia.
    rewrite (Z.pow_add_r 2 51 (j - i)) by lia.
    change (2 ^ 51) with 2251799813685248. lia. }
  exists (S754_finite false a (- (1 + i))).
  destruct (1 + i) as [|k|k] eqn:Ek; try lia.
  exists (PyFloat.round_half_even_pos a (Z.neg k)).
  split.
  { unfold PyFloat.mul_int. rewrite Hconv. cbn [cbind]. now rewrite Hprod. }
  split; [reflexivity|].
  pose proof (round_half_even_pos_floor a k) as Hfloor.
  assert (Hq : Z.pos a / 2 ^ Z.pos k = 3 * n / 2).
  { rewrite Ha, <- Ek, Z.pow_add_r by lia. change (2 ^ 1) with 2.
    apply Z.div_mul_cancel_r; [lia|].
    assert (0 < 2 ^ i) by (apply Z.pow_pos_nonneg; lia). lia. }
  rewrite Hq in Hfloor.
  assert (n + 1 <= 3 * n / 2) by (apply Z.div_le_lower_bound; lia).
  lia.
Qed.

(** The y axis: [0.5 * n] is a number, so rounding returns. *)
Lemma half_times_rounds (n : Z) :
  0 <= n < 2 ^ 53 ->
  exists raw ry,
    PyFloat.mul_int PyFloat.half n = Return raw /\ PyFloat.round raw = Return ry.
Proof.
  intros Hn. destruct (Z.eq_dec n 0) as [->|Hn0].
  { eexists _, _. split; vm_compute; reflexivity. }
  destruct (of_int_exact n) as (m & j & Hconv & _ & Hj & Hm & Hmfull); [lia|].
  assert (Hprod : PyFloat.mul PyFloat.half (S754_finite false m (- j))
                  = S754_finite false m (- (1 + j))).
  { unfold PyFloat.half.
    pose proof (mul_exact false false 4503599627370496 m m (-53) (- j) 52) as Hx.
    replace (-53 + - j + 52) with (- (1 + j)) in Hx by lia.
    apply Hx; [|lia|exact Hmfull|lia].
    change (2 ^ 52) with 4503599627370496. lia. }
  eexists _, _. split.
  { unfold PyFloat.mul_int. rewrite Hconv. cbn [cbind]. now rewrite Hprod. }
  reflexivity.
Qed.

(* ===================================================================== *)
(** ** Binary64 arithmetic: rounding in general *)
(* ===================================================================== *)

Lemma shr_1_m (mrs : shr_record) : 0 <= shr_m mrs -> shr_m (shr_1 mrs) = shr_m mrs / 2.
Proof.
  destruct mrs as [m r s]. cbn [shr_m]. intros Hm. rewrite <- Z.div2_div.
  destruct m as [|[q|q|]|q]; [reflexivity..|lia].
Qed.

Lemma iter_shr_1_m (k : positive) : forall mrs,
  0 <= shr_m mrs -> shr_m (SpecFloat.iter_pos shr_1 k mrs) = shr_m mrs / 2 ^ Z.pos k.
Proof.
  induction k as [k IH|k IH|]; intros mrs Hm; cbn [SpecFloat.iter_pos].
  - assert (H1 : 0 <= shr_m (shr_1 mrs)) by (rewrite shr_1_m by lia; apply Z.div_pos; lia).
    assert (Hp : 0 < 2 ^ Z.pos k) by (apply Z.pow_pos_nonneg; lia).
    assert (H2 : 0 <= shr_m (SpecFloat.iter_pos shr_1 k (shr_1 mrs)))
      by (rewrite IH by lia; apply Z.div_pos; lia).
    rewrite IH, IH, shr_1_m by lia.
    rewrite !Z.div_div by lia. f_equal.
    replace (Z.pos k~1) with (1 + Z.pos k + Z.pos k) by lia.
    rewrite !Z.pow_add_r by lia. change (2 ^ 1) with 2. lia.
  - assert (Hp : 0 < 2 ^ Z.pos k) by (apply Z.pow_pos_nonneg; lia).
    assert (H2 : 0 <= shr_m (SpecFloat.iter_pos shr_1 k mrs))
      by (rewrite IH by lia; apply Z.div_pos; lia).
    rewrite IH, IH by lia. rewrite Z.div_div by lia. f_equal.
    replace (Z.pos k~0) with (Z.pos k + Z.pos k) by lia.
    rewrite Z.pow_add_r by lia. reflexivity.
  - rewrite shr_1_m by lia. reflexivity.
Qed.

Lemma round_nearest_even_cases (q : Z) (l : location) :
  round_nearest_even q l = q \/ round_nearest_even q l = q + 1.
Proof.
  destruct l as [|[| |]]; cbn [round_nearest_even]; auto.
  destruct (Z.even q); auto.
Qed.

(** Rounding a mantissa of [53 + k] bits: the result has a 53-bit mantissa
    and lies within [2^k] of the number, or is too large for the format. *)
Lemma binary_round_aux_inexact (M k : positive) (E : Z) :
  Z.pos (digits2_pos M) = 53 + Z.pos k -> -1074 <= E + Z.pos k ->
  exists (a : positive) (e : Z),
    full_mantissa a
    /\ E + Z.pos k <= e <= E + Z.pos k + 1
    /\ Z.pos M - 2 ^ Z.pos k < Z.pos a * 2 ^ (e - E) <= Z.pos M + 2 ^ Z.pos k
    /\ binary_round_aux PyFloat.prec PyFloat.emax false (Z.pos M) E loc_Exact
       = if e <=? 971 then S754_finite false a e else S754_infinity false.
Proof.
  intros HD HE.
  pose proof (digits2_pos_bounds M) as [Hlo Hhi]. rewrite HD in Hlo, Hhi.
  replace (53 + Z.pos k - 1) with (52 + Z.pos k) in Hlo by lia.
  rewrite Z.pow_add_r in Hlo, Hhi by lia.
  assert (Hp : 0 < 2 ^ Z.pos k) by (apply Z.pow_pos_nonneg; lia).
  set (q := Z.pos M / 2 ^ Z.pos k).
  assert (Hq : 2 ^ 52 <= q < 2 ^ 53).
  { unfold q. split; [apply Z.div_le_lower_bound; lia | apply Z.div_lt_upper_bound; lia]. }
  assert (HqM : q * 2 ^ Z.pos k <= Z.pos M < (q + 1) * 2 ^ Z.pos k).
  { unfold q. pose proof (Z.mul_div_le (Z.pos M) (2 ^ Z.pos k) Hp).
    pose proof (Z.mul_succ_div_gt (Z.pos M) (2 ^ Z.pos k) Hp). lia. }
  unfold binary_round_aux.
  assert (Hfirst : exists mrs,
             shr_fexp PyFloat.prec PyFloat.emax (Z.pos M) E loc_Exact = (mrs, E + Z.pos k)
             /\ shr_m mrs = q).
  { unfold shr_fexp, fexp, emin, PyFloat.prec, PyFloat.emax. cbn [Zdigits2].
    rewrite HD.
    replace (Z.max (53 + Z.pos k + E - 53) (3 - 1024 - 53) - E) with (Z.pos k) by lia.
    unfold shr, shr_record_of_loc. eexists. split; [reflexivity|].
    rewrite iter_shr_1_m by (cbn; lia). reflexivity. }
  destruct Hfirst as (mrs & -> & Hm). rewrite Hm.
  destruct (round_nearest_even_cases q (loc_of_shr_record mrs)) as [-> | ->].
  - destruct q as [|a|a] eqn:Ea; try lia.
    exists a, (E + Z.pos k).
    split; [exact Hq|]. split; [lia|]. split.
    { replace (E + Z.pos k - E) with (Z.pos k) by lia. lia. }
    assert (Hsecond : shr_fexp PyFloat.prec PyFloat.emax (Z.pos a) (E + Z.pos k) loc_Exact
                      = ({| shr_m := Z.pos a; shr_r := false; shr_s := false |},
                         E + Z.pos k)).
    { unfold shr_fexp, fexp, emin, PyFloat.prec, PyFloat.emax. cbn [Zdigits2].
      rewrite (full_mantissa_digits a Hq).
      replace (Z.max (53 + (E + Z.pos k) - 53) (3 - 1024 - 53) - (E + Z.pos k)) with 0 by lia.
      reflexivity. }
    rewrite Hsecond. cbn [shr_m]. reflexivity.
  - destruct (Z.eq_dec (q + 1) (2 ^ 53)) as [Hc|Hc].
    + rewrite Hc. exists 4503599627370496%positive, (E + Z.pos k + 1).
      split; [unfold full_mantissa; change (2 ^ 52) with 4503599627370496;
              change (2 ^ 53) with 9007199254740992; lia|].
      split; [lia|]. split.
      { replace (E + Z.pos k + 1 - E) with (1 + Z.pos k) by lia.
        rewrite Z.pow_add_r by lia. change (2 ^ 1) with 2.
        change (2 ^ 53) with 9007199254740992 in Hc. lia. }
      assert (Hsecond : shr_fexp PyFloat.prec PyFloat.emax (2 ^ 53) (E + Z.pos k) loc_Exact
                        = ({| shr_m := 4503599627370496; shr_r := false; shr_s := false |},
                           E + Z.pos k + 1)).
      { unfold shr_fexp, fexp, emin, PyFloat.prec, PyFloat.emax.
        change (Zdigits2 (2 ^ 53)) with 54.
        replace (Z.max (54 + (E + Z.pos k) - 53) (3 - 1024 - 53) - (E + Z.pos k)) with 1 by lia.
        reflexivity. }
      rewrite Hsecond. cbn [shr_m]. reflexivity.
    + destruct (q + 1) as [|a|a] eqn:Ea; try lia.
      assert (Ha : full_mantissa a) by (unfold full_mantissa; lia).
      exists a, (E + Z.pos k).
      split; [exact Ha|]. split; [lia|]. split.
      { replace (E + Z.pos k - E) with (Z.pos k) by lia. lia. }
      assert (Hsecond : shr_fexp PyFloat.prec PyFloat.emax (Z.pos a) (E + Z.pos k) loc_Exact
                        = ({| shr_m := Z.pos a; shr_r := false; shr_s := false |},
                           E + Z.pos k)).
      { unfold shr_fexp, fexp, emin, PyFloat.prec, PyFloat.emax. cbn [Zdigits2].
        rewrite (full_mantissa_digits a Ha).
        replace (Z.max (53 + (E + Z.pos k) - 53) (3 - 1024 - 53) - (E + Z.pos k)) with 0 by lia.
        reflexivity. }
      rewrite Hsecond. cbn [shr_m]. reflexivity.
Qed.

(** The conversion of an integer from [2^51] on: a 53-bit mantissa within
    one unit in the last place of the integer, or no float at all. *)
Lemma normalize_large (n : Z) :
  2 ^ 51 <= n ->
  exists (a : positive) (e : Z),
    full_mantissa a /\ -1 <= e
    /\ (Z.pos a - 1) * 2 ^ (e + 1) <= 2 * n < (Z.pos a + 1) * 2 ^ (e + 1)
    /\ binary_normalize PyFloat.prec PyFloat.emax n 0 false
       = if e <=? 971 then S754_finite false a e else S754_infinity false.
Proof.
  intros Hn. change (2 ^ 51) with 2251799813685248 in Hn.
  destruct (Z_lt_le_dec n (2 ^ 53)) as [Hlt|Hge].
  - destruct (of_int_exact n) as (m & j & _ & Hnorm & Hj & Hm & Hfull); [lia|].
    assert (Hj1 : j = 0 \/ j = 1).
    { destruct (Z_le_gt_dec j 1) as [|Hgt]; [lia|]. exfalso.
      destruct Hfull as [_ Hhi]. rewrite Hm in Hhi.
      assert (2 ^ 2 <= 2 ^ j) by (apply Z.pow_le_mono_r; lia).
      change (2 ^ 2) with 4 in *. change (2 ^ 53) with 9007199254740992 in *. nia. }
    exists m, (- j). split; [exact Hfull|]. split; [lia|].
    split; [|rewrite Hnorm; destruct Hj1 as [-> | ->]; reflexivity].
    destruct Hj1 as [-> | ->]; rewrite Hm; cbn; lia.
  - change (2 ^ 53) with 9007199254740992 in Hge.
    destruct n as [|P|P]; try lia.
    pose proof (digits2_pos_bounds P) as [Hlo Hhi].
    assert (HD : 54 <= Z.pos (digits2_pos P)).
    { destruct (Z_le_gt_dec 54 (Z.pos (digits2_pos P))) as [|Hgt]; [assumption|].
      assert (2 ^ Z.pos (digits2_pos P) <= 2 ^ 53) by (apply Z.pow_le_mono_r; lia).
      change (2 ^ 53) with 9007199254740992 in *. lia. }
    destruct (Z.pos (digits2_pos P) - 53) as [|k|k] eqn:Ek; try lia.
    assert (HDk : Z.pos (digits2_pos P) = 53 + Z.pos k) by lia.
    destruct (binary_round_aux_inexact P k 0 HDk ltac:(lia))
      as (a & e & Ha & He & Hb & Hr).
    exists a, e. split; [exact Ha|]. split; [lia|]. split.
    + rewrite Z.sub_0_r in Hb.
      assert (Hke : 2 ^ Z.pos k <= 2 ^ e) by (apply Z.pow_le_mono_r; lia).
      rewrite Z.pow_add_r by lia. change (2 ^ 1) with 2. lia.
    + rewrite <- Hr. unfold binary_normalize, binary_round, shl_align, fexp, emin,
        PyFloat.prec, PyFloat.emax.
      rewrite HDk.
      replace (Z.max (53 + Z.pos k + 0 - 53) (3 - 1024 - 53) - 0) with (Z.pos k) by lia.
      reflexivity.
Qed.

(** [1.5 * f] for a float [f] with a 53-bit mantissa: again such a float,
    less than one unit in the last place below the product, or an
    infinity. *)
Lemma one_and_half_times_rounded (a : positive) (e : Z) :
  full_mantissa a -> -1 <= e ->
  exists (b : positive) (e2 : Z),
    full_mantissa b /\ e <= e2 <= e + 2
    /\ 3 * 2 ^ 51 * Z.pos a - 2 ^ 53 < Z.pos b * 2 ^ (e2 - e + 52)
    /\ PyFloat.mul PyFloat.one_and_half (S754_finite false a e)
       = if e2 <=? 971 then S754_finite false b e2 else S754_infinity false.
Proof.
  intros Ha He. unfold PyFloat.mul, PyFloat.one_and_half, SFmul. cbn [xorb].
  set (M := (6755399441055744 * a)%positive).
  assert (HM : Z.pos M = 3 * 2 ^ 51 * Z.pos a) by (unfold M; rewrite Pos2Z.inj_mul; reflexivity).
  destruct Ha as [Hlo Hhi].
  change (2 ^ 52) with 4503599627370496 in Hlo.
  change (2 ^ 53) with 9007199254740992 in Hhi.
  change (2 ^ 51) with 2251799813685248 in HM.
  destruct (Z_lt_le_dec (Z.pos M) (2 ^ 105)) as [Hs|Hs].
  - assert (HD : Z.pos (digits2_pos M) = 53 + 52).
    { apply digits2_pos_unique. split; [|exact Hs].
      change (2 ^ (53 + 52 - 1)) with 20282409603651670423947251286016. lia. }
    destruct (binary_round_aux_inexact M 52 (-52 + e) HD ltac:(lia))
      as (b & e2 & Hb & He2 & Hbd & Hr).
    exists b, e2. split; [exact Hb|]. split; [lia|]. split; [|exact Hr].
    replace (e2 - e + 52) with (e2 - (-52 + e)) by lia.
    change (2 ^ 53) with 9007199254740992.
    change (2 ^ 51) with 2251799813685248.
    change (2 ^ 52) with 4503599627370496 in Hbd. lia.
  - assert (HD : Z.pos (digits2_pos M) = 53 + 53).
    { apply digits2_pos_unique. split; [exact Hs|].
      change (2 ^ (53 + 53)) with 81129638414606681695789005144064. lia. }
    destruct (binary_round_aux_inexact M 53 (-52 + e) HD ltac:(lia))
      as (b & e2 & Hb & He2 & Hbd & Hr).
    exists b, e2. split; [exact Hb|]. split; [lia|]. split; [|exact Hr].
    replace (e2 - e + 52) with (e2 - (-52 + e)) by lia.
    change (2 ^ 53) with 9007199254740992 in *.
    change (2 ^ 51) with 2251799813685248. lia.
Qed.

(** Rounding a positive float of exponent at least -1 loses less than one
    half. *)
Lemma round_finite_lower (b : positive) (e : Z) :
  -1 <= e ->
  exists rx, PyFloat.round (S754_finite false b e) = Return rx
             /\ Z.pos b * 2 ^ (e + 1) - 1 <= 2 * rx.
Proof.
  intros He. cbn [PyFloat.round cond_Zopp]. eexists. split; [reflexivity|].
  destruct e as [|p|p].
  - cbn. lia.
  - unfold PyFloat.round_half_even_pos. rewrite Z.pow_add_r by lia.
    change (2 ^ 1) with 2. lia.
  - assert (p = 1%positive) as -> by lia.
    pose proof (round_half_even_pos_floor b 1) as Hf. change (2 ^ 1) with 2 in Hf.
    change (Z.neg 1 + 1) with 0. rewrite Z.pow_0_r.
    pose proof (Z.mul_succ_div_gt (Z.pos b) 2 ltac:(lia)). lia.
Qed.

(* ===================================================================== *)
(** ** The clamping example on a screen of any size *)
(* ===================================================================== *)

(** The x axis on any screen: when [1.5 * n] is a number, it rounds to an
    integer beyond [n]. *)
Lemma product_one_and_half_overshoots (n : Z) :
  1 <= n -> is_finite (product PyFloat.one_and_half n) = true ->
  exists rx, PyFloat.round (product PyFloat.one_and_half n) = Return rx /\ n < rx.
Proof.
  intros Hn Hfin.
  destruct (Z_lt_le_dec n (2 ^ 51)) as [Hs|Hl].
  - destruct (one_and_half_times_overshoots n) as (raw & rx & Hx & Hrx & Hover); [lia|].
    exists rx. split; [|exact Hover]. rewrite <- Hrx. f_equal.
    unfold PyFloat.mul_int, PyFloat.of_int in Hx. unfold product.
    destruct (binary_normalize PyFloat.prec PyFloat.emax n 0 false);
      cbn [cbind] in Hx; congruence.
  - destruct (normalize_large n Hl) as (a & e & Ha & He & Hb & Hnorm).
    unfold product in *. rewrite Hnorm in *.
    destruct (e <=? 971); [|discriminate Hfin].
    destruct (one_and_half_times_rounded a e Ha He) as (b & e2 & Hbf & He2 & Hbd & Hmul).
    rewrite Hmul in *.
    destruct (e2 <=? 971); [|discriminate Hfin].
    destruct (round_finite_lower b e2 ltac:(lia)) as (rx & Hrx & Hlow).
    exists rx. split; [exact Hrx|].
    assert (Hpe : 0 < 2 ^ (e + 1)) by (apply Z.pow_pos_nonneg; lia).
    assert (Hpd : 0 < 2 ^ (e2 - e)) by (apply Z.pow_pos_nonneg; lia).
    replace (e2 - e + 52) with ((e2 - e) + 52) in Hbd by lia.
    rewrite Z.pow_add_r in Hbd by lia.
    replace (e2 + 1) with ((e2 - e) + (e + 1)) in Hlow by lia.
    rewrite Z.pow_add_r in Hlow by lia.
    destruct Ha as [Halo _].
    change (2 ^ 52) with 4503599627370496 in *.
    change (2 ^ 53) with 9007199254740992 in *.
    change (2 ^ 51) with 2251799813685248 in *.
    set (X := Z.pos b * 2 ^ (e2 - e)) in *.
    assert (HX : Z.pos a + 3 <= X).
    { replace (Z.pos b * (2 ^ (e2 - e) * 4503599627370496)) with (X * 4503599627370496)
        in Hbd by (unfold X; lia). lia. }
    assert (HXP : (Z.pos a + 3) * 2 ^ (e + 1) <= X * 2 ^ (e + 1))
      by (apply Z.mul_le_mono_nonneg_r; lia).
    replace (Z.pos b * (2 ^ (e2 - e) * 2 ^ (e + 1))) with (X * 2 ^ (e + 1))
      in Hlow by (unfold X; lia).
    lia.
Qed.

Lemma finite_product_mul_int (x : float) (n : Z) :
  is_finite (product x n) = true -> PyFloat.mul_int x n = Return (product x n).
Proof.
  unfold PyFloat.mul_int, PyFloat.of_int, product.
  destruct (binary_normalize PyFloat.prec PyFloat.emax n 0 false) as [s|s| |s m e];
    try reflexivity.
  destruct x as [sx|sx| |sx mx ex]; discriminate.
Qed.

(** [1.5 * n] is a number, or [n] is beyond the floats, or the product is
    the positive infinity. *)
Lemma product_one_and_half_cases (n : Z) :
  1 <= n ->
  is_finite (product PyFloat.one_and_half n) = true
  \/ PyFloat.of_int n = Raise (OverflowError "int too large to convert to float")
  \/ PyFloat.mul_int PyFloat.one_and_half n = Return (S754_infinity false).
Proof.
  intros Hn. destruct (Z_lt_le_dec n (2 ^ 51)) as [Hs|Hl].
  - left. destruct (one_and_half_times_overshoots n) as (raw & rx & Hx & Hrx & _); [lia|].
    assert (E : product PyFloat.one_and_half n = raw).
    { unfold PyFloat.mul_int, PyFloat.of_int in Hx. unfold product.
      destruct (binary_normalize PyFloat.prec PyFloat.emax n 0 false);
        cbn [cbind] in Hx; congruence. }
    rewrite E. destruct raw; try discriminate Hrx; reflexivity.
  - destruct (normalize_large n Hl) as (a & e & Ha & He & _ & Hnorm).
    unfold product, PyFloat.mul_int, PyFloat.of_int. rewrite Hnorm.
    destruct (e <=? 971); [|right; left; reflexivity].
    destruct (one_and_half_times_rounded a e Ha He) as (b & e2 & _ & _ & _ & Hmul).
    cbn [cbind]. rewrite Hmul.
    destruct (e2 <=? 971); [left; reflexivity | right; right; reflexivity].
Qed.

(** [0.5 * n] is a number unless [n] is beyond the floats. *)
Lemma product_half_cases (n : Z) :
  0 <= n ->
  is_finite (product PyFloat.half n) = true
  \/ PyFloat.of_int n = Raise (OverflowError "int too large to convert to float").
Proof.
  intros Hn.
  assert (Hhalf : forall (a : positive) (e : Z),
            full_mantissa a -> -1073 <= e <= 971 ->
            PyFloat.mul PyFloat.half (S754_finite false a e) = S754_finite false a (e - 1)).
  { intros a e Ha He. unfold PyFloat.half.
    pose proof (mul_exact false false 4503599627370496 a a (-53) e 52) as Hx.
    replace (-53 + e + 52) with (e - 1) in Hx by lia.
    apply Hx; [|lia|exact Ha|lia].
    change (2 ^ 52) with 4503599627370496. lia. }
  destruct (Z.eq_dec n 0) as [->|Hn0]; [left; reflexivity|].
  destruct (Z_lt_le_dec n (2 ^ 53)) as [Hs|Hl].
  - left. destruct (of_int_exact n) as (m & j & _ & Hnorm & Hj & _ & Hfull); [lia|].
    unfold product. rewrite Hnorm, Hhalf by (auto; lia). reflexivity.
  - destruct (normalize_large n) as (a & e & Ha & He & _ & Hnorm).
    { change (2 ^ 53) with 9007199254740992 in Hl.
      change (2 ^ 51) with 2251799813685248. lia. }
    unfold product, PyFloat.of_int. rewrite Hnorm.
    destruct (e <=? 971) eqn:E; [|right; reflexivity].
    apply Z.leb_le in E. left. rewrite Hhalf by (auto; lia). reflexivity.
Qed.

(** Sizes below [2^1021] are within the range: both products are numbers. *)
Lemma products_finite_below_2_1021 (n : Z) :
  0 <= n < 2 ^ 1021 ->
  is_finite (product PyFloat.one_and_half n) = true
  /\ is_finite (product PyFloat.half n) = true.
Proof.
  intros Hn.
  destruct (Z_lt_le_dec n (2 ^ 51)) as [Hs|Hl].
  - split.
    + destruct (Z.eq_dec n 0) as [->|Hn0]; [reflexivity|].
      destruct (product_one_and_half_cases n) as [F | [O | I]]; [lia|exact F| |].
      * destruct (of_int_exact n) as (m & j & Hc & _); [|congruence].
        assert (2 ^ 51 < 2 ^ 53) by (apply Z.pow_lt_mono_r; lia). lia.
      * destruct (one_and_half_times_overshoots n) as (raw & rx & Hx & Hrx & _); [lia|].
        rewrite I in Hx. injection Hx as <-. discriminate Hrx.
    + destruct (product_half_cases n) as [F | O]; [lia|exact F|].
      destruct (Z.eq_dec n 0) as [->|Hn0]; [discriminate O|].
      destruct (of_int_exact n) as (m & j & Hc & _); [|congruence].
      assert (2 ^ 51 < 2 ^ 53) by (apply Z.pow_lt_mono_r; lia). lia.
  - destruct (normalize_large n Hl) as (a & e & Ha & He & Hb & Hnorm).
    assert (He' : e <= 969).
    { destruct (Z_le_gt_dec e 969) as [|Hgt]; [assumption|]. exfalso.
      destruct Ha as [Halo _]. change (2 ^ 52) with 4503599627370496 in Halo.
      assert (Hp : 2 ^ 971 <= 2 ^ (e + 1)) by (apply Z.pow_le_mono_r; lia).
      assert (Hq : 2 ^ 1021 = 2 ^ 50 * 2 ^ 971) by (rewrite <- Z.pow_add_r by lia; reflexivity).
      assert (0 < 2 ^ 971) by (apply Z.pow_pos_nonneg; lia).
      change (2 ^ 50) with 1125899906842624 in Hq.
      assert ((Z.pos a - 1) * 2 ^ 971 <= (Z.pos a - 1) * 2 ^ (e + 1))
        by (apply Z.mul_le_mono_nonneg_l; lia).
      nia. }
    unfold product. rewrite Hnorm.
    assert (E : (e <=? 971) = true) by (apply Z.leb_le; lia). rewrite E.
    destruct (one_and_half_times_rounded a e Ha He) as (b & e2 & _ & He2 & _ & Hmul).
    rewrite Hmul.
    assert (E2 : (e2 <=? 971) = true) by (apply Z.leb_le; lia). rewrite E2.
    split; [reflexivity|].
    destruct (product_half_cases n) as [F | O]; [lia| |].
    + unfold product in F. rewrite Hnorm, E in F. exact F.
    + unfold PyFloat.of_int in O. rewrite Hnorm, E in O. discriminate O.
Qed.

(** C8 (amended). On every screen at least two pixels wide, resolving
    x = 1.5, y = 0.5 in ratio space succeeds with the clamped flag set and
    the tap x equal to the width minus 1 whenever the two products
    [1.5 * (width - 1)] and [0.5 * (height - 1)] are binary64 numbers; on
    the remaining screens, whose size is beyond the range of binary64, the
    resolution raises OverflowError.  The products are numbers for every
    size up to [2^1021]. *)
Theorem overshoot_is_clamped (w h : Z) :
  2 <= w -> 1 <= h ->
  (if is_finite (product PyFloat.one_and_half (w - 1))
      && is_finite (product PyFloat.half (h - 1))
   then overshoot_clamped w h
   else exists msg,
          _resolve_tap_coordinate PyFloat.one_and_half PyFloat.half "ratio" w h
          = Raise (OverflowError msg))
  /\ (w <= 2 ^ 1021 -> h <= 2 ^ 1021 ->
      is_finite (product PyFloat.one_and_half (w - 1))
      && is_finite (product PyFloat.half (h - 1)) = true).
Proof.
  intros Hw Hh. split.
  2:{ intros Hw' Hh'.
      destruct (products_finite_below_2_1021 (w - 1)) as [-> _]; [lia|].
      destruct (products_finite_below_2_1021 (h - 1)) as [_ ->]; [lia|]. reflexivity. }
  unfold overshoot_clamped, _resolve_tap_coordinate.
  destruct ((w <=? 0) || (h <=? 0)) eqn:Hdim.
  { apply orb_true_iff in Hdim as [H|H]; apply Z.leb_le in H; lia. }
  cbn [String.eqb Ascii.eqb Bool.eqb].
  destruct (is_finite (product PyFloat.one_and_half (w - 1))) eqn:Fx;
    [destruct (is_finite (product PyFloat.half (h - 1))) eqn:Fy|]; cbn [andb].
  - destruct (product_one_and_half_overshoots (w - 1)) as (rx & Hrx & Hover); [lia|exact Fx|].
    rewrite (finite_product_mul_int _ _ Fx), (finite_product_mul_int _ _ Fy).
    cbn [cbind fst snd]. rewrite Hrx. cbn [cbind].
    destruct (product PyFloat.half (h - 1)) as [s|s| |s m e]; try discriminate Fy;
      cbn [PyFloat.round cbind];
      (eexists; split; [reflexivity|]; cbn [clamped tap pt_x];
       replace (Z.max 0 (Z.min (w - 1) rx)) with (w - 1) by lia;
       split; [|reflexivity];
       apply orb_true_iff; left; apply negb_true_iff, Z.eqb_neq; lia).
  - rewrite (finite_product_mul_int _ _ Fx). cbn [cbind].
    destruct (product_half_cases (h - 1)) as [Fy' | Oy]; [lia|congruence|].
    unfold PyFloat.mul_int at 1. rewrite Oy. cbn [cbind]. eexists. reflexivity.
  - destruct (product_one_and_half_cases (w - 1)) as [Fx' | [Ox | Ix]]; [lia|congruence| |].
    + unfold PyFloat.mul_int at 1. rewrite Ox. cbn [cbind]. eexists. reflexivity.
    + rewrite Ix. cbn [cbind].
      destruct (product_half_cases (h - 1)) as [Fy | Oy]; [lia| |].
      * rewrite (finite_product_mul_int _ _ Fy). cbn [cbind fst PyFloat.round].
        eexists. reflexivity.
      * unfold PyFloat.mul_int at 1. rewrite Oy. cbn [cbind]. eexists. reflexivity.
Qed.

Lemma overshoot_is_clamped_witness : overshoot_clamped 1080 2400.
Proof. exact (proj1 (overshoot_is_clamped 1080 2400 ltac:(lia) ltac:(lia))). Defined.

(** C8 as stated fails on a screen one pixel wide: there [1.5 * 0] is 0,
    nothing is clamped and the flag stays false. *)
Lemma overshoot_not_clamped_on_width_1 : ~ overshoot_clamped 1 1.
Proof.
  intros (d & Hd & Hclamped & _).
  vm_compute in Hd. injection Hd as <-. discriminate Hclamped.
Qed.

(** Screens on which the products are rounded: the tap is clamped all the
    same. *)
Example overshoot_clamped_on_large_screens :
  overshoot_clamped (2 ^ 51 + 1) 1
  /\ overshoot_clamped (2 ^ 60) 2400
  /\ overshoot_clamped (2 ^ 53 + 3) 7.
Proof.
  repeat split; (eexists; split; [vm_compute; reflexivity|]);
    split; vm_compute; reflexivity.
Qed.

(** Beyond the range of binary64: a width that cannot be converted to a
    float, and one whose product with 1.5 is an infinity. *)
Example resolve_beyond_binary64 :
  _resolve_tap_coordinate PyFloat.one_and_half PyFloat.half "ratio" (2 ^ 1024) 1
  = Raise (OverflowError "int too large to convert to float")
  /\ _resolve_tap_coordinate PyFloat.one_and_half PyFloat.half "ratio" (3 * 2 ^ 1022 + 1) 1
     = Raise (OverflowError "cannot convert float infinity to integer").
Proof. split; vm_compute; reflexivity. Qed.

(* ===================================================================== *)
(** ** Coordinate resolution against its reference definition *)
(* ===================================================================== *)

(** The mantissa of a canonical binary64 value has at most 53 bits, and
    exactly 53 unless the exponent is the smallest one. *)
Lemma valid_finite_mantissa (s : bool) (m : positive) (e : Z) :
  valid_float (S754_finite s m e) ->
  Z.pos m < 2 ^ 53 /\ (e = -1074 \/ 2 ^ 52 <= Z.pos m).
Proof.
  unfold valid_float, valid_binary, bounded, canonical_mantissa, fexp, emin,
    PyFloat.prec, PyFloat.emax.
  intros H. apply andb_true_iff in H as [H _]. apply Z.eqb_eq in H.
  pose proof (digits2_pos_bounds m) as [Hlo Hhi].
  set (d := Z.pos (digits2_pos m)) in *.
  assert (Hd : d <= 53) by lia.
  split.
  - assert (2 ^ d <= 2 ^ 53) by (apply Z.pow_le_mono_r; lia). lia.
  - destruct (Z.eq_dec e (-1074)) as [|Hne]; [now left|]. right.
    assert (d = 53) as Hd53 by lia. rewrite Hd53 in Hlo. exact Hlo.
Qed.

(** The comparison chain [0.0 <= x <= 1.0] decides membership in [0, 1]. *)
Lemma leb_unit_interval (x : float) :
  valid_float x ->
  (PyFloat.leb PyFloat.zero x && PyFloat.leb x PyFloat.one = true
   <-> in_unit_interval x).
Proof.
  intros Hvalid. unfold in_unit_interval.
  destruct x as [s|s| |s m e].
  - (* zero *) simpl. split; [intros _; split; [reflexivity | lia] | reflexivity].
  - (* infinity *) destruct s; simpl; split; try discriminate; intros [H _]; discriminate.
  - (* NaN *) simpl. split; [discriminate | intros [H _]; discriminate].
  - destruct (valid_finite_mantissa s m e Hvalid) as [Hhi Hfull].
    destruct s.
    { (* negative *)
      split; [discriminate|]. intros [_ [H _]]. exfalso. revert H.
      unfold fraction. destruct e as [|p|p]; cbn [fst cond_Zopp]; [lia | | lia].
      assert (0 < 2 ^ Z.pos p) by (apply Z.pow_pos_nonneg; lia). nia. }
    unfold PyFloat.leb, SFleb, PyFloat.zero, PyFloat.one, SFcompare.
    cbn [andb].
    destruct (Z.compare_spec e (-52)) as [He|He|He].
    + (* e = -52: the mantissas decide *)
      subst e. unfold fraction. cbn [fst snd cond_Zopp is_finite].
      change (Z.pow_pos 2 52) with 4503599627370496.
      destruct (Pos.compare_cont Eq m 4503599627370496) eqn:Hc.
      * apply (Pos.compare_eq_iff m 4503599627370496) in Hc. subst m.
        split; [intros _; split; [reflexivity | lia] | reflexivity].
      * apply (Pos.compare_lt_iff m 4503599627370496), Pos2Z.pos_lt_pos in Hc.
        split; [intros _; split; [reflexivity | lia] | reflexivity].
      * apply (Pos.compare_gt_iff m 4503599627370496), Pos2Z.pos_lt_pos in Hc.
        split; [discriminate|]. intros [_ H]. lia.
    + (* e < -52: below 1 *)
      split; [intros _ | reflexivity]. split; [reflexivity|].
      destruct e as [|p|p]; try lia. unfold fraction. cbn [fst snd cond_Zopp].
      change (Z.pow_pos 2 p) with (2 ^ Z.pos p).
      assert (2 ^ 53 <= 2 ^ Z.pos p) by (apply Z.pow_le_mono_r; lia). lia.
    + (* e > -52: 2 or more *)
      destruct Hfull as [Hmin|Hfull]; [lia|].
      change (2 ^ 52) with 4503599627370496 in Hfull.
      split; [discriminate|]. intros [_ [_ H]]. exfalso. revert H.
      unfold fraction. destruct e as [|p|p]; cbn [fst snd cond_Zopp].
      * lia.
      * assert (0 < 2 ^ Z.pos p) by (apply Z.pow_pos_nonneg; lia). nia.
      * change (Z.pow_pos 2 p) with (2 ^ Z.pos p).
        assert (2 ^ Z.pos p <= 2 ^ 51) by (apply Z.pow_le_mono_r; lia).
        change (2 ^ 51) with 2251799813685248 in *. lia.
Qed.

(** [round] returns an integer nearest to a number and raises an
    arithmetic error for anything else. *)
Lemma round_nearest (x : float) :
  if is_finite x
  then exists r, PyFloat.round x = Return r /\ nearest_integer x r
  else exists e, PyFloat.round x = Raise e /\ is_ExecutorError e = false.
Proof.
  destruct x as [s|s| |s m e]; cbn [is_finite PyFloat.round].
  - exists 0. split; [reflexivity|]. split; [reflexivity|]. simpl. lia.
  - eexists. split; reflexivity.
  - eexists. split; reflexivity.
  - eexists. split; [reflexivity|]. split; [reflexivity|].
    unfold fraction, PyFloat.round_half_even_pos.
    destruct e as [|p|p]; cbn [fst snd].
    + destruct s; cbn [cond_Zopp]; lia.
    + destruct s; cbn [cond_Zopp]; lia.
    + change (Z.pow_pos 2 p) with (2 ^ Z.pos p).
      assert (Hd : 0 < 2 ^ Z.pos p) by (apply Z.pow_pos_nonneg; lia).
      set (d := 2 ^ Z.pos p) in *.
      pose proof (Z.div_mod (Z.pos m) d ltac:(lia)) as Hdm.
      pose proof (Z.mod_pos_bound (Z.pos m) d Hd) as Hr.
      set (q := Z.pos m / d) in *. set (r := Z.pos m mod d) in *.
      destruct (Z.compare_spec (2 * r) d) as [Hc|Hc|Hc].
      * destruct (Z.even q); destruct s; cbn [cond_Zopp]; nia.
      * destruct s; cbn [cond_Zopp]; nia.
      * destruct s; cbn [cond_Zopp]; nia.
Qed.

(** [x * n] either is the floating-point product or fails on the
    conversion of [n], in which case that product is not a number. *)
Lemma mul_int_cases (x : float) (n : Z) :
  PyFloat.mul_int x n = Return (product x n)
  \/ (exists e, PyFloat.mul_int x n = Raise e /\ is_ExecutorError e = false)
     /\ is_finite (product x n) = false.
Proof.
  unfold PyFloat.mul_int, PyFloat.of_int, product.
  destruct (binary_normalize PyFloat.prec PyFloat.emax n 0 false) as [s|s| |s m e];
    try (left; reflexivity).
  right. split; [eexists; split; reflexivity|].
  destruct x as [sx|sx| |sx mx ex]; reflexivity.
Qed.

Lemma clamp_max_min (hi v : Z) : 0 <= hi -> Z.max 0 (Z.min hi v) = clamp 0 hi v.
Proof.
  intros H. unfold clamp.
  destruct (v <? 0) eqn:E1; [apply Z.ltb_lt in E1; lia|]. apply Z.ltb_ge in E1.
  destruct (hi <? v) eqn:E2; [apply Z.ltb_lt in E2 | apply Z.ltb_ge in E2]; lia.
Qed.

(** The rounding and clamping part of the resolution on a raw point. *)
Lemma finish_resolution (x y : float) (space eff : string) (w h : Z) (raw : float * float) :
  0 < w -> 0 < h ->
  let out :=
    cbind (PyFloat.round (fst raw)) (fun rounded_x =>
    cbind (PyFloat.round (snd raw)) (fun rounded_y =>
    let tap_x := Z.max 0 (Z.min (w - 1) rounded_x) in
    let tap_y := Z.max 0 (Z.min (h - 1) rounded_y) in
    Return {|
      input := {| input_x := x; input_y := y; input_coord_space := space |};
      effective_coord_space := eff;
      screen_size := {| width := w; height := h |};
      computed := {| pt_x := rounded_x; pt_y := rounded_y |};
      tap := {| pt_x := tap_x; pt_y := tap_y |};
      clamped := negb (tap_x =? rounded_x) || negb (tap_y =? rounded_y)
    |})) in
  if is_finite (fst raw) && is_finite (snd raw)
  then exists d, out = Return d /\ resolved x y space eff w h raw d
  else exists e, out = Raise e /\ is_ExecutorError e = false.
Proof.
  intros Hw Hh out. subst out.
  pose proof (round_nearest (fst raw)) as Hx.
  pose proof (round_nearest (snd raw)) as Hy.
  destruct (is_finite (fst raw)).
  2:{ destruct Hx as (e & -> & He). exists e. auto. }
  destruct Hx as (rx & -> & Hnx). cbn [cbind andb].
  destruct (is_finite (snd raw)).
  2:{ destruct Hy as (e & -> & He). exists e. auto. }
  destruct Hy as (ry & -> & Hny). cbn [cbind].
  eexists. split; [reflexivity|].
  unfold resolved. cbn [input effective_coord_space screen_size computed tap clamped pt_x pt_y].
  repeat (split; [first [reflexivity | assumption | apply clamp_max_min; lia]|]).
  rewrite orb_true_iff, !negb_true_iff, !Z.eqb_neq.
  split.
  - intros Hne Heq. injection Heq as E1 E2. lia.
  - intros Hne.
    destruct (Z.eq_dec (Z.max 0 (Z.min (w - 1) rx)) rx) as [E1|N1]; [|now left].
    destruct (Z.eq_dec (Z.max 0 (Z.min (h - 1) ry)) ry) as [E2|N2]; [|now right].
    exfalso. apply Hne. now rewrite E1, E2.
Qed.

(** C3 (amended). For all canonical binary64 coordinates, every space and
    every screen size, coordinate resolution behaves as the reference
    definition says: it fails with an invalid-argument error when the width
    or the height is not positive; the space auto stands for ratio exactly
    when both coordinates lie in [0, 1] and for pixel otherwise; ratio maps
    each coordinate to coordinate * (dimension - 1) and pixel leaves it
    unchanged; any other space fails with an invalid-argument error; the raw
    point is rounded to a nearest integer and clamped into
    [0, dimension - 1], the flag telling whether clamping changed it.  To
    this the code adds one failure: when the raw point is not a pair of
    numbers (an infinity or NaN, by the input or by overflow of the product)
    the resolution fails with an arithmetic error instead. *)
Theorem resolve_matches_reference (x y : float) (space : string) (w h : Z) :
  valid_float x -> valid_float y ->
  resolves_as_amended x y space w h (_resolve_tap_coordinate x y space w h).
Proof.
  intros Hvx Hvy. unfold resolves_as_amended, _resolve_tap_coordinate.
  destruct ((w <=? 0) || (h <=? 0)) eqn:Hdim; [eexists; reflexivity|].
  apply orb_false_elim in Hdim as [Hw Hh]. apply Z.leb_gt in Hw, Hh.
  set (eff := if String.eqb space "auto"
              then if (PyFloat.leb PyFloat.zero x && PyFloat.leb x PyFloat.one)
                      && (PyFloat.leb PyFloat.zero y && PyFloat.leb y PyFloat.one)
                   then "ratio"%string else "pixel"%string
              else space).
  exists eff. split.
  - unfold effective_space_spec, eff.
    destruct (String.eqb space "auto"); [|reflexivity].
    pose proof (leb_unit_interval x Hvx) as Hx.
    pose proof (leb_unit_interval y Hvy) as Hy.
    destruct (PyFloat.leb PyFloat.zero x && PyFloat.leb x PyFloat.one);
      destruct (PyFloat.leb PyFloat.zero y && PyFloat.leb y PyFloat.one);
      cbn [andb]; split; try reflexivity; intros H;
      try (exfalso; apply H; split; [now apply Hx | now apply Hy]);
      destruct H as [H1 H2]; try (apply Hx in H1; discriminate);
      try (apply Hy in H2; discriminate).
  - unfold raw_point_spec.
    destruct (String.eqb eff "ratio").
    + destruct (mul_int_cases x (w - 1)) as [-> | [(e & -> & He) Hnf]]; cbn [cbind].
      2:{ cbn [fst]. rewrite Hnf. exists e. auto. }
      destruct (mul_int_cases y (h - 1)) as [-> | [(e & -> & He) Hnf]]; cbn [cbind].
      2:{ cbn [snd]. rewrite Hnf, andb_false_r. exists e. auto. }
      exact (finish_resolution x y space eff w h
               (product x (w - 1), product y (h - 1)) Hw Hh).
    + destruct (String.eqb eff "pixel").
      * cbn [cbind]. exact (finish_resolution x y space eff w h (x, y) Hw Hh).
      * cbn [cbind]. eexists. reflexivity.
Qed.

Lemma resolve_matches_reference_witness :
  resolves_as_amended PyFloat.half PyFloat.half "auto" 1080 2400
    (_resolve_tap_coordinate PyFloat.half PyFloat.half "auto" 1080 2400).
Proof. apply resolve_matches_reference; reflexivity. Defined.

(** C3 as stated fails: for x = 1e308 in ratio space on a 100 x 100 screen
    the product overflows to infinity and the code fails with an arithmetic
    error, where the reference definition knows no failure and clamps. *)
Lemma resolve_overflow_not_as_specified :
  ~ resolves_as_specified x1e308 PyFloat.half "ratio" 100 100
      (_resolve_tap_coordinate x1e308 PyFloat.half "ratio" 100 100).
Proof.
  assert (Hout : _resolve_tap_coordinate x1e308 PyFloat.half "ratio" 100 100
                 = Raise (OverflowError "cannot convert float infinity to integer"))
    by (vm_compute; reflexivity).
  rewrite Hout. unfold resolves_as_specified. cbn [Z.leb Z.compare orb].
  intros (eff & Heff & H).
  unfold effective_space_spec in Heff. cbn in Heff. subst eff.
  unfold raw_point_spec in H. cbn [String.eqb Ascii.eqb Bool.eqb] in H.
  destruct H as (d & Hd & _). discriminate Hd.
Qed.

(* ===================================================================== *)
(** ** The examples of the specification, evaluated *)
(* ===================================================================== *)

(** The midpoint of a 1080 x 2400 screen in ratio space: 0.5 * 1079 = 539.5
    rounds to the even 540, 0.5 * 2399 = 1199.5 to 1200; nothing is clamped. *)
Example resolve_midpoint :
  _resolve_tap_coordinate PyFloat.half PyFloat.half "ratio" 1080 2400
  = Return {| input := {| input_x := PyFloat.half; input_y := PyFloat.half;
                          input_coord_space := "ratio" |};
              effective_coord_space := "ratio";
              screen_size := {| width := 1080; height := 2400 |};
              computed := {| pt_x := 540; pt_y := 1200 |};
              tap := {| pt_x := 540; pt_y := 1200 |};
              clamped := false |}.
Proof. vm_compute. reflexivity. Qed.

(** Auto detection: (0.9, 0.9) is a ratio, (900, 1900) on a 1080-wide
    screen is a pixel position. *)
Example resolve_auto_detection :
  (exists d, _resolve_tap_coordinate point_nine point_nine "auto" 1080 2400 = Return d
             /\ effective_coord_space d = "ratio"%string
             /\ tap d = {| pt_x := 971; pt_y := 2159 |})
  /\ (exists d, _resolve_tap_coordinate f900 f1900 "auto" 1080 2400 = Return d
                /\ effective_coord_space d = "pixel"%string
                /\ tap d = {| pt_x := 900; pt_y := 1900 |}).
Proof. split; eexists; (split; [vm_compute; reflexivity|]); split; reflexivity. Qed.

(** Two connected devices and no id: the ambiguity error lists both. *)
Example select_device_ambiguous :
  fst (_select_device (demo_world clock_1000 ["emulator-5554"; "R58M"]%string
                         (prompt_return PNone))
         demo_config None empty_state)
  = Raise (ExecutorError
             "Multiple devices found: emulator-5554, R58M. Use --device-id to choose one.").
Proof. vm_compute. reflexivity. Qed.

(** An adapter that hangs under a timeout of 30 seconds: the two processes
    it spawned are signalled gracefully, waited for, then killed, and the
    result carries their count and the session id. *)
Example execute_task_times_out :
  fst (execute_task hanging_world demo_config "open settings"
         None None None (Some 30) None false empty_state)
  = Return [ ("success", PBool false);
             ("session_id", PStr "0f8fad5b");
             ("error", PStr "execute timed out after 30 seconds.");
             ("message", PStr "Task execution failed: execute timed out after 30 seconds.");
             ("timed_out", PBool true);
             ("terminated_subprocesses", PInt 2);
             ("timeout_sec", PInt 30) ]%string
  /\ List.filter (fun e => match e with EvTerminate _ _ => true | _ => false end)
        (log (snd (execute_task hanging_world demo_config "open settings"
                     None None None (Some 30) None false empty_state)))
     = [EvTerminate 4101 false; EvTerminate 4102 false;
        EvTerminate 4101 true; EvTerminate 4102 true].
Proof. split; vm_compute; reflexivity. Qed.

(** A deadline beyond [threading.TIMEOUT_MAX]: the adapter is started, the
    wait for it fails with OverflowError, which is reported as a failure
    that is no timeout, and no subprocess is told to stop. *)
Example execute_task_deadline_beyond_TIMEOUT_MAX :
  fst (execute_task hanging_world demo_config "open settings"
         None None None (Some 10000000000) None false empty_state)
  = Return [ ("success", PBool false);
             ("session_id", PStr "0f8fad5b");
             ("error", PStr "timestamp too large to convert to C _PyTime_t");
             ("message",
              PStr "Task execution failed: timestamp too large to convert to C _PyTime_t");
             ("timed_out", PBool false);
             ("timeout_sec", PInt 10000000000) ]%string
  /\ List.filter (fun e => match e with EvTerminate _ _ => true | _ => false end)
        (log (snd (execute_task hanging_world demo_config "open settings"
                     None None None (Some 10000000000) None false empty_state)))
     = [].
Proof. split; vm_compute; reflexivity. Qed.

(** White space outside ASCII is stripped as well: around a text, and from a
    task that already holds the stop instruction. *)
Example strip_no_break_space :
  strip (no_break_space +:+ "abc" +:+ no_break_space) = "abc"%string
  /\ strip no_break_space = ""%string
  /\ _ensure_complete_and_stop_guard (no_break_space +:+ stop_phrase +:+ no_break_space)
     = stop_phrase.
Proof. repeat split; vm_compute; reflexivity. Qed.

(** A provider name of white space only is no provider: nothing is looked
    at, and no session is created. *)
Example execute_task_blank_provider :
  execute_task hanging_world demo_config "open settings"
    (Some no_break_space) None None None None false empty_state
  = (Return [ ("success", PBool false);
              ("error", PStr "No provider configured");
              ("message",
               PStr ("No provider configured for execute. Set --provider or configure default_provider. "
                     +:+ "If you only need coordinate control, use `tap`/`click`.")) ]%string,
     empty_state).
Proof. vm_compute. reflexivity. Qed.

(** The session lifecycle: created active with step count 0; one update
    without a status gives step count 1 and the same status; an update with
    status completed completes it, after which a continue request is
    rejected. *)
Example session_lifecycle :
  let w := demo_world clock_1000 ["emulator-5554"%string] (prompt_return PNone) in
  let s1 := snd (create_session w "emulator-5554" "local" "open settings" empty_state) in
  let s2 := snd (update_session w "0f8fad5b" (PDict ∅) None s1) in
  let s3 := snd (update_session w "0f8fad5b" (PDict ∅) (Some "completed"%string) s2) in
  option_map (fun x => (status x, step_count x)) (od_get (sessions s1) "0f8fad5b")
    = Some ("active"%string, 0)
  /\ option_map (fun x => (status x, step_count x)) (od_get (sessions s2) "0f8fad5b")
    = Some ("active"%string, 1)
  /\ option_map (fun x => (status x, step_count x)) (od_get (sessions s3) "0f8fad5b")
    = Some ("completed"%string, 2)
  /\ fst (continue_session w demo_config (Some "0f8fad5b"%string)
            None None None None None s3)
    = Return (not_active_rejection "completed").
Proof. repeat split; vm_compute; reflexivity. Qed.

(* ===================================================================== *)
(** * Further properties of the code *)
(* ===================================================================== *)

(* ===================================================================== *)
(** ** Session manager: deleting, sweeping, listing, and the store invariant *)
(* ===================================================================== *)


Lemma od_del_keys_In {V} (d : odict V) k j :
  In j (map fst (od_del d k)) -> In j (map fst d).
Proof.
  induction d as [|[k' v'] r IH]; simpl; [tauto|].
  destruct (String.eqb k k'); simpl; [tauto|].
  intros [H|H]; [left; exact H | right; apply IH, H].
Qed.

Lemma od_del_NoDup {V} (d : odict V) k :
  NoDup (map fst d) -> NoDup (map fst (od_del d k)).
Proof.
  induction d as [|[k' v'] r IH]; simpl; intros H; [exact H|].
  apply NoDup_cons in H as [Hn Hr].
  destruct (String.eqb k k'); simpl; [exact Hr|].
  apply NoDup_cons. split; [|apply IH, Hr].
  rewrite list_elem_of_In in *. intros Hi. apply Hn, (od_del_keys_In _ _ _ Hi).
Qed.

Lemma od_get_del_ne {V} (d : odict V) k j :
  j <> k -> od_get (od_del d k) j = od_get d j.
Proof.
  intros Hne. induction d as [|[k' v'] r IH]; simpl; [reflexivity|].
  destruct (String.eqb k k') eqn:E.
  - apply String.eqb_eq in E. subst k'.
    destruct (String.eqb j k) eqn:E2; [apply String.eqb_eq in E2; contradiction|reflexivity].
  - simpl. rewrite IH. reflexivity.
Qed.

Lemma od_get_del_eq {V} (d : odict V) k :
  NoDup (map fst d) -> od_get (od_del d k) k = None.
Proof.
  induction d as [|[k' v'] r IH]; simpl; intros H; [reflexivity|].
  apply NoDup_cons in H as [Hn Hr].
  destruct (String.eqb k k') eqn:E.
  - apply String.eqb_eq in E. subst k'.
    destruct (od_get r k) eqn:G; [|reflexivity].
    apply od_get_Some_In in G. exfalso. apply Hn. apply list_elem_of_In.
    change k with (fst (k, v)). apply in_map, G.
  - simpl. rewrite E. apply IH, Hr.
Qed.

Lemma od_del_In {V} (d : odict V) k kv : In kv (od_del d k) -> In kv d.
Proof.
  induction d as [|[k' v'] r IH]; simpl; [tauto|].
  destruct (String.eqb k k'); simpl; [tauto|].
  intros [H|H]; [left; exact H | right; apply IH, H].
Qed.





Lemma store_wf_del s k :
  store_wf s -> store_wf (with_sessions (od_del (sessions s) k) s).
Proof.
  intros [Hn Hf]. split; simpl.
  - apply od_del_NoDup, Hn.
  - apply Forall_forall. intros kv Hi. apply list_elem_of_In, od_del_In in Hi.
    rewrite Forall_forall in Hf. apply Hf, list_elem_of_In, Hi.
Qed.

Lemma store_wf_same s s' : sessions s' = sessions s -> store_wf s -> store_wf s'.
Proof. unfold store_wf. intros ->. tauto. Qed.



(** Writing a session under its own id, in the table and in its file. *)
Lemma save_step k x s :
  (store_session k x ;;; _save_session x) s =
    (Return tt,
     with_log (log s ++ [EvSave (session_id x)])
       (with_files (<[session_id x := x]> (files s))
          (with_sessions (od_set (sessions s) k x) s))).
Proof. reflexivity. Qed.


Lemma unlink_session_file_run sid s :
  unlink_session_file sid s =
    (Return tt,
     match files s !! sid with
     | Some _ => with_log (log s ++ [EvUnlink sid]) (with_files (delete sid (files s)) s)
     | None => s
     end).
Proof. unfold unlink_session_file, bind, get_state. destruct (files s !! sid); reflexivity. Qed.

Lemma remove_step sid s :
  (unlink_session_file sid ;;;
   modify (fun s => with_sessions (od_del (sessions s) sid) s)) s
  = (Return tt, deleted_state sid s).
Proof.
  unfold bind at 1. rewrite unlink_session_file_run. reflexivity.
Qed.

Lemma deleted_state_sessions sid s :
  sessions (deleted_state sid s) = od_del (sessions s) sid.
Proof. unfold deleted_state. destruct (files s !! sid); reflexivity. Qed.

Lemma deleted_state_files sid s :
  files (deleted_state sid s) = delete sid (files s).
Proof.
  unfold deleted_state. destruct (files s !! sid) eqn:E; simpl; [reflexivity|].
  symmetry. apply delete_id, E.
Qed.

Lemma deleted_state_tracked sid s : tracked (deleted_state sid s) = tracked s.
Proof. unfold deleted_state. destruct (files s !! sid); reflexivity. Qed.


Section SessionManager.

Context (w : world) (cfg : SkillConfig).

(** X1. [delete_session] on an id the table does not have returns [False]
    and changes nothing.  On a stored id it returns [True]; afterwards the
    id is gone from the table and its file from the disk, every other
    session and file is as before, and a later [get_session] of that id
    finds nothing. *)
Theorem delete_session_effect (sid : string) (s : state) :
  store_wf s ->
  (od_get (sessions s) sid = None -> delete_session sid s = (Return false, s))
  /\ (forall x, od_get (sessions s) sid = Some x ->
        exists s',
          delete_session sid s = (Return true, s')
          /\ od_get (sessions s') sid = None
          /\ files s' !! sid = None
          /\ (forall j, j <> sid ->
                od_get (sessions s') j = od_get (sessions s) j
                /\ files s' !! j = files s !! j)
          /\ store_wf s'
          /\ get_session w cfg sid s' = (Return None, s')).
Proof.
  intros Hw. split.
  - intros G. unfold delete_session, bind, get_state. rewrite G. reflexivity.
  - intros x G. exists (deleted_state sid s).
    assert (E : delete_session sid s = (Return true, deleted_state sid s)).
    { unfold delete_session, bind, get_state. rewrite G.
      rewrite unlink_session_file_run. reflexivity. }
    assert (N : od_get (sessions (deleted_state sid s)) sid = None).
    { rewrite deleted_state_sessions. apply od_get_del_eq, Hw. }
    assert (W : store_wf (deleted_state sid s)).
    { eapply store_wf_same; [|apply (store_wf_del s sid Hw)].
      rewrite deleted_state_sessions. reflexivity. }
    split; [exact E|]. split; [exact N|].
    split; [rewrite deleted_state_files; apply lookup_delete_eq|].
    split; [|split; [exact W | apply get_session_unknown, N]].
    intros j Hj. split.
    + rewrite deleted_state_sessions. apply od_get_del_ne, Hj.
    + rewrite deleted_state_files. apply lookup_delete_ne. congruence.
Qed.

End SessionManager.

Lemma filter_Is_true {A} (f : A -> bool) (l : list A) :
  filter (fun x => Is_true (f x)) l = List.filter f l.
Proof.
  induction l as [|a r IH]; [reflexivity|].
  rewrite filter_cons, IH. simpl List.filter.
  destruct (f a); [rewrite decide_True by exact I | rewrite decide_False by (intros [])];
    reflexivity.
Qed.

Lemma remove_sessions_run ids s :
  remove_sessions ids s = (Return tt, fold_left (fun st k => deleted_state k st) ids s).
Proof.
  revert s. induction ids as [|k r IH]; intros s; [reflexivity|].
  simpl. unfold bind at 1. rewrite unlink_session_file_run.
  unfold bind at 1. simpl. rewrite <- IH. reflexivity.
Qed.

Lemma fold_deleted_sessions ids s :
  sessions (fold_left (fun st k => deleted_state k st) ids s)
  = fold_left (fun d k => od_del d k) ids (sessions s).
Proof.
  revert s. induction ids as [|k r IH]; intros s; [reflexivity|].
  simpl. rewrite IH, deleted_state_sessions. reflexivity.
Qed.

Lemma fold_deleted_files ids s :
  files (fold_left (fun st k => deleted_state k st) ids s)
  = fold_left (fun f k => delete k f) ids (files s).
Proof.
  revert s. induction ids as [|k r IH]; intros s; [reflexivity|].
  simpl. rewrite IH, deleted_state_files. reflexivity.
Qed.

Lemma fold_deleted_tracked ids s :
  tracked (fold_left (fun st k => deleted_state k st) ids s) = tracked s.
Proof.
  revert s. induction ids as [|k r IH]; intros s; [reflexivity|].
  simpl. rewrite IH. apply deleted_state_tracked.
Qed.

Lemma fold_delete_lookup (ids : list string) (f : gmap string Session) k :
  fold_left (fun f k => delete k f) ids f !! k
  = if bool_decide (k ∈ ids) then None else f !! k.
Proof.
  revert f. induction ids as [|i r IH]; intros f; [reflexivity|].
  simpl. rewrite IH. destruct (decide (k = i)) as [->|Hne].
  - rewrite lookup_delete_eq. rewrite (bool_decide_eq_true_2 _ (list_elem_of_here i r)).
    destruct (bool_decide (i ∈ r)); reflexivity.
  - rewrite lookup_delete_ne by congruence.
    repeat case_bool_decide; try reflexivity.
    + exfalso. apply H0. right. exact H.
    + exfalso. apply elem_of_cons in H0 as [?|?]; contradiction.
Qed.

Lemma fold_od_del_skip {V} (ids : list string) k (v : V) (r : odict V) :
  ~ In k ids ->
  fold_left (fun d k => od_del d k) ids ((k, v) :: r)
  = (k, v) :: fold_left (fun d k => od_del d k) ids r.
Proof.
  revert r. induction ids as [|i ids IH]; intros r Hn; [reflexivity|].
  simpl. destruct (String.eqb i k) eqn:E.
  - apply String.eqb_eq in E. subst i. exfalso. apply Hn. left. reflexivity.
  - apply IH. intros Hi. apply Hn. right. exact Hi.
Qed.

Lemma fold_od_del_filter {V} (P : string * V -> bool) (d : odict V) :
  NoDup (map fst d) ->
  fold_left (fun d k => od_del d k) (map fst (List.filter P d)) d
  = List.filter (fun kv => negb (P kv)) d.
Proof.
  induction d as [|[k v] r IH]; intros Hn; [reflexivity|].
  simpl in Hn. apply NoDup_cons in Hn as [Hk Hr].
  simpl. destruct (P (k, v)) eqn:E; simpl.
  - rewrite String.eqb_refl. apply IH, Hr.
  - rewrite fold_od_del_skip.
    + rewrite IH by exact Hr. reflexivity.
    + intros Hi. apply Hk. apply list_elem_of_In.
      apply in_map_iff in Hi as [kv [Hf Hi]]. apply filter_In in Hi as [Hi _].
      apply in_map_iff. exists kv. split; assumption.
Qed.

Lemma filter_lengths {A} (P : A -> bool) (l : list A) :
  (length (List.filter P l) + length (List.filter (fun x => negb (P x)) l) = length l)%nat.
Proof.
  induction l as [|a r IH]; [reflexivity|].
  simpl. destruct (P a); simpl; lia.
Qed.

Lemma od_get_filter {V} (P : string * V -> bool) (d : odict V) k :
  NoDup (map fst d) ->
  od_get (List.filter P d) k
  = match od_get d k with
    | Some v => if P (k, v) then Some v else None
    | None => None
    end.
Proof.
  induction d as [|[k' v'] r IH]; intros Hn; [reflexivity|].
  simpl in Hn. apply NoDup_cons in Hn as [Hk Hr].
  simpl. destruct (String.eqb k k') eqn:E.
  - apply String.eqb_eq in E. subst k'.
    destruct (P (k, v')) eqn:EP; simpl.
    + rewrite String.eqb_refl. reflexivity.
    + rewrite IH by exact Hr.
      destruct (od_get r k) eqn:G; [|reflexivity].
      exfalso. apply Hk, list_elem_of_In. apply od_get_Some_In in G.
      change k with (fst (k, v)). apply in_map, G.
  - destruct (P (k', v')); simpl; [rewrite E|]; apply IH, Hr.
Qed.

Section SessionSweep.

Context (w : world) (cfg : SkillConfig).

(** X2. [cleanup_expired] removes exactly the sessions whose age at the
    time read exceeds the expiry, whatever their status, and keeps the
    others in order and unchanged; the file of a removed session is deleted
    and no other file is touched; the number it returns is the number of
    sessions removed. *)
Theorem cleanup_expired_effect (s : state) :
  store_wf s ->
  exists s',
    cleanup_expired w cfg s
    = (Return (Z.of_nat (length (sessions s)) - Z.of_nat (length (sessions s'))), s')
    /\ sessions s'
       = List.filter (fun kv => negb (is_expired cfg (time_time w (log s)) (snd kv)))
           (sessions s)
    /\ (forall k x, od_get (sessions s) k = Some x ->
          is_expired cfg (time_time w (log s)) x = true ->
          od_get (sessions s') k = None /\ files s' !! k = None)
    /\ (forall k x, od_get (sessions s) k = Some x ->
          is_expired cfg (time_time w (log s)) x = false ->
          od_get (sessions s') k = Some x /\ files s' !! k = files s !! k)
    /\ (forall k, od_get (sessions s) k = None ->
          od_get (sessions s') k = None /\ files s' !! k = files s !! k)
    /\ tracked s' = tracked s
    /\ store_wf s'.
Proof.
  intros Hw. pose proof Hw as [Hn Hf].
  set (now := time_time w (log s)).
  set (s0 := with_log (log s ++ [EvTime]) s).
  set (P := fun kv : string * Session => is_expired cfg now (snd kv)).
  set (ids := map fst (List.filter P (sessions s))).
  set (s' := fold_left (fun st k => deleted_state k st) ids s0).
  assert (Hs : sessions s' = List.filter (fun kv => negb (P kv)) (sessions s)).
  { unfold s'. rewrite fold_deleted_sessions. apply (fold_od_del_filter P), Hn. }
  assert (Hfile : forall k, files s' !! k
                            = if bool_decide (k ∈ ids) then None else files s !! k).
  { intros k. unfold s'. rewrite fold_deleted_files. apply fold_delete_lookup. }
  assert (Hids : forall k, k ∈ ids <->
                 exists x, od_get (sessions s) k = Some x /\ is_expired cfg now x = true).
  { intros k. rewrite list_elem_of_In. unfold ids. rewrite in_map_iff. split.
    - intros [[k' x] [Hk Hi]]. simpl in Hk. subst k'.
      apply filter_In in Hi as [Hi HP]. exists x. split; [|exact HP].
      apply od_get_In; assumption.
    - intros [x [G E]]. exists (k, x). split; [reflexivity|].
      apply filter_In. split; [apply od_get_Some_In, G | exact E]. }
  exists s'. split; [|split; [exact Hs|]].
  - unfold cleanup_expired, bind, time_now, ask, get_state. cbn beta iota.
    change (sessions (with_log (log s ++ [EvTime]) s)) with (sessions s).
    rewrite (filter_Is_true P). fold ids.
    rewrite remove_sessions_run. fold s0. fold s'.
    unfold ret. f_equal. f_equal.
    rewrite Hs. unfold ids. rewrite length_map.
    pose proof (filter_lengths P (sessions s)). lia.
  - split; [|split; [|split; [|split]]].
    + intros k x G E. split.
      * rewrite Hs, od_get_filter, G by exact Hn. unfold P. simpl. rewrite E. reflexivity.
      * rewrite Hfile. rewrite bool_decide_eq_true_2; [reflexivity|].
        apply Hids. exists x. split; assumption.
    + intros k x G E. split.
      * rewrite Hs, od_get_filter, G by exact Hn. unfold P. simpl. rewrite E. reflexivity.
      * rewrite Hfile. rewrite bool_decide_eq_false_2; [reflexivity|].
        intros Hi. apply Hids in Hi as [x' [G' E']]. congruence.
    + intros k G. split.
      * rewrite Hs, od_get_filter, G by exact Hn. reflexivity.
      * rewrite Hfile. rewrite bool_decide_eq_false_2; [reflexivity|].
        intros Hi. apply Hids in Hi as [x' [G' E']]. congruence.
    + unfold s'. rewrite fold_deleted_tracked. reflexivity.
    + split.
      * rewrite Hs. clear -Hn. induction (sessions s) as [|[k v] r IH]; [constructor|].
        simpl in Hn. apply NoDup_cons in Hn as [Hk Hr]. simpl.
        destruct (negb (P (k, v))); [|apply IH, Hr].
        simpl. apply NoDup_cons. split; [|apply IH, Hr].
        intros Hi. apply Hk. apply list_elem_of_In. apply list_elem_of_In in Hi.
        apply in_map_iff in Hi as [kv [Hq Hi]]. apply filter_In in Hi as [Hi _].
        apply in_map_iff. exists kv. split; assumption.
      * rewrite Hs. apply Forall_forall. intros kv Hi. apply list_elem_of_In in Hi.
        apply filter_In in Hi as [Hi _]. rewrite Forall_forall in Hf.
        apply Hf, list_elem_of_In, Hi.
Qed.

End SessionSweep.

Lemma ltb_negative_transitive (a x y : float) :
  PyFloat.ltb a x = true -> PyFloat.ltb a y = false -> PyFloat.ltb x y = false.
Proof.
  unfold PyFloat.ltb, SFltb, SFcompare.
  destruct a as [sa|sa| |sa ma ea], x as [sx|sx| |sx mx ex], y as [sy|sy| |sy my ey];
    try destruct sa; try destruct sx; try destruct sy;
    try discriminate; try reflexivity; intros H1 H2;
    repeat match goal with
    | H : context [Z.compare ?p ?q] |- _ => destruct (Z.compare_spec p q); try discriminate
    | |- context [Z.compare ?p ?q] => destruct (Z.compare_spec p q); try reflexivity
    end;
    repeat match goal with
    | H : context [Pos.compare_cont Eq ?p ?q] |- _ =>
        change (Pos.compare_cont Eq p q) with (Pos.compare p q) in H;
        destruct (Pos.compare_spec p q); try discriminate
    | |- context [Pos.compare_cont Eq ?p ?q] =>
        change (Pos.compare_cont Eq p q) with (Pos.compare p q);
        destruct (Pos.compare_spec p q); try reflexivity
    end; simpl in *; try discriminate; try reflexivity; try lia.
Qed.

Lemma ltb_irreflexive (x : float) : PyFloat.ltb x x = false.
Proof.
  unfold PyFloat.ltb, SFltb, SFcompare.
  destruct x as [s|s| |s m e]; try destruct s; try reflexivity;
    rewrite Z.compare_refl;
    change (Pos.compare_cont Eq m m) with (Pos.compare m m);
    rewrite Pos.compare_refl; reflexivity.
Qed.

Lemma max_by_updated_at_bound (l : list Session) :
  forall best seen,
    (forall y, In y seen ->
       PyFloat.ltb (updated_at best) (updated_at y) = false) ->
    forall y, In y (seen ++ l) ->
      PyFloat.ltb (updated_at (max_by_updated_at best l)) (updated_at y) = false.
Proof.
  induction l as [|x r IH]; intros best seen Hseen y Hy.
  - rewrite app_nil_r in Hy. apply Hseen, Hy.
  - simpl. apply (IH _ (seen ++ [x])).
    + intros z Hz. apply in_app_or in Hz as [Hz|[<-|[]]].
      * destruct (PyFloat.ltb (updated_at best) (updated_at x)) eqn:E.
        -- eapply ltb_negative_transitive; [exact E | apply Hseen, Hz].
        -- apply Hseen, Hz.
      * destruct (PyFloat.ltb (updated_at best) (updated_at x)) eqn:E.
        -- apply ltb_irreflexive.
        -- exact E.
    + rewrite <- app_assoc. exact Hy.
Qed.

Lemma max_by_updated_at_maximal best l y :
  In y (best :: l) ->
  PyFloat.ltb (updated_at (max_by_updated_at best l)) (updated_at y) = false.
Proof.
  intros Hy. apply (max_by_updated_at_bound l best [best]).
  - intros z [<-|[]]. apply ltb_irreflexive.
  - exact Hy.
Qed.

Section LatestSession.

Context (w : world) (cfg : SkillConfig).

Lemma list_active_from_value now entries s :
  fst (list_active_from cfg now entries s)
  = Return (List.filter (is_live cfg now) (map snd entries)).
Proof.
  revert s. induction entries as [|[k x] r IH]; intros s; [reflexivity|].
  simpl. unfold is_live at 1.
  destruct (String.eqb (status x) "active"); simpl; [|apply IH].
  destruct (is_expired cfg now x); simpl.
  - unfold bind at 1. unfold store_session, modify at 1.
    unfold bind at 1. unfold _save_session, bind, modify, emit, modify. apply IH.
  - unfold bind at 1. specialize (IH s).
    destruct (list_active_from cfg now r s) as [[a|e|] s1]; simpl in *;
      try discriminate. injection IH as ->. reflexivity.
Qed.

Lemma list_active_sessions_value s :
  fst (list_active_sessions w cfg s)
  = Return (List.filter (is_live cfg (time_time w (log s))) (map snd (sessions s))).
Proof.
  unfold list_active_sessions, bind, time_now, ask, get_state. simpl.
  apply (list_active_from_value _ (sessions s)).
Qed.

(** X3. [list_active_sessions] returns, in store order, exactly the
    sessions that are active and not older than the expiry.  It flips the
    older active ones to expired and leaves every other session as it was,
    so that afterwards a stored session that is still active is one of those
    returned. *)
Theorem list_active_sessions_exact (s : state) :
  store_wf s ->
  exists s',
    list_active_sessions w cfg s
    = (Return (List.filter (is_live cfg (time_time w (log s))) (map snd (sessions s))), s')
    /\ (forall k, od_get (sessions s') k
                  = option_map (swept cfg (time_time w (log s))) (od_get (sessions s) k))
    /\ (forall k x, od_get (sessions s') k = Some x ->
          status x = "active"%string ->
          is_expired cfg (time_time w (log s)) x = false
          /\ In x (List.filter (is_live cfg (time_time w (log s))) (map snd (sessions s)))).
Proof.
  intros Hw. destruct (list_active_sessions_run w cfg s Hw) as (act & s' & E & Hst & _).
  pose proof (list_active_sessions_value s) as V. rewrite E in V. simpl in V.
  injection V as ->. exists s'. split; [exact E|]. split; [exact Hst|].
  intros k x G Ha. rewrite Hst in G.
  destruct (od_get (sessions s) k) as [x0|] eqn:G0; [|discriminate].
  simpl in G. injection G as <-. unfold swept in *.
  destruct (String.eqb (status x0) "active") eqn:Es; simpl in *.
  - destruct (is_expired cfg (time_time w (log s)) x0) eqn:Ee; simpl in *.
    + discriminate.
    + split; [exact Ee|]. apply filter_In. split.
      * apply od_get_Some_In in G0. change x0 with (snd (k, x0)). apply in_map, G0.
      * unfold is_live. rewrite Es, Ee. reflexivity.
  - apply String.eqb_neq in Es. contradiction.
Qed.

(** X4. [get_latest_session] answers [None] exactly when no active,
    unexpired session matches the device filter (an id that is [None] or
    empty filters nothing); otherwise it returns one of these candidates, and
    no candidate has a later [updated_at] than the one returned. *)
Theorem get_latest_session_most_recent (dev : option string) (s : state) :
  exists latest,
    fst (get_latest_session w cfg dev s) = Return latest
    /\ (latest = None <-> candidates cfg (time_time w (log s)) dev (sessions s) = [])
    /\ (forall a, latest = Some a ->
          In a (candidates cfg (time_time w (log s)) dev (sessions s))
          /\ forall b, In b (candidates cfg (time_time w (log s)) dev (sessions s)) ->
               PyFloat.ltb (updated_at a) (updated_at b) = false).
Proof.
  unfold get_latest_session, bind.
  pose proof (list_active_sessions_value s) as V.
  destruct (list_active_sessions w cfg s) as [[act|e|] s1]; simpl in V; try discriminate.
  injection V as ->.
  assert (C : (if truthy_opt_str dev
               then filter (fun x : Session => String.eqb (device_id x) (default ""%string dev))
                      (List.filter (is_live cfg (time_time w (log s))) (map snd (sessions s)))
               else List.filter (is_live cfg (time_time w (log s))) (map snd (sessions s)))
              = candidates cfg (time_time w (log s)) dev (sessions s)).
  { unfold candidates. destruct (truthy_opt_str dev) eqn:T.
    - rewrite (filter_Is_true (fun x : Session => String.eqb (device_id x) (default ""%string dev))).
      apply filter_ext. intros x. unfold on_device. rewrite T. reflexivity.
    - symmetry. erewrite filter_ext; [apply filter_true|].
      intros x. unfold on_device. rewrite T. reflexivity. }
  rewrite C. destruct (candidates cfg (time_time w (log s)) dev (sessions s)) as [|x r].
  - exists None. simpl. split; [reflexivity|]. split; [tauto|discriminate].
  - exists (Some (max_by_updated_at x r)). simpl. split; [reflexivity|].
    split; [split; discriminate|].
    intros a [= <-]. split; [apply max_by_updated_at_In|].
    intros b Hb. apply max_by_updated_at_maximal, Hb.
Qed.

End LatestSession.




Lemma keeps_consistent_try_except {A} (m : M A) catches (h : exn -> M A) :
  keeps_consistent m -> (forall e, keeps_consistent (h e)) ->
  keeps_consistent (try_except m catches h).
Proof.
  intros Hm Hh s c s' E Hc. unfold try_except in E.
  destruct (m s) as [[a|e|] s1] eqn:E1.
  - injection E as _ <-. eapply Hm; eauto.
  - destruct (catches e).
    + eapply Hh; [exact E|]. eapply Hm; eauto.
    + injection E as _ <-. eapply Hm; eauto.
  - injection E as _ <-. eapply Hm; eauto.
Qed.


Section Invariant.

Context (w : world) (cfg : SkillConfig).















End Invariant.

(* ===================================================================== *)
(** ** Subprocess registry and cleanup *)
(* ===================================================================== *)


Lemma signals_app l1 l2 : signals (l1 ++ l2) = signals l1 ++ signals l2.
Proof. unfold signals. apply flat_map_app. Qed.

Lemma signals_polls ps : signals (map EvPoll ps) = [].
Proof. induction ps as [|p r IH]; [reflexivity | exact IH]. Qed.

Lemma signals_terminate force ps :
  signals (map (fun p => EvTerminate p force) ps) = map (fun p => (p, force)) ps.
Proof. induction ps as [|p r IH]; [reflexivity | simpl; now rewrite <- IH]. Qed.

Lemma extends_log_refl s : extends_log s s [].
Proof. unfold extends_log. rewrite app_nil_r. auto. Qed.

Lemma extends_log_trans s1 s2 s3 r1 r2 :
  extends_log s1 s2 r1 -> extends_log s2 s3 r2 -> extends_log s1 s3 (r1 ++ r2).
Proof.
  intros (L1 & T1 & S1 & F1) (L2 & T2 & S2 & F2). unfold extends_log.
  rewrite L2, L1, T2, T1, S2, S1, F2, F1, app_assoc. auto.
Qed.

Lemma extends_log_event s e : extends_log s (with_log (log s ++ [e]) s) [e].
Proof. unfold extends_log. auto. Qed.

Section Registry.

Context (w : world).

(** The polling loop asks each handle once, in order, and sorts it by the
    answer it got at that moment. *)
Lemma partition_live_run ps s :
  NoDup ps ->
  exists ls s',
    partition_live w ps s = (Return ls, s')
    /\ extends_log s s' (map EvPoll ps)
    /\ sublist (fst ls) ps
    /\ (forall p, In p (snd ls) -> In p ps)
    /\ (forall p, In p ps -> In p (fst ls) -> ~ In p (snd ls))
    /\ (forall p, In p ps -> In p (fst ls) \/ In p (snd ls))
    /\ (forall pre p post, ps = pre ++ p :: post ->
          In p (fst ls) <-> poll_running w (log s ++ map EvPoll pre) p = true).
Proof.
  revert s. induction ps as [|q r IH]; intros s Hnd.
  - exists ([], []), s. split; [reflexivity|]. split; [apply extends_log_refl|].
    split; [constructor|]. split; [intros p []|]. split; [intros p []|].
    split; [intros p []|]. intros pre p post E. destruct pre; discriminate.
  - apply NoDup_cons in Hnd as [Hq Hr]. rewrite list_elem_of_In in Hq.
    set (s1 := with_log (log s ++ [EvPoll q]) s).
    destruct (IH s1 Hr) as (ls & s' & E & Hext & Hsub & Hsnd & Hdis & Hcov & Hpoll).
    assert (Hfst : forall p, In p (fst ls) -> In p r).
    { intros p Hp. apply list_elem_of_In. eapply elem_of_sublist; [|exact Hsub].
      apply list_elem_of_In, Hp. }
    exists (if poll_running w (log s) q then (q :: fst ls, snd ls) else (fst ls, q :: snd ls)), s'.
    split; [|split; [|split; [|split; [|split; [|split]]]]].
    + simpl. unfold bind at 1. unfold poll_is_None, ask. fold s1.
      unfold bind at 1. rewrite E. reflexivity.
    + change (map EvPoll (q :: r)) with ([EvPoll q] ++ map EvPoll r).
      eapply extends_log_trans; [apply extends_log_event | exact Hext].
    + destruct (poll_running w (log s) q); simpl.
      * apply sublist_skip, Hsub.
      * apply sublist_cons, Hsub.
    + intros p. destruct (poll_running w (log s) q); simpl.
      * intros Hp. right. apply Hsnd, Hp.
      * intros [->|Hp]; [left; reflexivity | right; apply Hsnd, Hp].
    + intros p Hin. destruct (poll_running w (log s) q); simpl.
      * intros [<-|Hp] Hs; [apply Hq, Hsnd, Hs|].
        apply (Hdis p); [apply Hfst, Hp | exact Hp | exact Hs].
      * intros Hp [<-|Hs]; [apply Hq, Hfst, Hp|].
        apply (Hdis p); [apply Hfst, Hp | exact Hp | exact Hs].
    + intros p [<-|Hp].
      * destruct (poll_running w (log s) q); simpl; auto.
      * destruct (Hcov p Hp); destruct (poll_running w (log s) q); simpl; auto.
    + intros pre p post Edec. destruct pre as [|q' pre'].
      * simpl in Edec. injection Edec as -> ->. rewrite app_nil_r.
        destruct (poll_running w (log s) p); simpl.
        -- split; auto.
        -- split; [intros Hp; exfalso; apply Hq, Hfst, Hp | discriminate].
      * simpl in Edec. injection Edec as <- ->.
        specialize (Hpoll pre' p post eq_refl).
        assert (Hne : q <> p).
        { intros ->. apply Hq. apply in_or_app. right. left. reflexivity. }
        assert (El : log s ++ map EvPoll (q :: pre') = log s1 ++ map EvPoll pre').
        { simpl. rewrite <- app_assoc. reflexivity. }
        rewrite El, <- Hpoll.
        destruct (poll_running w (log s) q); simpl; [|reflexivity].
        split; [intros [?|?]; [contradiction|assumption] | auto].
Qed.

Lemma sublist_In {A} (l k : list A) x : sublist l k -> In x l -> In x k.
Proof.
  intros Hs Hx. apply list_elem_of_In. eapply elem_of_sublist; [|exact Hs].
  apply list_elem_of_In, Hx.
Qed.

Lemma sublist_NoDup_filter (l ps : list proc) :
  sublist l ps -> NoDup ps ->
  List.filter (fun p => bool_decide (p ∈ l)) ps = l.
Proof.
  induction 1 as [|x l1 l2 Hs IH|x l1 l2 Hs IH]; intros Hnd; [reflexivity| |].
  - apply NoDup_cons in Hnd as [Hx Hr]. simpl.
    rewrite bool_decide_eq_true_2 by left. f_equal.
    transitivity (List.filter (fun p => bool_decide (p ∈ l1)) l2); [|apply IH, Hr].
    apply filter_ext_in. intros p Hp.
    apply bool_decide_ext. rewrite elem_of_cons. split; [|auto].
    intros [->|H]; [|exact H]. exfalso. apply Hx, list_elem_of_In, Hp.
  - apply NoDup_cons in Hnd as [Hx Hr]. simpl.
    rewrite bool_decide_eq_false_2; [apply IH, Hr|].
    intros Hi. apply Hx. eapply elem_of_sublist; eauto.
Qed.

(** What one pass of the collection does. *)
Lemma collect_live_run (s : state) :
  NoDup (tracked s) ->
  exists live s',
    _collect_live_subprocesses w s = (Return live, s')
    /\ tracked s' = live
    /\ sublist live (tracked s)
    /\ log s' = log s ++ map EvPoll (tracked s)
    /\ (forall pre p post, tracked s = pre ++ p :: post ->
          In p live <-> poll_running w (log s ++ map EvPoll pre) p = true)
    /\ sessions s' = sessions s /\ files s' = files s.
Proof.
  intros Hnd.
  destruct (partition_live_run (tracked s) s Hnd)
    as (ls & s1 & E & (L1 & T1 & S1 & F1) & Hsub & Hsnd & Hdis & Hcov & Hpoll).
  exists (fst ls), (with_tracked (fst ls) s1).
  split; [|split; [reflexivity|split; [exact Hsub|split; [exact L1|split; [exact Hpoll|]]]]].
  - unfold _collect_live_subprocesses, bind, get_state. rewrite E.
    unfold modify, ret. f_equal. f_equal.
    rewrite (filter_Is_true (fun p => negb (bool_decide (p ∈ snd ls)))), T1.
    transitivity (List.filter (fun p => bool_decide (p ∈ fst ls)) (tracked s));
      [|apply (sublist_NoDup_filter (fst ls) (tracked s) Hsub Hnd)].
    apply filter_ext_in. intros p Hp.
    destruct (bool_decide (p ∈ ls.1)) eqn:B1.
    + apply bool_decide_eq_true_1 in B1. rewrite bool_decide_eq_false_2; [reflexivity|].
      rewrite list_elem_of_In in *. now apply Hdis.
    + apply bool_decide_eq_false_1 in B1. rewrite bool_decide_eq_true_2; [reflexivity|].
      rewrite list_elem_of_In in *. destruct (Hcov p Hp); [contradiction|assumption].
  - split; [exact S1 | exact F1].
Qed.

(** X7. [_collect_live_subprocesses] polls every tracked handle once, in
    order, returns those that answered as running at that moment, and leaves
    exactly these in the registry; it touches nothing else. *)
Theorem collect_live_prunes_stale (s : state) :
  NoDup (tracked s) ->
  exists live s',
    _collect_live_subprocesses w s = (Return live, s')
    /\ tracked s' = live
    /\ sublist live (tracked s)
    /\ log s' = log s ++ map EvPoll (tracked s)
    /\ (forall pre p post, tracked s = pre ++ p :: post ->
          In p live <-> poll_running w (log s ++ map EvPoll pre) p = true)
    /\ sessions s' = sessions s /\ files s' = files s.
Proof. exact (collect_live_run s). Qed.

Lemma terminate_all_run ps s :
  exists s',
    terminate_all ps s = (Return tt, s')
    /\ extends_log s s' (map (fun p => EvTerminate p false) ps).
Proof.
  revert s. induction ps as [|p r IH]; intros s.
  - exists s. split; [reflexivity | apply extends_log_refl].
  - destruct (IH (with_log (log s ++ [EvTerminate p false]) s)) as (s' & E & Hext).
    exists s'. split; [exact E|].
    change (map (fun p => EvTerminate p false) (p :: r))
      with ([EvTerminate p false] ++ map (fun p => EvTerminate p false) r).
    eapply extends_log_trans; [apply extends_log_event | exact Hext].
Qed.

Lemma wait_all_run deadline ps s :
  exists s' rest,
    wait_all w deadline ps s = (Return tt, s')
    /\ extends_log s s' rest /\ signals rest = [].
Proof.
  revert s. induction ps as [|p r IH]; intros s.
  - exists s, []. split; [reflexivity|]. split; [apply extends_log_refl | reflexivity].
  - simpl. unfold bind at 1. unfold time_now, ask.
    set (s1 := with_log (log s ++ [EvTime]) s).
    destruct (PyFloat.le_int (PyFloat.sub deadline (time_time w (log s))) 0).
    + exists s1, [EvTime]. split; [reflexivity|].
      split; [apply extends_log_event | reflexivity].
    + set (e := EvWait p (PyFloat.sub deadline (time_time w (log s)))).
      destruct (IH (with_log (log s1 ++ [e]) s1)) as (s' & rest & E & Hext & Hsig).
      exists s', ([EvTime] ++ [e] ++ rest). split; [exact E|]. split.
      * eapply extends_log_trans; [apply extends_log_event|].
        eapply extends_log_trans; [apply extends_log_event | exact Hext].
      * rewrite !signals_app, Hsig. reflexivity.
Qed.

Lemma kill_survivors_run ps s :
  exists s' rest killed,
    kill_survivors w ps s = (Return tt, s')
    /\ extends_log s s' rest
    /\ signals rest = map (fun p => (p, true)) killed
    /\ sublist killed ps.
Proof.
  revert s. induction ps as [|p r IH]; intros s.
  - exists s, [], []. split; [reflexivity|].
    split; [apply extends_log_refl|]. split; [reflexivity | constructor].
  - simpl. unfold bind at 1. unfold poll_is_None, ask.
    set (s1 := with_log (log s ++ [EvPoll p]) s).
    destruct (poll_running w (log s) p).
    + destruct (IH (with_log (log s1 ++ [EvTerminate p true]) s1))
        as (s' & rest & killed & E & Hext & Hsig & Hsub).
      exists s', ([EvPoll p] ++ [EvTerminate p true] ++ rest), (p :: killed).
      split; [exact E|]. split; [|split].
      * eapply extends_log_trans; [apply extends_log_event|].
        eapply extends_log_trans; [apply extends_log_event | exact Hext].
      * rewrite !signals_app, Hsig. reflexivity.
      * apply sublist_skip, Hsub.
    + destruct (IH s1) as (s' & rest & killed & E & Hext & Hsig & Hsub).
      exists s', ([EvPoll p] ++ rest), killed.
      split; [exact E|]. split; [|split].
      * eapply extends_log_trans; [apply extends_log_event | exact Hext].
      * rewrite !signals_app, Hsig. reflexivity.
      * apply sublist_cons, Hsub.
Qed.

(** X8. [cleanup_tracked_subprocesses] returns the number of tracked
    processes it found running.  The signals it sends are one graceful
    termination for each of these, in order, followed by forced ones for some
    of the same processes only; a process that was not tracked and running
    gets no signal.  Afterwards the registry holds no handle beyond the
    ones found running, and the session store is untouched. *)
Theorem cleanup_signals_live_processes (grace : float) (s : state) :
  NoDup (tracked s) ->
  exists live killed s1 s' rest,
    _collect_live_subprocesses w s = (Return live, s1)
    /\ cleanup_tracked_subprocesses w grace s = (Return (Z.of_nat (length live)), s')
    /\ log s' = log s ++ rest
    /\ signals rest
       = map (fun p => (p, false)) live ++ map (fun p => (p, true)) killed
    /\ sublist killed live
    /\ sublist live (tracked s)
    /\ sublist (tracked s') live
    /\ sessions s' = sessions s /\ files s' = files s.
Proof.
  intros Hnd.
  destruct (collect_live_run s Hnd)
    as (live & s1 & E1 & T1 & Hsub1 & L1 & _ & S1 & F1).
  destruct live as [|p0 live0].
  - exists [], [], s1, s1, (map EvPoll (tracked s)).
    split; [exact E1|]. split.
    { unfold cleanup_tracked_subprocesses, bind. rewrite E1. reflexivity. }
    split; [exact L1|]. split; [apply signals_polls|].
    split; [constructor|]. split; [exact Hsub1|]. split; [rewrite T1; constructor|].
    split; assumption.
  - set (live := p0 :: live0) in *.
    destruct (terminate_all_run live s1) as (s2 & E2 & (L2 & T2 & S2 & F2)).
    set (s3 := with_log (log s2 ++ [EvTime]) s2).
    set (deadline := PyFloat.add (time_time w (log s2)) (max_zero grace)).
    destruct (wait_all_run deadline live s3) as (s4 & rest4 & E4 & (L4 & T4 & S4 & F4) & Sig4).
    destruct (kill_survivors_run live s4)
      as (s5 & rest5 & killed & E5 & (L5 & T5 & S5 & F5) & Sig5 & Hsub5).
    assert (Hnd5 : NoDup (tracked s5)).
    { rewrite T5, T4. simpl. rewrite T2, T1. eapply sublist_NoDup; [exact Hnd | exact Hsub1]. }
    destruct (collect_live_run s5 Hnd5)
      as (live6 & s6 & E6 & T6 & Hsub6 & L6 & _ & S6 & F6).
    exists live, killed, s1, s6,
      (map EvPoll (tracked s) ++ map (fun p => EvTerminate p false) live ++ [EvTime]
         ++ rest4 ++ rest5 ++ map EvPoll (tracked s5)).
    split; [exact E1|]. split.
    { unfold cleanup_tracked_subprocesses.
      eapply eq_trans; [eapply bind_Return; exact E1|].
      cbv beta iota delta [live].
      eapply eq_trans; [eapply bind_Return; exact E2|].
      eapply eq_trans; [eapply bind_Return; reflexivity|].
      eapply eq_trans; [eapply bind_Return; exact E4|].
      eapply eq_trans; [eapply bind_Return; exact E5|].
      eapply eq_trans; [eapply bind_Return; exact E6|].
      reflexivity. }
    split.
    { rewrite L6, L5, L4. simpl. rewrite L2, L1. rewrite <- !app_assoc. reflexivity. }
    split.
    { rewrite !signals_app, !signals_polls, Sig4, Sig5, signals_terminate.
      simpl. rewrite app_nil_r. reflexivity. }
    split; [exact Hsub5|]. split; [exact Hsub1|]. split.
    { rewrite T6. rewrite T5, T4 in Hsub6. simpl in Hsub6. rewrite T2, T1 in Hsub6.
      exact Hsub6. }
    split.
    + rewrite S6, S5, S4. simpl. rewrite S2, S1. reflexivity.
    + rewrite F6, F5, F4. simpl. rewrite F2, F1. reflexivity.
Qed.

End Registry.

(* ===================================================================== *)
(** ** Task prompts and adapter hints *)
(* ===================================================================== *)


Lemma contains_app needle a b :
  contains needle b = true -> contains needle (a +:+ b) = true.
Proof.
  unfold contains. intros H. induction a as [|c a IH]; [exact H|].
  change (String c a +:+ b) with (String c (a +:+ b)).
  cbn [String.index].
  destruct (String.prefix needle (String c (a +:+ b))); [reflexivity|].
  destruct (String.index 0 needle (a +:+ b)); [reflexivity | discriminate].
Qed.

Lemma is_space_In s : is_space s = true -> In s whitespace.
Proof.
  unfold is_space. intros H. apply existsb_exists in H as (w & Hw & E).
  apply String.eqb_eq in E. now subst.
Qed.

Lemma lstrip_id s : space_led s = false -> lstrip s = s.
Proof.
  destruct s as [|c1 [|c2 [|c3 r]]]; [reflexivity| | |]; cbn [space_led lstrip]; intros H.
  - rewrite orb_false_r in H. now rewrite H.
  - apply orb_false_elim in H as [H1 H2]. rewrite orb_false_r in H2. now rewrite H1, H2.
  - apply orb_false_elim in H as [H1 H2]. apply orb_false_elim in H2 as [H2 H3].
    now rewrite H1, H2, H3.
Qed.

Lemma lstrip_not_led_upto (n : nat) :
  forall s, (String.length s <= n)%nat -> space_led (lstrip s) = false.
Proof.
  induction n as [|n IH]; intros s Hn.
  - destruct s; [reflexivity | simpl in Hn; lia].
  - destruct s as [|c1 r1]; [reflexivity|].
    cbn [String.length] in Hn.
    cbn [lstrip].
    destruct (is_space (String c1 "")) eqn:E1; [apply IH; lia|].
    destruct r1 as [|c2 r2]; [cbn [space_led]; now rewrite E1|].
    cbn [String.length] in Hn.
    destruct (is_space (String c1 (String c2 ""))) eqn:E2; [apply IH; lia|].
    destruct r2 as [|c3 r3]; [cbn [space_led]; now rewrite E1, E2|].
    cbn [String.length] in Hn.
    destruct (is_space (String c1 (String c2 (String c3 "")))) eqn:E3; [apply IH; lia|].
    cbn [space_led]. now rewrite E1, E2, E3.
Qed.

Lemma lstrip_not_led s : space_led (lstrip s) = false.
Proof. exact (lstrip_not_led_upto (String.length s) s (le_n _)). Qed.

Lemma space_led_app p q : space_led p = true -> space_led (p +:+ q) = true.
Proof.
  destruct p as [|c1 [|c2 [|c3 r]]]; cbn [space_led]; intros H; try discriminate.
  - rewrite orb_false_r in H.
    change (String c1 "" +:+ q) with (String c1 q). cbn [space_led]. now rewrite H.
  - rewrite orb_false_r in H.
    change (String c1 (String c2 "") +:+ q) with (String c1 (String c2 q)).
    cbn [space_led]. apply orb_true_iff in H as [H|H]; rewrite H; [reflexivity|].
    rewrite orb_true_l. apply orb_true_r.
  - change (String c1 (String c2 (String c3 r)) +:+ q)
      with (String c1 (String c2 (String c3 (r +:+ q)))).
    cbn [space_led]. exact H.
Qed.

Lemma rstrip_prefix s : exists q, s = rstrip s +:+ q.
Proof.
  induction s as [|c r (q & IH)]; [exists ""; reflexivity|].
  cbn [rstrip]. cbv zeta. destruct (is_space (String c (rstrip r))).
  - exists (String c r). reflexivity.
  - exists q. change (String c (rstrip r) +:+ q) with (String c (rstrip r +:+ q)).
    now rewrite <- IH.
Qed.

Lemma rstrip_idempotent s : rstrip (rstrip s) = rstrip s.
Proof.
  induction s as [|c r IH]; [reflexivity|].
  cbn [rstrip]. cbv zeta. destruct (is_space (String c (rstrip r))) eqn:E; [reflexivity|].
  cbn [rstrip]. cbv zeta. rewrite IH, E. reflexivity.
Qed.

Lemma strip_not_led s : space_led (strip s) = false.
Proof.
  unfold strip. destruct (space_led (rstrip (lstrip s))) eqn:E; [|reflexivity].
  destruct (rstrip_prefix (lstrip s)) as (q & Hq).
  apply (space_led_app _ q) in E. rewrite <- Hq, lstrip_not_led in E. discriminate.
Qed.

Lemma strip_idempotent s : strip (strip s) = strip s.
Proof.
  unfold strip at 1. rewrite (lstrip_id _ (strip_not_led s)).
  unfold strip. apply rstrip_idempotent.
Qed.

Lemma append_assoc' a b c : (a +:+ b) +:+ c = a +:+ (b +:+ c).
Proof.
  induction a as [|x a IH]; [reflexivity|].
  change (String x ((a +:+ b) +:+ c) = String x (a +:+ (b +:+ c))). now rewrite IH.
Qed.

(** No white-space character ends with the byte of a full stop. *)
Lemma full_stop_ends_no_space s : is_space (s +:+ full_stop) = false.
Proof.
  destruct (is_space (s +:+ full_stop)) eqn:H; [|reflexivity]. exfalso.
  destruct s as [|c1 [|c2 [|c3 [|c4 r]]]]; (apply is_space_In in H; no_space H).
Qed.

Lemma rstrip_ends_full_stop s : rstrip (s +:+ full_stop) = s +:+ full_stop.
Proof.
  induction s as [|x s IH]; [vm_compute; reflexivity|].
  change (String x s +:+ full_stop) with (String x (s +:+ full_stop)).
  cbn [rstrip]. cbv zeta. rewrite IH.
  change (String x (s +:+ full_stop)) with (String x s +:+ full_stop).
  now rewrite full_stop_ends_no_space.
Qed.

(** No white-space character has a line feed after its first byte. *)
Lemma space_led_newline s r :
  s <> EmptyString -> space_led s = false -> space_led (s +:+ newline +:+ r) = false.
Proof.
  intros Hs H. destruct s as [|c1 [|c2 [|c3 s]]]; [contradiction| | |].
  - cbn [space_led] in H. rewrite orb_false_r in H.
    change (space_led (String c1 (String (Ascii.ascii_of_nat 10) r)) = false).
    cbn [space_led]. rewrite H. cbn [orb].
    destruct (is_space (String c1 (String _ ""))) eqn:E2;
      [exfalso; apply is_space_In in E2; no_space E2|].
    destruct r as [|c3 r]; [reflexivity|]. cbn [orb].
    destruct (is_space (String c1 (String _ (String c3 "")))) eqn:E3;
      [exfalso; apply is_space_In in E3; no_space E3 | reflexivity].
  - cbn [space_led] in H. apply orb_false_elim in H as [H1 H2]. rewrite orb_false_r in H2.
    change (space_led (String c1 (String c2 (String (Ascii.ascii_of_nat 10) r))) = false).
    cbn [space_led]. rewrite H1, H2. cbn [orb].
    destruct (is_space (String c1 (String c2 (String _ "")))) eqn:E3;
      [exfalso; apply is_space_In in E3; no_space E3 | reflexivity].
  - exact H.
Qed.

Lemma guard_ends_with_stop :
  exists g0, _COMPLETE_AND_STOP_GUARD = g0 +:+ full_stop.
Proof.
  exists (substring 0 (String.length _COMPLETE_AND_STOP_GUARD - 1) _COMPLETE_AND_STOP_GUARD).
  vm_compute; reflexivity.
Qed.

Lemma strip_guarded s :
  s <> EmptyString -> space_led s = false ->
  strip (s +:+ newline +:+ newline +:+ _COMPLETE_AND_STOP_GUARD)
  = s +:+ newline +:+ newline +:+ _COMPLETE_AND_STOP_GUARD.
Proof.
  intros Hs E. destruct guard_ends_with_stop as (g0 & ->).
  unfold strip. rewrite (lstrip_id _ (space_led_newline s _ Hs E)).
  rewrite <- !append_assoc'. apply rstrip_ends_full_stop.
Qed.

Lemma contains_guard : contains stop_phrase _COMPLETE_AND_STOP_GUARD = true.
Proof. vm_compute. reflexivity. Qed.

Lemma strip_guard : strip _COMPLETE_AND_STOP_GUARD = _COMPLETE_AND_STOP_GUARD.
Proof. vm_compute. reflexivity. Qed.

Lemma guard_contains_stop_phrase tsk :
  contains stop_phrase (_ensure_complete_and_stop_guard tsk) = true.
Proof.
  unfold _ensure_complete_and_stop_guard.
  destruct (negb (truthy_str (strip tsk))); [apply contains_guard|].
  fold stop_phrase.
  destruct (contains stop_phrase (strip tsk)) eqn:E; [exact E|].
  apply contains_app, contains_app, contains_app, contains_guard.
Qed.

(** X9. [_ensure_complete_and_stop_guard] is idempotent and its result
    always contains the stop instruction, as does the prompt
    [_build_stateless_task] builds; a task that already contains the
    instruction is only stripped. *)
Theorem complete_and_stop_guard_once (tsk : string) :
  _ensure_complete_and_stop_guard (_ensure_complete_and_stop_guard tsk)
    = _ensure_complete_and_stop_guard tsk
  /\ contains stop_phrase (_ensure_complete_and_stop_guard tsk) = true
  /\ contains stop_phrase (_build_stateless_task tsk) = true
  /\ (contains stop_phrase (strip tsk) = true ->
      _ensure_complete_and_stop_guard tsk = strip tsk).
Proof.
  split; [|split; [apply guard_contains_stop_phrase|split]].
  - pose proof (guard_contains_stop_phrase tsk) as Hc.
    assert (Hs : strip (_ensure_complete_and_stop_guard tsk)
                 = _ensure_complete_and_stop_guard tsk).
    { unfold _ensure_complete_and_stop_guard.
      destruct (strip tsk) as [|c r] eqn:E; [apply strip_guard|].
      rewrite <- E.
      destruct (negb (truthy_str (strip tsk))); [apply strip_guard|].
      destruct (contains _ (strip tsk)); [apply strip_idempotent|].
      apply strip_guarded; [rewrite E; discriminate | apply strip_not_led]. }
    assert (Hn : truthy_str (_ensure_complete_and_stop_guard tsk) = true).
    { destruct (_ensure_complete_and_stop_guard tsk); [|reflexivity].
      vm_compute in Hc. discriminate. }
    unfold _ensure_complete_and_stop_guard at 1.
    rewrite Hs, Hn. simpl negb. cbv iota. fold stop_phrase. rewrite Hc. reflexivity.
  - unfold _build_stateless_task.
    repeat apply contains_app. apply guard_contains_stop_phrase.
  - intros H. unfold _ensure_complete_and_stop_guard. fold stop_phrase. rewrite H.
    destruct (strip tsk) eqn:E; [vm_compute in H; discriminate|]. reflexivity.
Qed.

Lemma setdefault_union k v (d : gmap string pyval) : setdefault k v d = d ∪ {[ k := v ]}.
Proof.
  unfold setdefault. destruct (d !! k) eqn:E.
  - apply map_eq. intros j. rewrite lookup_union.
    destruct (decide (j = k)) as [->|Hne].
    + rewrite E, lookup_singleton_eq. reflexivity.
    + rewrite lookup_singleton_ne by congruence. destruct (d !! j); reflexivity.
  - apply insert_union_singleton_r, E.
Qed.

(** X10. [_build_stateless_extra_info] is the caller's dictionary completed
    by the six stateless defaults: a key the caller supplied keeps the
    caller's value, a key the caller left out takes its default.  Building
    twice changes nothing, and the [setdefault] calls with which
    [_start_adapter_task] prepares its fallback leave such a dictionary as it
    is. *)
Theorem stateless_extra_info_keeps_caller_keys (extra_info : option (gmap string pyval)) :
  _build_stateless_extra_info extra_info = dict_or_empty extra_info ∪ stateless_defaults
  /\ (forall k v, dict_or_empty extra_info !! k = Some v ->
        _build_stateless_extra_info extra_info !! k = Some v)
  /\ (forall k, dict_or_empty extra_info !! k = None ->
        _build_stateless_extra_info extra_info !! k = stateless_defaults !! k)
  /\ _build_stateless_extra_info (Some (_build_stateless_extra_info extra_info))
     = _build_stateless_extra_info extra_info
  /\ (forall re : bool,
        setdefault "reflush_app" (PBool re)
          (setdefault "reset_environment" (PBool re)
             (dict_or_empty (Some (_build_stateless_extra_info extra_info))))
        = _build_stateless_extra_info extra_info).
Proof.
  assert (E : forall e, _build_stateless_extra_info e = dict_or_empty e ∪ stateless_defaults).
  { intros e. unfold _build_stateless_extra_info. rewrite !setdefault_union.
    rewrite <- !(assoc_L (∪)). f_equal. }
  split; [apply E|]. split; [|split; [|split]].
  - intros k v H. rewrite E. apply lookup_union_Some_l, H.
  - intros k H. rewrite E. rewrite lookup_union_r by exact H. reflexivity.
  - rewrite (E (Some _)). simpl. rewrite E.
    rewrite <- (assoc_L (∪)). rewrite map_union_idemp. reflexivity.
  - intros re. simpl. rewrite !setdefault_union, E.
    rewrite <- !(assoc_L (∪)).
    assert (D : stateless_defaults
                ∪ ({[ "reset_environment"%string := PBool re ]}
                   ∪ {[ "reflush_app"%string := PBool re ]})
                = stateless_defaults).
    { apply map_eq. intros k. rewrite !lookup_union.
      destruct (stateless_defaults !! k) eqn:D; simpl.
      + destruct ({[ "reset_environment"%string := PBool re ]} !! k),
                 ({[ "reflush_app"%string := PBool re ]} !! k); reflexivity.
      + destruct (decide (k = "reset_environment"%string)) as [->|N1];
          [vm_compute in D; discriminate|].
        destruct (decide (k = "reflush_app"%string)) as [->|N2];
          [vm_compute in D; discriminate|].
        rewrite !lookup_singleton_ne by congruence. reflexivity. }
    rewrite D. reflexivity.
Qed.

(* ===================================================================== *)
(** ** Timeout wrapper and entry points *)
(* ===================================================================== *)


Section TimeoutWrapper.

Context (w : world).

(** X11. With a timeout, [_run_with_timeout] always comes back, whatever
    the job does; a timeout that is not positive is rejected before the job
    is run.  Without a timeout, a job that never ends keeps the call from
    returning. *)
Theorem run_with_timeout_comes_back (func : job) (t : Z) (name : string) (s : state) :
  fst (_run_with_timeout w func (Some t) name s) <> Diverge
  /\ (t <= 0 ->
      _run_with_timeout w func (Some t) name s
      = (Raise (ExecutorError "timeout_sec must be greater than 0."), s))
  /\ (fst (func s) = Never ->
      fst (_run_with_timeout w func None name s) = Diverge).
Proof.
  split; [|split].
  - destruct (Z_le_gt_dec t 0) as [Et|Et].
    { unfold _run_with_timeout. apply Z.leb_le in Et. rewrite Et. discriminate. }
    apply Z.gt_lt in Et.
    destruct (Z_lt_le_dec (TIMEOUT_MAX w) t) as [Em|Em].
    { rewrite (run_with_timeout_beyond_TIMEOUT_MAX w func t name s Et Em). discriminate. }
    destruct (is_alive (joined (fst (func s)) t)) eqn:Ea.
    + destruct (run_with_timeout_times_out w func t name s Et Em Ea) as (n & s' & _ & E).
      rewrite E. discriminate.
    + unfold _run_with_timeout. apply Z.leb_gt in Et. apply Z.ltb_ge in Em. rewrite Et.
      unfold bind. cbn [fst snd]. rewrite Em, Ea.
      destruct (error_holder (joined (fst (func s)) t)); [discriminate|].
      destruct (result_holder (joined (fst (func s)) t)); discriminate.
  - intros Ht. unfold _run_with_timeout.
    apply Z.leb_le in Ht. rewrite Ht. reflexivity.
  - intros Hn. unfold _run_with_timeout.
    destruct (func s) as [e s1]. simpl in Hn. subst e. reflexivity.
Qed.

(** X12. For a job that ends within a positive deadline that
    [threading.TIMEOUT_MAX] admits, [_run_with_timeout] hands on the job's
    value or re-raises its exception, in the state the job left and with no
    cleanup: exactly what the call without a timeout does.  With a deadline
    beyond [threading.TIMEOUT_MAX] the job is still run, and the wait for it
    raises OverflowError instead, whatever the job did. *)
Theorem run_with_timeout_in_time (func : job) (t : Z) (name : string)
    (s s1 : state) (o : pyval + exn) (elapsed : float) :
  0 < t ->
  func s = (Ends o elapsed, s1) ->
  PyFloat.le_int elapsed t = true ->
  (t <= TIMEOUT_MAX w ->
   _run_with_timeout w func (Some t) name s = (outcome o, s1)
   /\ _run_with_timeout w func None name s = (outcome o, s1))
  /\ (TIMEOUT_MAX w < t ->
      _run_with_timeout w func (Some t) name s
      = (Raise (OverflowError "timestamp too large to convert to C _PyTime_t"), s1)).
Proof.
  intros Ht E Hin. split.
  - intros Hm. unfold _run_with_timeout.
    apply Z.leb_gt in Ht. rewrite Ht. apply Z.ltb_ge in Hm.
    unfold bind. rewrite E. cbn [fst snd]. rewrite Hm.
    unfold joined. rewrite Hin. destruct o; split; reflexivity.
  - intros Hm. rewrite (run_with_timeout_beyond_TIMEOUT_MAX w func t name s Ht Hm).
    now rewrite E.
Qed.

End TimeoutWrapper.

Section EntryPointEdges.

Context (w : world) (cfg : SkillConfig).

(** Device selection asks for the device list exactly once, however it ends. *)
Lemma select_device_state dev s :
  snd (_select_device w cfg dev s) = with_log (log s ++ [EvListDevices]) s.
Proof.
  assert (Hens : forall (id : string) (d : string),
            snd ((_ensure_device_connected w id ;;; ret d) s)
            = with_log (log s ++ [EvListDevices]) s).
  { intros id d. unfold _ensure_device_connected, list_devices, bind.
    destruct (adb_devices w (log s)) as [[|d0 r]|e|]; simpl; try reflexivity.
    destruct (bool_decide (id ∈ d0 :: r)); reflexivity. }
  unfold _select_device.
  destruct (truthy_opt_str dev); [apply Hens|].
  destruct (truthy_opt_str (default_device_id cfg)); [apply Hens|].
  unfold list_devices, bind.
  destruct (adb_devices w (log s)) as [[|d0 [|d1 r]]|e|]; reflexivity.
Qed.

(** X13. [execute_task] rejects tap-only mode, a missing provider, a step
    limit that is not positive and a provider that fails validation with a
    result without session id, before it interacts with anything.  With
    these guards passed, a failing device selection is reported as a result
    after the one look at the device list, and no session is created. *)
Theorem execute_task_rejects_before_acting (tsk : string) (prov dev : option string)
    (max_steps timeout_sec : option Z) (extra : option (gmap string pyval))
    (stateless : bool) (s : state) :
  (tap_only_mode cfg = true
   \/ truthy_str (effective_provider cfg prov) = false
   \/ effective_max_steps cfg stateless max_steps <= 0
   \/ fst (validate_provider w (effective_provider cfg prov)) = false ->
   exists r,
     execute_task w cfg tsk prov dev max_steps timeout_sec extra stateless s = (Return r, s)
     /\ od_get r "success" = Some (PBool false)
     /\ od_get r "session_id" = None)
  /\ (forall msg,
        tap_only_mode cfg = false ->
        truthy_str (effective_provider cfg prov) = true ->
        0 < effective_max_steps cfg stateless max_steps ->
        fst (validate_provider w (effective_provider cfg prov)) = true ->
        fst (_select_device w cfg dev s) = Raise (ExecutorError msg) ->
        execute_task w cfg tsk prov dev max_steps timeout_sec extra stateless s
        = (Return [ ("success", PBool false); ("error", PStr msg);
                    ("message", PStr msg) ]%string,
           with_log (log s ++ [EvListDevices]) s)).
Proof.
  split.
  - intros H. unfold execute_task.
    destruct (tap_only_mode cfg) eqn:Etap.
    { eexists. split; [reflexivity|]. split; reflexivity. }
    destruct H as [H|H]; [discriminate|].
    destruct (truthy_str (effective_provider cfg prov)) eqn:Eprov; simpl.
    2:{ eexists. split; [reflexivity|]. split; reflexivity. }
    destruct H as [H|H]; [discriminate|].
    destruct (effective_max_steps cfg stateless max_steps <=? 0) eqn:Esteps.
    { eexists. split; [reflexivity|]. split; reflexivity. }
    apply Z.leb_gt in Esteps.
    destruct H as [H|H]; [lia|].
    destruct (validate_provider w (effective_provider cfg prov)) as [valid msg].
    simpl in H. subst valid. simpl.
    eexists. split; [reflexivity|]. split; reflexivity.
  - intros msg Htap Hprov Hsteps Hvalid Hsel. unfold execute_task.
    rewrite Htap, Hprov. simpl negb. cbv iota.
    destruct (effective_max_steps cfg stateless max_steps <=? 0) eqn:E;
      [apply Z.leb_le in E; lia|].
    destruct (validate_provider w (effective_provider cfg prov)) as [valid vmsg].
    simpl in Hvalid. subst valid. simpl negb. cbv iota.
    pose proof (select_device_state dev s) as Hst.
    destruct (_select_device w cfg dev s) as [c s0] eqn:Es. simpl in Hsel, Hst. subst c s0.
    eapply eq_trans.
    { eapply bind_Return.
      eapply eq_trans;
        [eapply try_except_caught; [eapply bind_Raise; exact Es | reflexivity]
        |reflexivity]. }
    reflexivity.
Qed.

(** X14. A stateless [execute_task] never changes the session table or the
    session files, however it ends, and no result of it reports a persisted
    session or a supported continuation. *)
Theorem stateless_execute_leaves_store (tsk : string) (prov dev : option string)
    (max_steps timeout_sec : option Z) (extra : option (gmap string pyval)) (s : state) :
  sessions (snd (execute_task w cfg tsk prov dev max_steps timeout_sec extra true s))
    = sessions s
  /\ files (snd (execute_task w cfg tsk prov dev max_steps timeout_sec extra true s))
     = files s
  /\ (forall r,
        fst (execute_task w cfg tsk prov dev max_steps timeout_sec extra true s) = Return r ->
        od_get r "session_persisted" <> Some (PBool true)
        /\ od_get r "continuation_supported" <> Some (PBool true)).
Proof.
  assert (K : keeps_store (execute_task w cfg tsk prov dev max_steps timeout_sec extra true)).
  { unfold execute_task.
    destruct (tap_only_mode cfg); [apply keeps_store_ret|].
    destruct (negb (truthy_str (effective_provider cfg prov))); [apply keeps_store_ret|].
    destruct (effective_max_steps cfg true max_steps <=? 0); [apply keeps_store_ret|].
    destruct (validate_provider w (effective_provider cfg prov)) as [valid msg].
    destruct (negb valid); [apply keeps_store_ret|].
    apply keeps_store_bind.
    - apply keeps_store_try_except.
      + apply keeps_store_bind; [apply keeps_store_select_device|].
        intros; apply keeps_store_ret.
      + intros; apply keeps_store_ret.
    - intros [d|failure]; [|apply keeps_store_ret].
      apply keeps_store_bind.
      + apply keeps_store_bind; [apply keeps_store_ask|]. intros; apply keeps_store_ret.
      + intros [[sid task_to_run] adapter_extra_info].
        apply keeps_store_run_prepared_stateless. }
  destruct (execute_task w cfg tsk prov dev max_steps timeout_sec extra true s)
    as [c s'] eqn:E.
  destruct (K s c s' E) as (Hs & Hf & _).
  split; [exact Hs|]. split; [exact Hf|].
  intros r Hr. simpl in Hr. subst c. revert E. unfold execute_task.
  destruct (tap_only_mode cfg).
  { intros [= <- _]. split; discriminate. }
  destruct (negb (truthy_str (effective_provider cfg prov))).
  { intros [= <- _]. split; discriminate. }
  destruct (effective_max_steps cfg true max_steps <=? 0).
  { intros [= <- _]. split; discriminate. }
  destruct (validate_provider w (effective_provider cfg prov)) as [valid msg].
  destruct (negb valid).
  { intros [= <- _]. split; discriminate. }
  intros E.
  apply bind_cases in E as [(sel & s0 & Hsel & E) | [(e & _ & ?) | (_ & ?)]];
    try discriminate.
  destruct sel as [d|failure].
  2:{ injection E as <- _. unfold try_except in Hsel.
      destruct ((let! d := _select_device w cfg dev in ret (inl d)) s)
        as [[a|e|] s0'] eqn:E0.
      - unfold bind in E0.
        destruct (_select_device w cfg dev s) as [[?|?|] ?]; try discriminate.
        injection E0 as <- _. discriminate.
      - destruct (is_ExecutorError e); [|discriminate].
        injection Hsel as <- _. split; discriminate.
      - discriminate. }
  apply bind_cases in E as [(prep & s1 & _ & E) | [(e & _ & ?) | (_ & ?)]];
    try discriminate.
  destruct prep as [[sid task_to_run] adapter_extra_info].
  unfold run_prepared in E.
  apply bind_cases in E as [(ran & s2 & Hran & E) | [(e & _ & ?) | (_ & ?)]];
    try discriminate.
  destruct ran as [res|failure].
  - unfold _process_result in E.
    apply bind_cases in E as [(post & s3 & _ & E) | [(e & _ & ?) | (_ & ?)]];
      try discriminate.
    injection E as <- _. split; discriminate.
  - injection E as <- _.
    unfold try_except in Hran.
    destruct ((let! res := start_under_timeout w (effective_provider cfg prov) d
                 task_to_run (effective_max_steps cfg true max_steps)
                 adapter_extra_info true (effective_timeout cfg timeout_sec)
               in ret (inl res)) s1) as [[a|e|] s2'] eqn:E2.
    + unfold bind in E2.
      destruct (start_under_timeout w _ _ _ _ _ _ _ s1) as [[?|?|] ?]; try discriminate.
      injection E2 as <- _. discriminate.
    + destruct (is_Exception e); [|discriminate].
      injection Hran as <- _. unfold execute_failure.
      rewrite !od_get_set. simpl. split; discriminate.
    + discriminate.
Qed.

End EntryPointEdges.

Section EntryPointEdges2.

Context (w : world) (cfg : SkillConfig).


(** X16. Outside tap-only mode, [continue_session] with an id the table does
    not have returns the "Session not found" result and changes nothing; for
    an active, unexpired session and a step limit that is not positive it
    returns the "Invalid max_steps" result carrying the session id, having
    only read the clock. *)
Theorem continue_session_rejects_without_adapter (id : string)
    (reply tsk dev : option string) (max_steps timeout_sec : option Z) (s : state) :
  tap_only_mode cfg = false ->
  (od_get (sessions s) id = None ->
   continue_session w cfg (Some id) reply tsk dev max_steps timeout_sec s
   = (Return [ ("success", PBool false);
               ("error", PStr ("Session not found: " +:+ id));
               ("message", PStr ("Session " +:+ id +:+ " not found or expired.")) ]%string,
      s))
  /\ (forall x,
        od_get (sessions s) id = Some x ->
        status x = "active"%string ->
        is_expired cfg (time_time w (log s)) x = false ->
        int_or max_steps (default_max_steps cfg) <= 0 ->
        continue_session w cfg (Some id) reply tsk dev max_steps timeout_sec s
        = (Return [ ("success", PBool false);
                    ("session_id", PStr (session_id x));
                    ("error", PStr "Invalid max_steps: must be > 0");
                    ("message", PStr "Invalid max_steps: must be > 0") ]%string,
           with_log (log s ++ [EvTime]) s)).
Proof.
  intros Htap. split.
  - intros G. unfold continue_session. rewrite Htap.
    eapply eq_trans.
    { eapply bind_Return. unfold find_session.
      eapply eq_trans; [eapply bind_Return; exact (get_session_unknown w cfg id s G)|].
      reflexivity. }
    reflexivity.
  - intros x G Hact Hexp Hsteps. unfold continue_session. rewrite Htap.
    eapply eq_trans.
    { eapply bind_Return. unfold find_session.
      eapply eq_trans; [eapply bind_Return; exact (get_session_found w cfg id s x G)|].
      reflexivity. }
    unfold as_read, read_state. rewrite Hexp. cbv beta iota. rewrite Hact.
    simpl negb. cbv iota. unfold continue_active.
    apply Z.leb_le in Hsteps. rewrite Hsteps. reflexivity.
Qed.


End EntryPointEdges2.

(* ===================================================================== *)
(** ** Screen size from a screenshot *)
(* ===================================================================== *)


Lemma bytes_eqb_eq a b : bytes_eqb a b = true <-> a = b.
Proof.
  revert b. induction a as [|x a IH]; intros [|y b]; simpl; try (split; congruence).
  rewrite andb_true_iff, IH. split.
  - intros [H ->]. apply Byte.byte_dec_bl in H. now subst.
  - intros [= -> ->]. split; [now apply Byte.byte_dec_lb|reflexivity].
Qed.

Lemma int_from_bytes_big_4 (b1 b2 b3 b4 : Byte.byte) :
  int_from_bytes_big [b1; b2; b3; b4]
  = ((Z.of_N (Byte.to_N b1) * 256 + Z.of_N (Byte.to_N b2)) * 256
     + Z.of_N (Byte.to_N b3)) * 256 + Z.of_N (Byte.to_N b4).
Proof. reflexivity. Qed.

Lemma byte_range (b : Byte.byte) : 0 <= Z.of_N (Byte.to_N b) <= 255.
Proof. pose proof (Byte.to_N_bounded b). lia. Qed.

Lemma int_from_bytes_big_range (bs : bytes) :
  length bs = 4%nat -> 0 <= int_from_bytes_big bs < 2 ^ 32.
Proof.
  destruct bs as [|b1 [|b2 [|b3 [|b4 [|? ?]]]]]; try discriminate. intros _.
  rewrite int_from_bytes_big_4.
  pose proof (byte_range b1). pose proof (byte_range b2).
  pose proof (byte_range b3). pose proof (byte_range b4).
  change (2 ^ 32) with 4294967296. lia.
Qed.

Lemma to_N_of_N_default (k : Z) :
  0 <= k <= 255 -> Z.of_N (Byte.to_N (default Byte.x00 (Byte.of_N (Z.to_N k)))) = k.
Proof.
  intros Hk. destruct (Byte.of_N (Z.to_N k)) as [b|] eqn:E.
  - apply Byte.to_of_N in E. simpl. rewrite E. lia.
  - apply Byte.of_N_None_iff in E. lia.
Qed.

Lemma int_from_bytes_big_be32 (n : Z) :
  0 <= n < 2 ^ 32 -> int_from_bytes_big (be32 n) = n.
Proof.
  intros Hn. unfold be32. cbn [map]. rewrite int_from_bytes_big_4.
  change (2 ^ 32) with 4294967296 in Hn.
  change (256 ^ 3) with (256 * 256 * 256). change (256 ^ 2) with (256 * 256).
  change (256 ^ 1) with 256. change (256 ^ 0) with 1.
  rewrite <- !Z.div_div by lia. rewrite Z.div_1_r.
  set (a0 := n / 256). set (a1 := a0 / 256). set (a2 := a1 / 256).
  pose proof (Z.div_mod n 256 ltac:(lia)) as H0. fold a0 in H0.
  pose proof (Z.div_mod a0 256 ltac:(lia)) as H1. fold a1 in H1.
  pose proof (Z.div_mod a1 256 ltac:(lia)) as H2. fold a2 in H2.
  pose proof (Z.mod_pos_bound n 256 ltac:(lia)).
  pose proof (Z.mod_pos_bound a0 256 ltac:(lia)).
  pose proof (Z.mod_pos_bound a1 256 ltac:(lia)).
  pose proof (Z.mod_pos_bound a2 256 ltac:(lia)).
  assert (0 <= a2 < 256).
  { unfold a2, a1, a0. rewrite !Z.div_div by lia. split.
    - apply Z.div_pos; lia.
    - apply Z.div_lt_upper_bound; lia. }
  rewrite !to_N_of_N_default by lia.
  rewrite (Z.mod_small a2 256) by lia. lia.
Qed.

Section PngSizeProperties.

Context (b64decode : string -> option bytes).

Lemma slice_length {A} (i j : nat) (l : list A) :
  (i <= j)%nat -> (j <= length l)%nat -> length (slice i j l) = (j - i)%nat.
Proof.
  intros Hij Hj. unfold slice. rewrite length_firstn, length_skipn. lia.
Qed.

(** What a returned size tells about the input. *)
Lemma extract_png_size_inv (screenshot_b64 : option string) (w h : Z) :
  _extract_png_size b64decode screenshot_b64 = Some (w, h) ->
  0 < w < 2 ^ 32 /\ 0 < h < 2 ^ 32
  /\ exists s image_bytes,
       screenshot_b64 = Some s /\ s <> ""%string
       /\ b64decode s = Some image_bytes
       /\ (24 <= length image_bytes)%nat
       /\ firstn 8 image_bytes = png_signature
       /\ w = int_from_bytes_big (slice 16 20 image_bytes)
       /\ h = int_from_bytes_big (slice 20 24 image_bytes).
Proof.
  unfold _extract_png_size. intros H.
  destruct screenshot_b64 as [s|]; [|discriminate]. simpl in H.
  destruct (truthy_str s) eqn:Et; [|discriminate]. simpl in H.
  destruct (b64decode s) as [image_bytes|] eqn:Ed; [|discriminate].
  destruct (length image_bytes <? 24)%nat eqn:El; [discriminate|].
  apply Nat.ltb_ge in El.
  destruct (bytes_eqb (slice 0 8 image_bytes) png_signature) eqn:Es; [|discriminate].
  destruct (bytes_eqb (slice 12 16 image_bytes) ihdr_tag) eqn:Ei; [|discriminate].
  simpl in H.
  pose proof (int_from_bytes_big_range (slice 16 20 image_bytes)
                (slice_length 16 20 image_bytes ltac:(lia) ltac:(lia))) as Hw.
  pose proof (int_from_bytes_big_range (slice 20 24 image_bytes)
                (slice_length 20 24 image_bytes ltac:(lia) ltac:(lia))) as Hh.
  destruct (int_from_bytes_big (slice 16 20 image_bytes) <=? 0) eqn:Ew; [discriminate|].
  destruct (int_from_bytes_big (slice 20 24 image_bytes) <=? 0) eqn:Eh; [discriminate|].
  simpl in H. injection H as <- <-.
  apply Z.leb_gt in Ew, Eh.
  split; [lia|]. split; [lia|].
  exists s, image_bytes. split; [reflexivity|].
  split; [now apply truthy_str_nonempty|]. split; [exact Ed|]. split; [exact El|].
  split; [apply bytes_eqb_eq in Es; exact Es|]. split; reflexivity.
Qed.

(** X18. A size [_extract_png_size] returns comes from a text that is not
    empty and decodes to at least 24 bytes starting with the PNG signature;
    width and height are the big-endian integers at bytes 16..20 and 20..24,
    each between 1 and 2^32 - 1. *)
Theorem extract_png_size_sound (screenshot_b64 : option string) (w h : Z) :
  _extract_png_size b64decode screenshot_b64 = Some (w, h) ->
  0 < w < 2 ^ 32 /\ 0 < h < 2 ^ 32
  /\ exists s image_bytes,
       screenshot_b64 = Some s /\ s <> ""%string
       /\ b64decode s = Some image_bytes
       /\ (24 <= length image_bytes)%nat
       /\ firstn 8 image_bytes = png_signature
       /\ w = int_from_bytes_big (slice 16 20 image_bytes)
       /\ h = int_from_bytes_big (slice 20 24 image_bytes).
Proof. exact (extract_png_size_inv screenshot_b64 w h). Qed.

(** X19. [_extract_png_size] reads back the size of any PNG header: when the
    text decodes to bytes that start with the signature, a four-byte chunk
    length, the IHDR tag and the big-endian width and height (both between 1
    and 2^32 - 1), it returns this width and height. *)
Theorem extract_png_size_reads_header (s : string) (chunk_length rest : bytes) (w h : Z) :
  s <> ""%string ->
  length chunk_length = 4%nat ->
  0 < w < 2 ^ 32 -> 0 < h < 2 ^ 32 ->
  b64decode s = Some (png_head chunk_length w h ++ rest) ->
  _extract_png_size b64decode (Some s) = Some (w, h).
Proof.
  intros Hs Hc Hw Hh Hd. unfold _extract_png_size. simpl.
  apply truthy_str_nonempty in Hs. rewrite Hs. simpl. rewrite Hd.
  destruct chunk_length as [|c1 [|c2 [|c3 [|c4 [|? ?]]]]]; try discriminate.
  set (image_bytes := png_head [c1; c2; c3; c4] w h ++ rest).
  assert (L : (length image_bytes <? 24)%nat = false).
  { apply Nat.ltb_ge. unfold image_bytes. rewrite length_app. unfold png_head.
    rewrite !length_app. simpl. lia. }
  assert (S1 : slice 0 8 image_bytes = png_signature) by reflexivity.
  assert (S2 : slice 12 16 image_bytes = ihdr_tag) by reflexivity.
  assert (S3 : slice 16 20 image_bytes = be32 w) by reflexivity.
  assert (S4 : slice 20 24 image_bytes = be32 h) by reflexivity.
  rewrite L, S1, S2, S3, S4.
  rewrite (proj2 (bytes_eqb_eq png_signature png_signature) eq_refl).
  rewrite (proj2 (bytes_eqb_eq ihdr_tag ihdr_tag) eq_refl).
  cbn [negb]. cbv zeta.
  rewrite !int_from_bytes_big_be32 by lia.
  destruct (w <=? 0) eqn:E1; [apply Z.leb_le in E1; lia|].
  destruct (h <=? 0) eqn:E2; [apply Z.leb_le in E2; lia|].
  reflexivity.
Qed.

Lemma round_finite (x : float) : is_finite x = true -> exists r, PyFloat.round x = Return r.
Proof. destruct x; try discriminate; intros _; eexists; reflexivity. Qed.

Lemma cbind_Raise {A B} (c : completion A) (k : A -> completion B) (e : exn) :
  cbind c k = Raise e -> c = Raise e \/ exists a, c = Return a /\ k a = Raise e.
Proof.
  destruct c; simpl; intros H; [right; eauto | left; injection H as ->; reflexivity
                                | discriminate].
Qed.

Lemma round_raises (x : float) (e : exn) :
  PyFloat.round x = Raise e -> is_ExecutorError e = false.
Proof. destruct x; simpl; intros [= <-]; reflexivity. Qed.

Lemma mul_int_raises (x : float) (n : Z) (e : exn) :
  PyFloat.mul_int x n = Raise e -> is_ExecutorError e = false.
Proof.
  unfold PyFloat.mul_int, PyFloat.of_int.
  destruct (binary_normalize _ _ n 0 false); simpl; intros [= <-]; reflexivity.
Qed.

(** X20. A size read by [_extract_png_size] is one [_resolve_tap_coordinate]
    accepts: with it the resolver raises its own error only for an
    unsupported coordinate space, and in pixel space every finite point
    resolves to a tap inside the image. *)
Theorem png_size_is_a_valid_screen (screenshot_b64 : option string)
    (x y : float) (space : string) (w h : Z) :
  _extract_png_size b64decode screenshot_b64 = Some (w, h) ->
  (forall msg, _resolve_tap_coordinate x y space w h = Raise (ExecutorError msg) ->
     msg = ("Unsupported coord_space: " +:+ space)%string
     /\ space <> "auto"%string /\ space <> "ratio"%string /\ space <> "pixel"%string)
  /\ (is_finite x = true -> is_finite y = true ->
      exists d,
        _resolve_tap_coordinate x y "pixel" w h = Return d
        /\ 0 <= pt_x (tap d) < w /\ 0 <= pt_y (tap d) < h).
Proof.
  intros H. apply extract_png_size_inv in H as (Hw & Hh & _).
  assert (Hsize : (w <=? 0) || (h <=? 0) = false).
  { apply orb_false_iff. split; apply Z.leb_gt; lia. }
  split.
  - intros msg. unfold _resolve_tap_coordinate. rewrite Hsize.
    set (eff := if String.eqb space "auto" then _ else space).
    intros E. apply cbind_Raise in E as [E | (raw & _ & E)].
    + destruct (String.eqb eff "ratio") eqn:Er.
      { apply cbind_Raise in E as [E | (rx & _ & E)].
        - apply mul_int_raises in E. discriminate.
        - apply cbind_Raise in E as [E | (ry & _ & E)]; [|discriminate].
          apply mul_int_raises in E. discriminate. }
      destruct (String.eqb eff "pixel") eqn:Ep; [discriminate|].
      injection E as <-. split; [reflexivity|].
      apply String.eqb_neq in Er, Ep. unfold eff in Er, Ep.
      destruct (String.eqb space "auto") eqn:Ea.
      * destruct (_ && _); congruence.
      * apply String.eqb_neq in Ea. auto.
    + apply cbind_Raise in E as [E | (rx & _ & E)].
      * apply round_raises in E. discriminate.
      * apply cbind_Raise in E as [E | (ry & _ & E)]; [|discriminate].
        apply round_raises in E. discriminate.
  - intros Hx Hy.
    destruct (round_finite x Hx) as (rx & Rx). destruct (round_finite y Hy) as (ry & Ry).
    eexists. split.
    + unfold _resolve_tap_coordinate. rewrite Hsize. simpl String.eqb. cbv iota.
      simpl cbind. rewrite Rx. simpl cbind. rewrite Ry. simpl cbind. reflexivity.
    + simpl. lia.
Qed.

End PngSizeProperties.

(* ===================================================================== *)
(** ** Provider validation and the seeding of the environment *)
(* ===================================================================== *)


Section ProviderValidation.

Context (repr : pyval -> string).

Lemma configured_api_key_stripped name sc key :
  ModelProviders._get_configured_api_key repr name sc = Return key -> strip key = key.
Proof.
  unfold ModelProviders._get_configured_api_key. destruct sc as [v|];
    [|intros [= <-]; reflexivity].
  cbv zeta. destruct (ModelProviders.py_get _ name _) as [got| |]; cbn [cbind];
    try discriminate.
  destruct (ModelProviders.py_get _ "api_key" _) as [api_key| |]; cbn [cbind];
    try discriminate.
  intros [= <-]. destruct (truthy api_key); [apply strip_idempotent | reflexivity].
Qed.

Lemma seeded_from_refl sc environ : seeded_from repr sc environ environ.
Proof. intros k. left. reflexivity. Qed.

Lemma seed_one_seeded sc name e0 e1 :
  seeded_from repr sc e0 e1 ->
  seeded_from repr sc e0 (snd (ModelProviders.seed_one repr sc name e1)).
Proof.
  intros H. unfold ModelProviders.seed_one. cbv zeta.
  destruct (negb (truthy_str (ModelProviders.api_key_env_of name))); [exact H|].
  destruct (truthy_opt_str (e1 !! ModelProviders.api_key_env_of name)) eqn:Et; [exact H|].
  destruct (ModelProviders._get_configured_api_key repr name sc) as [key| |] eqn:Ek;
    [|exact H|exact H].
  destruct (truthy_str key) eqn:Tk; [|exact H].
  unfold ModelProviders.setenv. destruct (contains ModelProviders.nul key); [exact H|].
  cbn [snd]. unfold seeded_from, ModelProviders.environment in *. intros k.
  destruct (decide (k = ModelProviders.api_key_env_of name)) as [->|Hk].
  - rewrite lookup_insert_eq. right.
    destruct (H (ModelProviders.api_key_env_of name))
      as [E | (_ & n' & key' & _ & _ & Hne & E)].
    + split; [now rewrite <- E|]. exists name, key.
      split; [reflexivity|]. split; [exact Ek|].
      split; [now apply truthy_str_nonempty | reflexivity].
    + rewrite E in Et. cbn [truthy_opt_str] in Et.
      apply truthy_str_nonempty in Hne. congruence.
  - rewrite lookup_insert_ne by congruence. apply H.
Qed.

Lemma seed_targets_seeded sc targets : forall e0 e1,
  seeded_from repr sc e0 e1 ->
  seeded_from repr sc e0 (snd (ModelProviders.seed_targets repr sc targets e1)).
Proof.
  induction targets as [|name rest IH]; intros e0 e1 H; [exact H|].
  cbn [ModelProviders.seed_targets].
  pose proof (seed_one_seeded sc name e0 e1 H) as H1.
  destruct (ModelProviders.seed_one repr sc name e1) as [[[]| |] e2]; cbn [snd] in *;
    [apply IH, H1 | exact H1 | exact H1].
Qed.

Lemma seed_targets_returns sc targets : forall environ,
  (forall name, In name targets ->
     exists key, ModelProviders._get_configured_api_key repr name sc = Return key
                 /\ contains ModelProviders.nul key = false) ->
  fst (ModelProviders.seed_targets repr sc targets environ) = Return tt.
Proof.
  induction targets as [|name rest IH]; intros environ H; [reflexivity|].
  cbn [ModelProviders.seed_targets].
  assert (E : exists e1, ModelProviders.seed_one repr sc name environ = (Return tt, e1)).
  { destruct (H name (or_introl eq_refl)) as (key & Hk & Hz).
    unfold ModelProviders.seed_one. cbv zeta. rewrite Hk.
    destruct (negb _); [eexists; reflexivity|].
    destruct (truthy_opt_str _); [eexists; reflexivity|].
    destruct (truthy_str key); [|eexists; reflexivity].
    unfold ModelProviders.setenv. rewrite Hz. eexists; reflexivity. }
  destruct E as (e1 & ->). apply IH. intros n Hn. apply H. now right.
Qed.

Lemma od_get_PROVIDERS name :
  od_get ModelProviders.PROVIDERS name = None
  \/ name = "local"%string
  \/ exists E c,
       od_get ModelProviders.PROVIDERS name = Some c
       /\ ModelProviders.requires_api_key c = true
       /\ ModelProviders.api_key_env c = Some E
       /\ truthy_str E = true
       /\ ((name, E) = ("stepfun", "STEPFUN_API_KEY")%string
           \/ (name, E) = ("zhipu", "ZHIPUAI_API_KEY")%string
           \/ (name, E) = ("qwen", "DASHSCOPE_API_KEY")%string).
Proof.
  unfold ModelProviders.PROVIDERS. cbn [od_get].
  destruct (String.eqb name "local") eqn:E0;
    [apply String.eqb_eq in E0; auto|].
  destruct (String.eqb name "stepfun") eqn:E1.
  { apply String.eqb_eq in E1. subst. right. right. eexists _, _.
    split; [reflexivity|]. repeat split; auto. }
  destruct (String.eqb name "zhipu") eqn:E2.
  { apply String.eqb_eq in E2. subst. right. right. eexists _, _.
    split; [reflexivity|]. repeat split; auto. }
  destruct (String.eqb name "qwen") eqn:E3.
  { apply String.eqb_eq in E3. subst. right. right. eexists _, _.
    split; [reflexivity|]. repeat split; auto. }
  left. reflexivity.
Qed.

(** No two providers share a key variable. *)
Lemma api_key_env_of_inj n1 n2 :
  truthy_str (ModelProviders.api_key_env_of n1) = true ->
  ModelProviders.api_key_env_of n1 = ModelProviders.api_key_env_of n2 -> n1 = n2.
Proof.
  unfold ModelProviders.api_key_env_of, ModelProviders.PROVIDERS. cbn [od_get].
  destruct (String.eqb_spec n1 "local"); [subst; cbn; discriminate|].
  destruct (String.eqb_spec n1 "stepfun"); [subst|
    destruct (String.eqb_spec n1 "zhipu"); [subst|
      destruct (String.eqb_spec n1 "qwen"); [subst|cbn; discriminate]]];
    (destruct (String.eqb_spec n2 "local"); [subst; cbn; discriminate|]);
    (destruct (String.eqb_spec n2 "stepfun"); [subst; cbn; try discriminate; reflexivity|]);
    (destruct (String.eqb_spec n2 "zhipu"); [subst; cbn; try discriminate; reflexivity|]);
    (destruct (String.eqb_spec n2 "qwen"); [subst; cbn; try discriminate; reflexivity|]);
    cbn; discriminate.
Qed.

(** X21. [seed_provider_env_from_config] over all providers changes the
    outcome of [validate_provider] for no provider name, also when an
    exception ends the seeding early.  It never replaces a variable that
    holds a non-empty value, and a variable it changes is the key variable
    of a provider, unset or empty before, now holding that provider's
    configured key with the white space around it removed, which is not
    empty.  The seeding comes back without an exception when the key of
    every provider can be read from the configuration and holds no NUL
    character. *)
Theorem seeding_keeps_validation (skill_config : ModelProviders.providers_config)
    (environ : ModelProviders.environment) :
  let result :=
    ModelProviders.seed_provider_env_from_config repr skill_config None environ in
  let seeded := snd result in
  (forall name,
     ModelProviders.validate_provider repr name skill_config seeded
     = ModelProviders.validate_provider repr name skill_config environ)
  /\ (forall k v, environ !! k = Some v -> v <> ""%string -> seeded !! k = Some v)
  /\ (forall k,
        seeded !! k = environ !! k
        \/ (truthy_opt_str (environ !! k) = false
            /\ exists name key,
                 ModelProviders.api_key_env_of name = k
                 /\ ModelProviders._get_configured_api_key repr name skill_config
                    = Return key
                 /\ key <> ""%string /\ strip key = key
                 /\ seeded !! k = Some key))
  /\ ((forall name,
         In name (map fst ModelProviders.PROVIDERS) ->
         exists key,
           ModelProviders._get_configured_api_key repr name skill_config = Return key
           /\ contains ModelProviders.nul key = false) ->
      fst result = Return tt).
Proof.
  cbv zeta.
  assert (H : seeded_from repr skill_config environ
                (snd (ModelProviders.seed_provider_env_from_config
                        repr skill_config None environ))).
  { unfold ModelProviders.seed_provider_env_from_config.
    destruct skill_config as [v|]; [|apply seeded_from_refl].
    apply seed_targets_seeded, seeded_from_refl. }
  set (seeded := snd _) in *. clearbody seeded.
  split; [|split; [|split]].
  - intros name. unfold ModelProviders.validate_provider.
    destruct (od_get_PROVIDERS name) as [-> | [-> | (E & c & -> & Hr & He & Ht & Hn)]];
      [reflexivity | reflexivity |].
    rewrite Hr, He. change (default ""%string (Some E)) with E. rewrite Ht. cbn [andb].
    destruct (H E) as [-> | (Hf & n' & key & Hn' & Hk & Hne & ->)]; [reflexivity|].
    assert (n' = name) as ->.
    { apply api_key_env_of_inj; [now rewrite Hn'|].
      rewrite Hn'. unfold ModelProviders.api_key_env_of.
      destruct Hn as [[= -> ->] | [[= -> ->] | [= -> ->]]]; reflexivity. }
    rewrite Hk. cbn [cbind]. change (default ""%string (Some key)) with key.
    rewrite (configured_api_key_stripped _ _ _ Hk).
    apply truthy_str_nonempty in Hne. rewrite Hne. cbn [negb andb].
    rewrite andb_false_r. reflexivity.
  - intros k v Hk Hv. destruct (H k) as [-> | (Hf & _)]; [exact Hk|].
    rewrite Hk in Hf. cbn [truthy_opt_str] in Hf.
    apply truthy_str_nonempty in Hv. congruence.
  - intros k. destruct (H k) as [E | (Hf & name & key & Hn & Hk & Hne & E)];
      [left; exact E|].
    right. split; [exact Hf|]. exists name, key.
    repeat (split; [assumption|]).
    split; [exact (configured_api_key_stripped _ _ _ Hk) | exact E].
  - intros Hall. unfold ModelProviders.seed_provider_env_from_config.
    destruct skill_config as [v|]; [|reflexivity].
    apply seed_targets_returns, Hall.
Qed.

(** X22. The outcome of [validate_provider].  "local" is always valid.  A
    built-in provider with a key variable is valid exactly when the variable
    holds a value that is not only white space or the configuration holds a
    key for it; when the configured key cannot be read, the exception of the
    reading comes out.  For a name outside the table the [providers] value
    of the configuration decides: a mapping, a list or a text makes the name
    valid exactly when it holds it, no configuration object makes it
    unknown, and any other value, [None] included, raises TypeError.  A
    valid verdict carries "OK", an unknown name its message. *)
Theorem validate_provider_verdict (name : string)
    (skill_config : ModelProviders.providers_config)
    (environ : ModelProviders.environment) :
  let verdict := ModelProviders.validate_provider repr name skill_config environ in
  (name = "local"%string -> verdict = Return (true, "OK"%string))
  /\ (forall c E,
        od_get ModelProviders.PROVIDERS name = Some c ->
        ModelProviders.api_key_env c = Some E ->
        (forall key,
           ModelProviders._get_configured_api_key repr name skill_config = Return key ->
           exists valid msg,
             verdict = Return (valid, msg)
             /\ (valid = true
                 <-> strip (default ""%string (environ !! E)) <> ""%string
                     \/ key <> ""%string))
        /\ (forall e,
              ModelProviders._get_configured_api_key repr name skill_config = Raise e ->
              verdict = Raise e))
  /\ (od_get ModelProviders.PROVIDERS name = None ->
      let unknown := (false, ("Unknown provider: " +:+ name)%string) in
      (skill_config = None -> verdict = Return unknown)
      /\ (forall d,
            skill_config = Some (PDict d) ->
            verdict = Return (if bool_decide (is_Some (d !! name))
                              then (true, "OK"%string) else unknown))
      /\ (forall l,
            skill_config = Some (PList l) ->
            verdict = Return (if existsb (fun e => eq_str e name) l
                              then (true, "OK"%string) else unknown))
      /\ (forall t,
            skill_config = Some (PStr t) ->
            verdict = Return (if contains name t then (true, "OK"%string) else unknown))
      /\ (forall v,
            skill_config = Some v -> is_container v = false ->
            verdict
            = Raise (TypeError ("argument of type '" +:+ type_name v
                                +:+ "' is not iterable"))))
  /\ (forall msg, verdict = Return (true, msg) -> msg = "OK"%string).
Proof.
  cbv zeta. split; [intros ->; reflexivity|]. split; [|split].
  - intros c E Hc He. unfold ModelProviders.validate_provider.
    destruct (od_get_PROVIDERS name) as [Hn | [-> | (E' & c' & Hc' & Hr & He' & Ht & _)]].
    + congruence.
    + cbn in Hc. injection Hc as <-. discriminate.
    + rewrite Hc in Hc'. injection Hc' as <-. rewrite He in He'. injection He' as <-.
      rewrite Hc, Hr, He. change (default ""%string (Some E)) with E. rewrite Ht. cbn [andb].
      split.
      * intros key ->. cbn [cbind].
        destruct (truthy_str (strip (default ""%string (environ !! E)))) eqn:T1;
          destruct (truthy_str key) eqn:T2; cbn [negb andb];
          eexists _, _; (split; [reflexivity|]);
          rewrite <- !truthy_str_nonempty, T1, T2;
          split; auto; intros [?|?]; discriminate.
      * intros e ->. reflexivity.
  - intros Hn. unfold ModelProviders.validate_provider. rewrite Hn.
    split; [intros ->; reflexivity|].
    split; [intros d ->; cbn; destruct (bool_decide _); reflexivity|].
    split; [intros l ->; cbn; destruct (existsb _ l); reflexivity|].
    split; [intros t ->; cbn; destruct (contains name t); reflexivity|].
    intros v -> Hv. destruct v; try discriminate Hv; reflexivity.
  - intros msg. unfold ModelProviders.validate_provider.
    destruct (od_get ModelProviders.PROVIDERS name) as [c|].
    + destruct (ModelProviders.requires_api_key c); [|intros [= <-]; reflexivity].
      cbv zeta. destruct (ModelProviders._get_configured_api_key _ _ _); cbn [cbind];
        try discriminate.
      destruct (_ && _ && _); [discriminate | intros [= <-]; reflexivity].
    + destruct (ModelProviders.py_in _ _) as [[]| |]; cbn [cbind]; try discriminate.
      intros [= <-]. reflexivity.
Qed.

(** A configuration whose [providers] key is left empty: a name outside the
    table cannot be looked up in it. *)
Example validate_provider_without_providers :
  ModelProviders.validate_provider repr "custom" (Some PNone) ∅
  = Raise (TypeError "argument of type 'NoneType' is not iterable").
Proof. reflexivity. Qed.

(** A key variable that holds only a no-break space counts as unset. *)
Example validate_provider_blank_variable :
  ModelProviders.validate_provider repr "stepfun" None
    {[ "STEPFUN_API_KEY"%string := no_break_space ]}
  = Return (false,
            ("Missing API key: set STEPFUN_API_KEY env var "
             +:+ "or configure providers.stepfun.api_key in config")%string).
Proof. vm_compute. reflexivity. Qed.

(** A configured key is seeded without the white space around it, and a key
    of white space only is not seeded. *)
Example seeding_strips_configured_key :
  let providers :=
    PDict {[ "stepfun"%string :=
               PDict {[ "api_key"%string
                          := PStr (no_break_space +:+ "abc" +:+ no_break_space) ]};
             "qwen"%string := PDict {[ "api_key"%string := PStr no_break_space ]} ]} in
  let seeded :=
    snd (ModelProviders.seed_provider_env_from_config repr (Some providers) None ∅) in
  seeded !! "STEPFUN_API_KEY"%string = Some "abc"%string
  /\ seeded !! "DASHSCOPE_API_KEY"%string = None.
Proof. split; vm_compute; reflexivity. Qed.

End ProviderValidation.

(* ===================================================================== *)
(** ** The further properties at concrete inputs *)
(* ===================================================================== *)

Lemma demo_active_state_consistent : consistent demo_active_state.
Proof.
  split; [split|].
  - simpl. apply NoDup_singleton.
  - repeat constructor.
  - intros k. simpl. destruct (String.eqb k "0f8fad5b") eqn:E.
    + apply String.eqb_eq in E. subst k. apply lookup_singleton_eq.
    + apply lookup_singleton_ne. intros <-. rewrite String.eqb_refl in E. discriminate.
Defined.

Lemma demo_tracked_state_NoDup : NoDup (tracked demo_tracked_state).
Proof.
  simpl. apply NoDup_cons. split; [|apply NoDup_singleton].
  intros H. apply list_elem_of_singleton in H. discriminate.
Defined.

Lemma delete_session_effect_witness :
  exists s',
    delete_session "0f8fad5b" demo_active_state = (Return true, s')
    /\ od_get (sessions s') "0f8fad5b" = None
    /\ files s' !! "0f8fad5b"%string = None.
Proof.
  destruct (proj2 (delete_session_effect quiet_world demo_config "0f8fad5b"
                     demo_active_state (proj1 demo_active_state_consistent))
              demo_session eq_refl) as (s' & E & N & F & _).
  exists s'. split; [exact E|]. split; [exact N | exact F].
Defined.

Lemma cleanup_expired_effect_witness :
  exists s',
    cleanup_expired (demo_world clock_5000 [] (prompt_return PNone)) demo_config
      demo_active_state = (Return 1, s')
    /\ sessions s' = [].
Proof.
  destruct (cleanup_expired_effect (demo_world clock_5000 [] (prompt_return PNone))
              demo_config demo_active_state (proj1 demo_active_state_consistent))
    as (s' & E & Hs & _).
  assert (Hs' : sessions s' = []) by (rewrite Hs; vm_compute; reflexivity).
  exists s'. rewrite E, Hs'. split; reflexivity.
Defined.

Lemma list_active_sessions_exact_witness :
  exists s',
    list_active_sessions quiet_world demo_config demo_active_state
    = (Return [demo_session], s').
Proof.
  destruct (list_active_sessions_exact quiet_world demo_config demo_active_state
              (proj1 demo_active_state_consistent)) as (s' & E & _).
  exists s'. rewrite E. vm_compute. reflexivity.
Defined.



Lemma collect_live_prunes_stale_witness :
  exists live s',
    _collect_live_subprocesses quiet_world demo_tracked_state = (Return live, s')
    /\ tracked s' = live
    /\ log s' = [EvPoll 4101; EvPoll 4102].
Proof.
  destruct (collect_live_prunes_stale quiet_world demo_tracked_state
              demo_tracked_state_NoDup) as (live & s' & E & T & _ & L & _).
  exists live, s'. split; [exact E|]. split; [exact T | exact L].
Defined.

Lemma cleanup_signals_live_processes_witness :
  exists killed s' rest,
    cleanup_tracked_subprocesses quiet_world grace_default demo_tracked_state
    = (Return 2, s')
    /\ log s' = rest
    /\ signals rest = [(4101, false); (4102, false)] ++ map (fun p => (p, true)) killed
    /\ sublist killed [4101; 4102].
Proof.
  destruct (cleanup_signals_live_processes quiet_world grace_default demo_tracked_state
              demo_tracked_state_NoDup)
    as (live & killed & s1 & s' & rest & E1 & E & L & Sg & Sk & _).
  vm_compute in E1. injection E1 as <- _.
  exists killed, s', rest. split; [exact E|]. split; [exact L|]. split; [exact Sg | exact Sk].
Defined.

Lemma run_with_timeout_in_time_witness :
  1000 <= TIMEOUT_MAX quiet_world
  /\ _run_with_timeout quiet_world (spawning_job [] (Ends (inl (PStr "done")) f900))
       (Some 1000) "execute" empty_state
     = (Return (PStr "done"), empty_state).
Proof.
  assert (Hm : 1000 <= TIMEOUT_MAX quiet_world) by (simpl; lia).
  split; [exact Hm|].
  apply (run_with_timeout_in_time quiet_world
           (spawning_job [] (Ends (inl (PStr "done")) f900)) 1000 "execute"
           empty_state empty_state (inl (PStr "done")) f900);
    [lia | reflexivity | vm_compute; reflexivity | exact Hm].
Defined.


Lemma continue_session_rejects_without_adapter_witness :
  continue_session quiet_world demo_config (Some "deadbeef"%string) None None None
    None None empty_state
  = (Return [ ("success", PBool false);
              ("error", PStr "Session not found: deadbeef");
              ("message", PStr "Session deadbeef not found or expired.") ]%string,
     empty_state).
Proof.
  apply (proj1 (continue_session_rejects_without_adapter quiet_world demo_config
                  "deadbeef" None None None None None empty_state eq_refl)).
  reflexivity.
Defined.


Lemma extract_png_size_sound_witness :
  0 < 1080 < 2 ^ 32 /\ 0 < 2400 < 2 ^ 32
  /\ exists s image_bytes,
       Some demo_png_b64 = Some s /\ s <> ""%string
       /\ demo_b64decode s = Some image_bytes
       /\ (24 <= length image_bytes)%nat
       /\ firstn 8 image_bytes = png_signature
       /\ 1080 = int_from_bytes_big (slice 16 20 image_bytes)
       /\ 2400 = int_from_bytes_big (slice 20 24 image_bytes).
Proof.
  apply (extract_png_size_sound demo_b64decode (Some demo_png_b64) 1080 2400).
  vm_compute. reflexivity.
Defined.

Lemma extract_png_size_reads_header_witness :
  _extract_png_size demo_b64decode (Some demo_png_b64) = Some (1080, 2400).
Proof.
  apply (extract_png_size_reads_header demo_b64decode demo_png_b64
           [Byte.x00; Byte.x00; Byte.x00; Byte.x0d] [] 1080 2400);
    [discriminate | reflexivity | lia | lia | reflexivity].
Defined.

Lemma png_size_is_a_valid_screen_witness :
  exists d,
    _resolve_tap_coordinate f1900 f900 "pixel" 1080 2400 = Return d
    /\ 0 <= pt_x (tap d) < 1080 /\ 0 <= pt_y (tap d) < 2400.
Proof.
  apply (proj2 (png_size_is_a_valid_screen demo_b64decode (Some demo_png_b64)
                  f1900 f900 "pixel" 1080 2400 ltac:(vm_compute; reflexivity)));
    reflexivity.
Defined.
